(** * iMessage extractor: a shallow embedding of [iMessage-extractor.py]

  The development follows the Python module top to bottom:
  string helpers of the runtime ([str.replace], [str.strip],
  [os.path.basename], [os.path.join]), the utility functions
  ([sanitize_filename], [format_timestamp], [is_short_code_number],
  [is_plugin_attachment], the bar of [print_progress]), the exporter
  class with its [stats] dictionary, and [main].

  Python's class body binds a method name to its last definition, so
  the methods embedded here are the last [connect_to_database], the
  last [export_conversations] and the last [print_summary] of the
  class, with the only [copy_attachment].

  Text is modelled by [string] (one [ascii] per character; the inputs
  considered are ASCII), integers by [Z], [None]-able columns by
  [option], the [stats] dictionary by a [gmap] keyed by strings, and
  the file system by a [gmap] from paths to nodes.  Console and log
  text is not part of the state: a [print] or [logger] call only keeps
  the evaluation of its arguments, which may raise; so the progress
  bar ([print_progress]) and the clock ([time.time]) leave no trace.
  In particular the records that the logger appends to
  [export_debug.log] through the file handler of [setup_logging] are
  not followed: the node at that path stands for the file, whatever its
  text.  An equation between two states is therefore about the
  counters, the recorded calls and the nodes, not about the text of the
  log; and where a statement says which files the export, or the
  summary, leaves as they were, that path is left out
  ([same_files_but_log]).
  The SQL engine and the operating system are collaborators: a
  connection gives the rows each query fetches, and the environment
  says which file calls fail. *)

From Stdlib Require Import ZArith Ascii String List Lia Bool Sorted.
From stdpp Require Import gmap strings list fin_maps pretty.

Local Open Scope Z_scope.

(** ** Strings of the Python runtime *)

Module PyStr.

Definition chr_eqb (a b : ascii) : bool := Ascii.eqb a b.

(** [c in chars] for a character and a string used as a character set. *)
Fixpoint chr_in (c : ascii) (chars : list ascii) : bool :=
  match chars with
  | [] => false
  | d :: rest => chr_eqb c d || chr_in c rest
  end.

(** [c in s] for a one-character needle. *)
Fixpoint contains (c : ascii) (s : string) : bool :=
  match s with
  | EmptyString => false
  | String d rest => chr_eqb c d || contains c rest
  end.

(** [s.replace(old, new)] when [old] and [new] are single characters. *)
Fixpoint replace (old new : ascii) (s : string) : string :=
  match s with
  | EmptyString => EmptyString
  | String c rest =>
      String (if chr_eqb c old then new else c) (replace old new rest)
  end.

(** [s.lstrip(chars)] *)
Fixpoint lstrip (chars : list ascii) (s : string) : string :=
  match s with
  | EmptyString => EmptyString
  | String c rest => if chr_in c chars then lstrip chars rest else s
  end.

(** [s.rstrip(chars)] *)
Fixpoint rstrip (chars : list ascii) (s : string) : string :=
  match s with
  | EmptyString => EmptyString
  | String c rest =>
      match rstrip chars rest with
      | EmptyString => if chr_in c chars then EmptyString else String c EmptyString
      | r => String c r
      end
  end.

(** [s.strip(chars)] *)
Definition strip (chars : list ascii) (s : string) : string :=
  rstrip chars (lstrip chars s).

(** [s[:n]] *)
Fixpoint take (n : nat) (s : string) : string :=
  match n, s with
  | O, _ => EmptyString
  | _, EmptyString => EmptyString
  | S k, String c rest => String c (take k rest)
  end.

(** ASCII white space, the characters [str.strip()] removes and
    [str.isspace] accepts below code point 128. *)
Definition whitespace : list ascii :=
  [" "; "009"; "010"; "011"; "012"; "013"; "028"; "029"; "030"; "031"]%char.

(** [c.lower()] on ASCII letters. *)
Definition lower_chr (c : ascii) : ascii :=
  let n := nat_of_ascii c in
  if (Nat.leb 65 n && Nat.leb n 90)%bool then ascii_of_nat (n + 32) else c.

Fixpoint lower (s : string) : string :=
  match s with
  | EmptyString => EmptyString
  | String c rest => String (lower_chr c) (lower rest)
  end.

(** [s.startswith(p)] *)
Fixpoint startswith (s p : string) : bool :=
  match p, s with
  | EmptyString, _ => true
  | String _ _, EmptyString => false
  | String a p', String b s' => chr_eqb a b && startswith s' p'
  end.

(** [s.endswith(suffix)]: some tail of [s] is [suffix]. *)
Fixpoint endswith (s suffix : string) : bool :=
  String.eqb s suffix ||
  match s with
  | EmptyString => false
  | String _ rest => endswith rest suffix
  end.

(** ['\n'.join(lines)] *)
Definition join_lines (lines : list string) : string :=
  String.concat (String "010"%char EmptyString) lines.

(** Truth value of a nullable text column: [None] and [''] are false. *)
Definition truthy (o : option string) : bool :=
  match o with
  | Some (String _ _) => true
  | _ => false
  end.

End PyStr.

(** ** [os.path] on POSIX *)

Module OsPath.

(** [posixpath.basename]: the text after the last ['/']. *)
Fixpoint basename_from (tail p : string) : string :=
  match p with
  | EmptyString => tail
  | String c rest =>
      if PyStr.chr_eqb c "/"%char then basename_from rest rest
      else basename_from tail rest
  end.

Definition basename (p : string) : string := basename_from p p.

Fixpoint ends_with_sep (a : string) : bool :=
  match a with
  | EmptyString => false
  | String c EmptyString => PyStr.chr_eqb c "/"%char
  | String _ rest => ends_with_sep rest
  end.

(** [posixpath.join(a, b)] for two components. *)
Definition join (a b : string) : string :=
  if PyStr.startswith b "/" then b
  else match a with
       | EmptyString => b
       | _ => if ends_with_sep a then a +:+ b else a +:+ "/" +:+ b
       end.

End OsPath.

(** ** Utility functions *)

(** The characters [sanitize_filename] replaces; ["034"] is the double quote. *)
Definition problematic_chars : list ascii :=
  [":"; "/"; "\"; "<"; ">"; "034"; "|"; "?"; "*"]%char.

(** The three rewriting steps of [sanitize_filename]: the replacements,
    [name.strip(' .')] and [name[:100]]. *)
Definition cleaned (name : string) : string :=
  let name :=
    fold_left (fun n char => PyStr.replace char "_"%char n) problematic_chars name in
  let name := PyStr.strip [" "; "."]%char name in
  if (100 <? Z.of_nat (String.length name)) then PyStr.take 100 name else name.

(** [sanitize_filename(name)] *)
Definition sanitize_filename (name : option string) : string :=
  if negb (PyStr.truthy name) then "Unknown"
  else
    let name := cleaned (default EmptyString name) in
    if PyStr.truthy (Some name) then name else "Unknown".

(** ** Exceptions *)

Inductive exn :=
| KeyError (key : string)
| TypeError
| ValueError
| OverflowError
| OSError (msg : string)
| SqliteError (msg : string).

Inductive result (A : Type) :=
| Ok (a : A)
| Raise (e : exn).

Arguments Ok {A} a.
Arguments Raise {A} e.

Definition result_bind {A B} (r : result A) (k : A -> result B) : result B :=
  match r with
  | Ok a => k a
  | Raise e => Raise e
  end.

(** ** Floats and [datetime] of the Python runtime

    A finite binary64 value is kept as a pair [(m, e)] standing for
    [m * 2^e].  [int / int] is the correctly rounded quotient (round to
    nearest, ties to even) and raises [OverflowError] beyond the range of
    a float. *)

Module PyFloat.

(** Nearest integer to [n / d] for [0 < d], ties to even. *)
Definition round_half_even (n d : Z) : Z :=
  let q := n / d in
  let r := n mod d in
  if 2 * r <? d then q
  else if d <? 2 * r then q + 1
  else if Z.even q then q else q + 1.

(** [floor (log2 (n / d))] for positive [n] and [d]. *)
Definition ilog2_ratio (n d : Z) : Z :=
  let k := Z.log2 n - Z.log2 d in
  if n * 2 ^ Z.max 0 (- k) <? d * 2 ^ Z.max 0 k then k - 1 else k.

(** The binary64 value nearest to [n / d], [None] on overflow. *)
Definition round_binary64 (n d : Z) : option (Z * Z) :=
  if n =? 0 then Some (0, 0)
  else
    let a := Z.abs n in
    let e := Z.max (ilog2_ratio a d - 52) (-1074) in
    let m := round_half_even (a * 2 ^ Z.max 0 (- e)) (d * 2 ^ Z.max 0 e) in
    if 1024 <=? Z.log2 m + e then None else Some (Z.sgn n * m, e).

(** [a / b] on two ints, [0 < b]. *)
Definition true_divide (a b : Z) : result (Z * Z) :=
  match round_binary64 a b with
  | Some x => Ok x
  | None => Raise OverflowError
  end.

(** [math.modf]: integer part (toward zero) and fractional part. *)
Definition modf (x : Z * Z) : Z * (Z * Z) :=
  let '(m, e) := x in
  if 0 <=? e then (m * 2 ^ e, (0, 0))
  else (Z.quot m (2 ^ (- e)), (Z.rem m (2 ^ (- e)), e)).

(** [x * k] for a float [x] that is not an integer and an int [k],
    rounded to binary64; the products formed here never overflow. *)
Definition mul_int (x : Z * Z) (k : Z) : Z * Z :=
  let '(m, e) := x in
  default (0, 0)
    (if 0 <=? e then round_binary64 (m * k * 2 ^ e) 1
     else round_binary64 (m * k) (2 ^ (- e))).

(** [round(x)]: nearest int, ties to even. *)
Definition round (x : Z * Z) : Z :=
  let '(m, e) := x in
  if 0 <=? e then m * 2 ^ e else round_half_even m (2 ^ (- e)).

End PyFloat.

Module DateTime.

Definition us_per_second : Z := 1000000.
Definition us_per_day : Z := 86400 * us_per_second.

(** [timedelta(seconds=x)] for a float [x], as a count of microseconds;
    [OverflowError] when the day count leaves [-999999999, 999999999]. *)
Definition timedelta_seconds (x : Z * Z) : result Z :=
  let '(whole, frac) := PyFloat.modf x in
  let us := whole * us_per_second + PyFloat.round (PyFloat.mul_int frac us_per_second) in
  let days := us / us_per_day in
  if (days <? -999999999) || (999999999 <? days) then Raise OverflowError
  else Ok us.

(** [datetime.datetime(2001, 1, 1)] in microseconds since 0001-01-01. *)
Definition mac_epoch : Z := (730486 - 1) * us_per_day.

Definition max_ordinal : Z := 3652059.

(** [datetime + timedelta]; [OverflowError] outside years 1..9999. *)
Definition add (dt delta : Z) : result Z :=
  let t := dt + delta in
  let ordinal := t / us_per_day + 1 in
  if (ordinal <? 1) || (max_ordinal <? ordinal) then Raise OverflowError
  else Ok t.

Definition days_before_month (month : Z) : Z :=
  nth (Z.to_nat month) [0; 0; 31; 59; 90; 120; 151; 181; 212; 243; 273; 304; 334] 0.

Definition days_in_month (month : Z) : Z :=
  nth (Z.to_nat month) [0; 31; 28; 31; 30; 31; 30; 31; 31; 30; 31; 30; 31] 0.

(** [_ord2ymd]: proleptic Gregorian ordinal to (year, month, day). *)
Definition ord2ymd (ordinal : Z) : Z * Z * Z :=
  let n := ordinal - 1 in
  let n400 := n / 146097 in
  let n := n mod 146097 in
  let year := n400 * 400 + 1 in
  let n100 := n / 36524 in
  let n := n mod 36524 in
  let n4 := n / 1461 in
  let n := n mod 1461 in
  let n1 := n / 365 in
  let n := n mod 365 in
  let year := year + n100 * 100 + n4 * 4 + n1 in
  if (n1 =? 4) || (n100 =? 4) then (year - 1, 12, 31)
  else
    let leapyear := (n1 =? 3) && (negb (n4 =? 24) || (n100 =? 3)) in
    let month := Z.shiftr (n + 50) 5 in
    let preceding :=
      days_before_month month + (if (2 <? month) && leapyear then 1 else 0) in
    if n <? preceding then
      let month := month - 1 in
      let preceding :=
        preceding - (days_in_month month + (if (month =? 2) && leapyear then 1 else 0)) in
      (year, month, n - preceding + 1)
    else (year, month, n - preceding + 1).

Definition pad2 (n : Z) : string :=
  if n <? 10 then "0" +:+ pretty n else pretty n.

Definition pad4 (n : Z) : string :=
  if n <? 10 then "000" +:+ pretty n
  else if n <? 100 then "00" +:+ pretty n
  else if n <? 1000 then "0" +:+ pretty n
  else pretty n.

(** [dt.strftime("%Y-%m-%d %H:%M:%S")], the year on four digits as the
    C library of macOS prints it. *)
Definition strftime (dt : Z) : string :=
  let '(year, month, day) := ord2ymd (dt / us_per_day + 1) in
  let second := (dt mod us_per_day) / us_per_second in
  pad4 year +:+ "-" +:+ pad2 month +:+ "-" +:+ pad2 day +:+ " " +:+
  pad2 (second / 3600) +:+ ":" +:+ pad2 ((second / 60) mod 60) +:+ ":" +:+
  pad2 (second mod 60).

End DateTime.

(** [mac_epoch + datetime.timedelta(seconds=timestamp / 1000000000)] *)
Definition mac_datetime (timestamp : Z) : result Z :=
  result_bind (PyFloat.true_divide timestamp 1000000000) (fun seconds =>
  result_bind (DateTime.timedelta_seconds seconds) (fun delta =>
  DateTime.add DateTime.mac_epoch delta)).

(** [format_timestamp(timestamp)]; the [try] keeps [ValueError] and
    [OverflowError] from leaving the function. *)
Definition format_timestamp (timestamp : option Z) : result string :=
  match timestamp with
  | None | Some 0 => Ok "Unknown Time"
  | Some timestamp =>
      match result_bind (mac_datetime timestamp) (fun dt => Ok (DateTime.strftime dt)) with
      | Raise ValueError | Raise OverflowError => Ok "Unknown Time"
      | other => other
      end
  end.

Definition plugin_extensions : list string :=
  [".pluginPayloadAttachment"; ".balloon"; ".app"; ".handwriting"; ".digitaltouchdata"].

(** [is_plugin_attachment(filename)] *)
Definition is_plugin_attachment (filename : option string) : bool :=
  match filename with
  | Some (String c rest) =>
      existsb (fun ext => PyStr.endswith (PyStr.lower (String c rest)) (PyStr.lower ext))
        plugin_extensions
  | _ => false
  end.

(** [s.replace(c, '')] for a one-character [c]. *)
Fixpoint str_remove (c : ascii) (s : string) : string :=
  match s with
  | EmptyString => EmptyString
  | String d rest =>
      if PyStr.chr_eqb d c then str_remove c rest else String d (str_remove c rest)
  end.

Definition is_digit (c : ascii) : bool :=
  let n := nat_of_ascii c in (Nat.leb 48 n && Nat.leb n 57)%bool.

Fixpoint all_digits (s : string) : bool :=
  match s with
  | EmptyString => true
  | String c rest => is_digit c && all_digits rest
  end.

(** [s.isdigit()] on ASCII text: not empty and made of digits. *)
Definition isdigit (s : string) : bool :=
  PyStr.truthy (Some s) && all_digits s.

(** [is_short_code_number(identifier)] *)
Definition is_short_code_number (identifier : option string) : bool :=
  if negb (PyStr.truthy identifier) then false
  else
    let identifier := default EmptyString identifier in
    let clean_number :=
      str_remove ")" (str_remove "(" (str_remove " " (str_remove "-"
        (str_remove "+" identifier)))) in
    if isdigit clean_number && (Z.of_nat (String.length clean_number) <=? 6)
    then true else false.

(** The two glyphs of the progress bar. *)
Inductive cell :=
| Full
| Shade.

(** The bar drawn by [print_progress(current, total)], [None] when the
    function returns at once because [total == 0]; the percentage, a
    float, is not part of it.  A repetition by a negative count is the
    empty string. *)
Definition progress_bar (current total : Z) : option (list cell) :=
  if total =? 0 then None
  else
    let bar_length := 30 in
    let filled_length := bar_length * current / total in
    Some (repeat Full (Z.to_nat filled_length)
            ++ repeat Shade (Z.to_nat (bar_length - filled_length))).

(** ** Configuration, environment and state *)

(** The module-level settings and the [CONFIG] class. *)
Record config := {
  DRY_RUN : bool;
  RESUME_MODE : bool;
  CHAT_DB_PATH : string;
  ATTACHMENTS_PATH : string;
  OUTPUT_DIR : string;
  NORTH_AMERICA_ONLY : bool;
  SKIP_SHORT_CODES : bool;
  SEARCH_ALTERNATIVE_LOCATIONS : bool
}.

(** Rows of the three queries, columns in [SELECT] order. *)
Record chat_row := {
  r_chat_identifier : string;
  r_display_name : option string;
  r_room_name : option string;
  r_phone_or_email : option string
}.

Record message_row := {
  m_date : option Z;
  m_text : option string;
  m_is_from_me : Z;
  m_sender_handle : option string;
  m_message_id : Z
}.

Record attachment_row := {
  a_filename : option string;
  a_transfer_name : option string;
  a_mime_type : option string;
  a_total_bytes : option Z
}.

Inductive sqlite_result (A : Type) :=
| Rows (rows : A)
| SqliteFail (msg : string).

Arguments Rows {A} rows.
Arguments SqliteFail {A} msg.

(** An open connection: what each query of the exporter fetches. *)
Record connection := {
  q_count_chats : sqlite_result Z;
  q_chats : sqlite_result (list chat_row);
  q_messages : string -> sqlite_result (list message_row);
  q_attachments : Z -> sqlite_result (list attachment_row)
}.

(** What the operating system decides: home expansion, the outcome of
    [sqlite3.connect], which mutating file calls fail with an [OSError]
    and which text, and how much of the source a failing copy had
    written to its destination ([None]: the destination was not opened;
    [Some 0]: it was opened, hence truncated; a count that covers the
    source: the data was copied and [copystat] failed). *)
Record os_env := {
  expanduser : string -> string;
  sqlite_connect : string -> sqlite_result connection;
  makedirs_error : string -> option string;
  copy_error : string -> string -> option string;
  copy_written : string -> string -> option nat;
  open_error : string -> option string
}.

Inductive fnode :=
| Dir
| File (content : string).

(** File system calls, in the order they are made. *)
Inductive fs_call :=
| CallExists (path : string)
| CallMakedirs (path : string)
| CallCopy2 (src dst : string)
| CallOpenWrite (path : string)
| CallOpenAppend (path : string).

(** Values a [stats] entry holds. *)
Inductive value :=
| VInt (n : Z)
| VNone
| VList (items : list string).

Record state := {
  stats : gmap string value;
  fs : gmap string fnode;
  calls : list fs_call
}.

Definition set_stats (f : gmap string value -> gmap string value) (s : state) : state :=
  {| stats := f (stats s); fs := fs s; calls := calls s |}.

Definition set_fs (f : gmap string fnode -> gmap string fnode) (s : state) : state :=
  {| stats := stats s; fs := f (fs s); calls := calls s |}.

Definition log_call (c : fs_call) (s : state) : state :=
  {| stats := stats s; fs := fs s; calls := calls s ++ [c] |}.

(** ** The monad of the exporter: state and exceptions *)

Definition M (A : Type) : Type := state -> result A * state.

Definition ret {A} (a : A) : M A := fun s => (Ok a, s).

Definition raise {A} (e : exn) : M A := fun s => (Raise e, s).

Definition bind {A B} (m : M A) (k : A -> M B) : M B :=
  fun s =>
    match m s with
    | (Ok a, s') => k a s'
    | (Raise e, s') => (Raise e, s')
    end.

Definition lift {A} (r : result A) : M A := fun s => (r, s).

Declare Scope py_scope.
Delimit Scope py_scope with py.
Notation "x <- m ;; k" := (bind m (fun x => k))
  (at level 100, m at next level, right associativity) : py_scope.
Notation "m ;;; k" := (bind m (fun _ => k))
  (at level 100, right associativity) : py_scope.
Local Open Scope py_scope.

(** [for x in xs: acc = body(acc, x)] *)
Fixpoint for_each {A B} (body : B -> A -> M B) (xs : list A) (acc : B) : M B :=
  match xs with
  | [] => ret acc
  | x :: rest => acc' <- body acc x ;; for_each body rest acc'
  end.

(** *** The [stats] dictionary *)

(** [self.stats[key]] *)
Definition stat_get (key : string) : M value :=
  fun s =>
    match stats s !! key with
    | Some v => (Ok v, s)
    | None => (Raise (KeyError key), s)
    end.

(** [self.stats[key] += 1] *)
Definition stat_incr (key : string) : M unit :=
  v <- stat_get key ;;
  match v with
  | VInt n => fun s => (Ok tt, set_stats (insert key (VInt (n + 1))) s)
  | _ => raise TypeError
  end.

(** [v > 0] *)
Definition value_gt0 (v : value) : result bool :=
  match v with
  | VInt n => Ok (0 <? n)
  | _ => Raise TypeError
  end.

Definition value_truthy (v : value) : bool :=
  match v with
  | VInt n => negb (n =? 0)
  | VNone => false
  | VList items => negb (Nat.eqb (List.length items) 0)
  end.

(** *** The file system *)

(** The directories above [p]: each prefix of [p] cut before a ['/']. *)
Fixpoint ancestors_from (pre p : string) : list string :=
  match p with
  | EmptyString => []
  | String c rest =>
      (if PyStr.chr_eqb c "/"%char && PyStr.truthy (Some pre) && negb (OsPath.ends_with_sep pre)
       then [pre] else [])
      ++ ancestors_from (pre +:+ String c EmptyString) rest
  end.

Definition mkdir_if_absent (p : string) (f : gmap string fnode) : gmap string fnode :=
  match f !! p with
  | Some _ => f
  | None => <[p := Dir]> f
  end.

(** [os.path.exists(p)] *)
Definition path_exists (p : string) : M bool :=
  fun s => (Ok (bool_decide (is_Some (fs s !! p))), log_call (CallExists p) s).

Definition is_file (f : gmap string fnode) (p : string) : bool :=
  match f !! p with
  | Some (File _) => true
  | _ => false
  end.

(** [os.makedirs(p, exist_ok=True)]: it fails when [p] or a directory
    above it is a file. *)
Definition makedirs (env : os_env) (p : string) : M unit :=
  fun s =>
    let s := log_call (CallMakedirs p) s in
    let chain := ancestors_from "" p ++ [p] in
    match makedirs_error env p with
    | Some msg => (Raise (OSError msg), s)
    | None =>
        if existsb (is_file (fs s)) chain
        then (Raise (OSError ("File exists: " +:+ p)), s)
        else (Ok tt, set_fs (fun f => foldr mkdir_if_absent f chain) s)
    end.

(** The file [shutil.copy2(src, dst)] writes: when [dst] is a directory
    the copy goes into it under the basename of [src]. *)
Definition copy_target (f : gmap string fnode) (src dst : string) : string :=
  match f !! dst with
  | Some Dir => OsPath.join dst (OsPath.basename src)
  | _ => dst
  end.

Definition is_dir (f : gmap string fnode) (p : string) : bool :=
  match f !! p with
  | Some Dir => true
  | _ => false
  end.

(** [shutil.copy2(src, dst)]: the source is opened, then the destination
    is opened for writing, the data is copied and [copystat] runs.  A
    copy that fails after the destination was opened leaves there the
    part already written. *)
Definition copy2 (env : os_env) (src dst : string) : M unit :=
  fun s =>
    let s := log_call (CallCopy2 src dst) s in
    let target := copy_target (fs s) src dst in
    match copy_error env src dst, fs s !! src with
    | Some msg, Some (File content) =>
        (Raise (OSError msg),
         match copy_written env src dst with
         | Some n =>
             if is_dir (fs s) target then s
             else set_fs (insert target (File (PyStr.take n content))) s
         | None => s
         end)
    | Some msg, _ => (Raise (OSError msg), s)
    | None, Some (File content) =>
        if is_dir (fs s) target
        then (Raise (OSError ("Is a directory: " +:+ target)), s)
        else (Ok tt, set_fs (insert target (File content)) s)
    | None, Some Dir => (Raise (OSError ("Is a directory: " +:+ src)), s)
    | None, None => (Raise (OSError ("No such file or directory: " +:+ src)), s)
    end.

(** [with open(p, 'w') as f: f.write(content)] *)
Definition write_file (env : os_env) (p content : string) : M unit :=
  fun s =>
    let s := log_call (CallOpenWrite p) s in
    match open_error env p, fs s !! p with
    | Some msg, _ => (Raise (OSError msg), s)
    | None, Some Dir => (Raise (OSError ("Is a directory: " +:+ p)), s)
    | None, _ => (Ok tt, set_fs (insert p (File content)) s)
    end.

(** [logging.FileHandler(p, mode='a')]: the file is opened for
    appending, which creates it when it is missing. *)
Definition open_append (env : os_env) (p : string) : M unit :=
  fun s =>
    let s := log_call (CallOpenAppend p) s in
    match open_error env p, fs s !! p with
    | Some msg, _ => (Raise (OSError msg), s)
    | None, Some Dir => (Raise (OSError ("Is a directory: " +:+ p)), s)
    | None, Some (File _) => (Ok tt, s)
    | None, None => (Ok tt, set_fs (insert p (File "")) s)
    end.

(** [try: m except handled: handler] *)
Definition try_except {A} (m : M A) (handler : exn -> option (M A)) : M A :=
  fun s =>
    match m s with
    | (Ok a, s') => (Ok a, s')
    | (Raise e, s') =>
        match handler e with
        | Some h => h s'
        | None => (Raise e, s')
        end
    end.

(** [a or b] on nullable text. *)
Definition py_or (a b : option string) : option string :=
  if PyStr.truthy a then a else b.

Definition opt_string_eqb (a b : option string) : bool :=
  bool_decide (a = b).

(** ** The exporter class *)

(** [iMessageExporter.__init__]: the dictionary [self.stats]. *)
Definition init_stats : gmap string value :=
  list_to_map
    [("conversations", VInt 0);
     ("messages", VInt 0);
     ("attachments_found", VInt 0);
     ("attachments_copied", VInt 0);
     ("attachments_skipped", VInt 0);
     ("attachments_failed", VInt 0);
     ("contacts_processed", VInt 0)].

Definition new_exporter : M unit :=
  fun s => (Ok tt, set_stats (fun _ => init_stats) s).

(** [connect_to_database] *)
Definition connect_to_database (cfg : config) (env : os_env) : M (option connection) :=
  present <- path_exists (CHAT_DB_PATH cfg) ;;
  if negb present then ret None
  else
    match sqlite_connect env (CHAT_DB_PATH cfg) with
    | Rows conn => ret (Some conn)
    | SqliteFail _ => ret None
    end.

(** A value of the [chats] dictionary. *)
Record chat_info := {
  display_name : option string;
  handles : gset string;
  chat_identifier : string
}.

Definition chats_has (chat_id : string) (chats : list (string * chat_info)) : bool :=
  existsb (fun entry => String.eqb (fst entry) chat_id) chats.

Definition chats_add_handle (chat_id handle : string)
    (chats : list (string * chat_info)) : list (string * chat_info) :=
  map (fun entry =>
         if String.eqb (fst entry) chat_id then
           (fst entry,
            {| display_name := display_name (snd entry);
               handles := {[ handle ]} ∪ handles (snd entry);
               chat_identifier := chat_identifier (snd entry) |})
         else entry) chats.

(** One turn of the grouping loop of [get_contacts_and_chats]; the
    dictionary keeps its keys in insertion order. *)
Definition group_row (chats : list (string * chat_info)) (row : chat_row)
    : list (string * chat_info) :=
  let chat_id := r_chat_identifier row in
  let chats :=
    if chats_has chat_id chats then chats
    else chats ++ [(chat_id,
                    {| display_name := py_or (r_display_name row) (r_room_name row);
                       handles := ∅;
                       chat_identifier := chat_id |})] in
  if PyStr.truthy (r_phone_or_email row)
  then chats_add_handle chat_id (default EmptyString (r_phone_or_email row)) chats
  else chats.

(** [get_contacts_and_chats]: the count query runs outside the [try]. *)
Definition get_contacts_and_chats (conn : connection) : M (list (string * chat_info)) :=
  match q_count_chats conn with
  | SqliteFail msg => raise (SqliteError msg)
  | Rows total_chats =>
      match q_chats conn with
      | Rows results => ret (fold_left group_row results [])
      | SqliteFail _ => ret []
      end
  end.

(** [get_messages_for_chat] *)
Definition get_messages_for_chat (conn : connection) (chat_identifier : string)
    : list message_row :=
  match q_messages conn chat_identifier with
  | Rows rows => rows
  | SqliteFail _ => []
  end.

(** [get_attachments_for_message] *)
Definition get_attachments_for_message (conn : connection) (message_id : Z)
    : list attachment_row :=
  match q_attachments conn message_id with
  | Rows rows => rows
  | SqliteFail _ => []
  end.

(** [list(chat_info.get('handles', []))]; the order in which Python
    walks a set is not specified, [elements] fixes one. *)
Definition handle_list (info : chat_info) : list string := elements (handles info).

(** [create_contact_folder] *)
Definition create_contact_folder (cfg : config) (env : os_env) (info : chat_info) : M string :=
  let handles := handle_list info in
  let chat_id := chat_identifier info in
  let folder_name :=
    match PyStr.truthy (display_name info), handles with
    | true, h :: _ => default EmptyString (display_name info) +:+ " (" +:+ h +:+ ")"
    | true, [] => default EmptyString (display_name info)
    | false, h :: _ => h
    | false, [] => default EmptyString (py_or (Some chat_id) (Some "Unknown Contact"))
    end in
  let folder_name := sanitize_filename (Some folder_name) in
  let attachments_dir := OsPath.join (OUTPUT_DIR cfg) "attachments" in
  let contact_folder := OsPath.join attachments_dir folder_name in
  (if negb (DRY_RUN cfg) then makedirs env contact_folder else ret tt) ;;;
  ret contact_folder.

(** The name given to the copy: the basename of the recorded path, else
    the transfer name, else ["unknown_attachment"]. *)
Definition dest_filename_of (attachment_info : attachment_row) (filename : string) : string :=
  let dest_filename := OsPath.basename filename in
  if PyStr.truthy (Some dest_filename) then dest_filename
  else default EmptyString
         (py_or (a_transfer_name attachment_info) (Some "unknown_attachment")).

(** [copy_attachment] *)
Definition copy_attachment (cfg : config) (env : os_env)
    (attachment_info : attachment_row) (destination_folder : string) : M (bool * string) :=
  if negb (PyStr.truthy (a_filename attachment_info)) then ret (false, "No filename provided")
  else
    let filename := default EmptyString (a_filename attachment_info) in
    let source_path := expanduser env filename in
    let dest_filename := dest_filename_of attachment_info filename in
    let dest_path := OsPath.join destination_folder dest_filename in
    already <- (if RESUME_MODE cfg then path_exists dest_path else ret false) ;;
    if already then
      stat_incr "attachments_skipped" ;;;
      ret (true, dest_filename)
    else
      found <- path_exists source_path ;;
      if negb found then ret (false, "Source file not found: " +:+ source_path)
      else
        try_except
          ((if negb (DRY_RUN cfg) then copy2 env source_path dest_path else ret tt) ;;;
           ret (true, dest_filename))
          (fun e =>
             match e with
             | OSError msg => Some (ret (false, "Copy failed: " +:+ msg))
             | _ => None
             end).

Definition transcript_line (timestamp sender body : string) : string :=
  "[" +:+ timestamp +:+ "] " +:+ sender +:+ ": " +:+ body.

(** The body of [for attachment in attachments] in [export_conversations]. *)
Definition process_attachment (cfg : config) (env : os_env) (contact_folder : string)
    (timestamp sender : string) (attachments : list attachment_row)
    (messages_content : list string) (attachment : attachment_row) : M (list string) :=
  stat_incr "attachments_found" ;;;
  r <- copy_attachment cfg env attachment contact_folder ;;
  let '(success, result) := r in
  if success then
    skipped <- stat_get "attachments_skipped" ;;
    any_skipped <- lift (value_gt0 skipped) ;;
    let names := map a_filename (if any_skipped then attachments else []) in
    (if negb (existsb (opt_string_eqb (Some result)) names)
     then stat_incr "attachments_copied" else ret tt) ;;;
    ret (messages_content
           ++ [transcript_line timestamp sender ("[Attachment: " +:+ result +:+ "]")])
  else
    stat_incr "attachments_failed" ;;;
    let attachment_name :=
      if PyStr.truthy (a_filename attachment)
      then OsPath.basename (default EmptyString (a_filename attachment))
      else "unknown" in
    ret (messages_content
           ++ [transcript_line timestamp sender
                 ("[Missing Attachment: " +:+ attachment_name +:+ "]")]).

(** The sender label of a message. *)
Definition sender_of (info : chat_info) (msg : message_row) : string :=
  if negb (m_is_from_me msg =? 0) then "You"
  else default "Unknown" (py_or (py_or (display_name info) (m_sender_handle msg))
                                (Some "Unknown")).

(** [msg_text and msg_text.strip()] *)
Definition has_text (msg : message_row) : bool :=
  PyStr.truthy (m_text msg)
  && PyStr.truthy (Some (PyStr.strip PyStr.whitespace (default EmptyString (m_text msg)))).

(** The body of the loop over the messages of a chat. *)
Definition process_message (cfg : config) (env : os_env) (conn : connection)
    (info : chat_info) (contact_folder : string)
    (messages_content : list string) (msg : message_row) : M (list string) :=
  stat_incr "messages" ;;;
  timestamp <- lift (format_timestamp (m_date msg)) ;;
  let sender := sender_of info msg in
  let attachments := get_attachments_for_message conn (m_message_id msg) in
  let messages_content :=
    if has_text msg
    then messages_content
           ++ [transcript_line timestamp sender (default EmptyString (m_text msg))]
    else messages_content in
  for_each (process_attachment cfg env contact_folder timestamp sender attachments)
    attachments messages_content.

Definition conversation_header (info : chat_info) (chat_id : string) : string :=
  let who :=
    match PyStr.truthy (display_name info), handle_list info with
    | true, h :: _ => default EmptyString (display_name info) +:+ " (" +:+ h +:+ ")"
    | true, [] => default EmptyString (display_name info)
    | false, h :: _ => h
    | false, [] => chat_id
    end in
  "=== Conversation with " +:+ who +:+ " ===".

(** The body of the loop over [chats.items()]. *)
Definition process_chat (cfg : config) (env : os_env) (conn : connection)
    (messages_content : list string) (entry : string * chat_info) : M (list string) :=
  let '(chat_id, info) := entry in
  let messages := get_messages_for_chat conn chat_id in
  match messages with
  | [] => ret messages_content
  | _ =>
      stat_incr "conversations" ;;;
      stat_incr "contacts_processed" ;;;
      contact_folder <- create_contact_folder cfg env info ;;
      let messages_content := messages_content ++ [conversation_header info chat_id] in
      messages_content <-
        for_each (process_message cfg env conn info contact_folder) messages messages_content ;;
      ret (messages_content ++ [EmptyString])
  end.

Definition nl : string := String "010"%char EmptyString.

Fixpoint str_repeat (s : string) (n : nat) : string :=
  match n with
  | O => EmptyString
  | S k => s +:+ str_repeat s k
  end.

Fixpoint report_lines (i : Z) (failed_files : list string) : string :=
  match failed_files with
  | [] => EmptyString
  | failed :: rest => pretty i +:+ ". " +:+ failed +:+ nl +:+ report_lines (i + 1) rest
  end.

(** [print(f"... {self.stats[key]}")] under [if self.stats[key] > 0]. *)
Definition print_if_positive (key : string) : M unit :=
  v <- stat_get key ;;
  positive <- lift (value_gt0 v) ;;
  if positive then (stat_get key ;;; ret tt) else ret tt.

(** [format_timestamp(self.stats[key])] *)
Definition format_stat (key : string) : M string :=
  v <- stat_get key ;;
  match v with
  | VInt n => lift (format_timestamp (Some n))
  | VNone => lift (format_timestamp None)
  | VList [] => lift (format_timestamp None)
  | VList _ => raise TypeError
  end.

(** [print_summary]; [len] of a value that is not a list raises after
    the title of the report has been written. *)
Definition print_summary (cfg : config) (env : os_env) : M unit :=
  earliest <- stat_get "earliest_message" ;;
  (if value_truthy earliest then
     latest <- stat_get "latest_message" ;;
     if value_truthy latest then
       format_stat "earliest_message" ;;; format_stat "latest_message" ;;; ret tt
     else ret tt
   else ret tt) ;;;
  stat_get "contacts_processed" ;;;
  stat_get "conversations" ;;;
  stat_get "messages" ;;;
  stat_get "attachments_found" ;;;
  stat_get "attachments_copied" ;;;
  print_if_positive "plugin_attachments_skipped" ;;;
  print_if_positive "attachments_found_alternative" ;;;
  print_if_positive "attachments_skipped" ;;;
  print_if_positive "attachments_failed" ;;;
  failed_files <- stat_get "failed_files" ;;
  (if value_truthy failed_files && negb (DRY_RUN cfg) then
     let failed_file := OsPath.join (OUTPUT_DIR cfg) "failed_attachments.txt" in
     let title := "FAILED ATTACHMENTS REPORT" +:+ nl +:+ str_repeat "=" 50 +:+ nl +:+ nl in
     match failed_files with
     | VList items =>
         write_file env failed_file
           (title +:+
            "Total failed: " +:+ pretty (Z.of_nat (List.length items)) +:+ nl +:+ nl +:+
            report_lines 1 items)
     | _ => write_file env failed_file title ;;; raise TypeError
     end
   else ret tt) ;;;
  ret tt.

(** [export_conversations] from the listing of the chats to the writing
    of [messages.txt]: [None] when no chat was found, else the lines of
    the transcript. *)
Definition export_chats (cfg : config) (env : os_env) (conn : connection)
    : M (option (list string)) :=
  chats <- get_contacts_and_chats conn ;;
  match chats with
  | [] => ret None
  | _ =>
      (if negb (DRY_RUN cfg) then
         makedirs env (OUTPUT_DIR cfg) ;;;
         makedirs env (OsPath.join (OUTPUT_DIR cfg) "attachments")
       else ret tt) ;;;
      messages_content <- for_each (process_chat cfg env conn) chats [] ;;
      let messages_file := OsPath.join (OUTPUT_DIR cfg) "messages.txt" in
      (if negb (DRY_RUN cfg)
       then write_file env messages_file (PyStr.join_lines messages_content)
       else ret tt) ;;;
      ret (Some messages_content)
  end.

(** The [try] block of [export_conversations]. *)
Definition export_try (cfg : config) (env : os_env) (conn : connection) : M bool :=
  r <- export_chats cfg env conn ;;
  match r with
  | None => ret false
  | Some _ => print_summary cfg env ;;; ret true
  end.

(** [export_conversations]; [except Exception] catches every exception. *)
Definition export_conversations (cfg : config) (env : os_env) : M bool :=
  conn <- connect_to_database cfg env ;;
  match conn with
  | None => ret false
  | Some conn => try_except (export_try cfg env conn) (fun _ => Some (ret false))
  end.

(** [setup_logging] *)
Definition setup_logging (cfg : config) (env : os_env) : M unit :=
  makedirs env (OUTPUT_DIR cfg) ;;;
  open_append env (OsPath.join (OUTPUT_DIR cfg) "export_debug.log").

(** [main] *)
Definition main (cfg : config) (env : os_env) : M Z :=
  setup_logging cfg env ;;;
  new_exporter ;;;
  success <- export_conversations cfg env ;;
  ret (if success then 0 else 1).

(** [sys.exit(main())]: the exit status of the process and the state it
    leaves; an exception that escapes [main] ends the process with 1. *)
Definition run_script (cfg : config) (env : os_env) (files : gmap string fnode) : Z * state :=
  match main cfg env {| stats := ∅; fs := files; calls := [] |} with
  | (Ok code, s) => (code, s)
  | (Raise _, s) => (1, s)
  end.

(** ** A concrete machine and archive

    Used to run the model: a home directory, a chat database with one
    conversation, and the attachments store. *)

Module Sample.

(** [os.path.expanduser] for the forms ["~"] and ["~/..."]. *)
Definition home_expanduser (home p : string) : string :=
  match p with
  | String "~" EmptyString => home
  | String "~" (String "/" rest) => home +:+ "/" +:+ rest
  | _ => p
  end.

Definition cfg (dry_run resume : bool) : config :=
  {| DRY_RUN := dry_run;
     RESUME_MODE := resume;
     CHAT_DB_PATH := "/Users/me/Library/Messages/chat.db";
     ATTACHMENTS_PATH := "/Users/me/Library/Messages/Attachments";
     OUTPUT_DIR := "/Volumes/Coding/Python/iMessageExtractor/iMessageExport";
     NORTH_AMERICA_ONLY := true;
     SKIP_SHORT_CODES := true;
     SEARCH_ALTERNATIVE_LOCATIONS := true |}.

Definition alice : string := "+15551234567".

Definition photo : attachment_row :=
  {| a_filename := Some "~/Library/Messages/Attachments/ab/12/IMG_0001.jpg";
     a_transfer_name := Some "IMG_0001.jpg";
     a_mime_type := Some "image/jpeg";
     a_total_bytes := Some 48213 |}.

Definition msg_hi : message_row :=
  {| m_date := Some 700000000000000000; m_text := Some "hi"; m_is_from_me := 1;
     m_sender_handle := None; m_message_id := 1 |}.

Definition msg_hey : message_row :=
  {| m_date := Some 700000060000000000; m_text := Some "hey"; m_is_from_me := 0;
     m_sender_handle := Some alice; m_message_id := 2 |}.

(** A connection whose only chat is Alice's, with the given attachments
    on the second message. *)
Definition conn (attachments : list attachment_row) : connection :=
  {| q_count_chats := Rows 1;
     q_chats := Rows [ {| r_chat_identifier := alice; r_display_name := Some "Alice";
                          r_room_name := None; r_phone_or_email := Some alice |} ];
     q_messages := fun chat_id =>
       if String.eqb chat_id alice then Rows [msg_hi; msg_hey] else Rows [];
     q_attachments := fun message_id =>
       if message_id =? 2 then Rows attachments else Rows [] |}.

Definition env (attachments : list attachment_row) : os_env :=
  {| expanduser := home_expanduser "/Users/me";
     sqlite_connect := fun _ => Rows (conn attachments);
     makedirs_error := fun _ => None;
     copy_error := fun _ _ => None;
     copy_written := fun _ _ => None;
     open_error := fun _ => None |}.

(** The same machine with a disk that fills up: every copy fails after
    two characters. *)
Definition env_disk_full (attachments : list attachment_row) : os_env :=
  {| expanduser := home_expanduser "/Users/me";
     sqlite_connect := fun _ => Rows (conn attachments);
     makedirs_error := fun _ => None;
     copy_error := fun _ _ => Some "No space left on device";
     copy_written := fun _ _ => Some 2%nat;
     open_error := fun _ => None |}.

(** The disk before the first run: the database and the photo. *)
Definition disk : gmap string fnode :=
  list_to_map
    [("/Users/me/Library/Messages/chat.db", File "SQLite format 3");
     ("/Users/me/Library/Messages/Attachments/ab/12/IMG_0001.jpg", File "JFIF")].

(** An app payload whose file was never stored on disk. *)
Definition sticker : attachment_row :=
  {| a_filename := Some "~/Library/Messages/Attachments/cd/34/sticker.pluginPayloadAttachment";
     a_transfer_name := Some "sticker.pluginPayloadAttachment";
     a_mime_type := None;
     a_total_bytes := Some 0 |}.

(** A record with a transfer name and no recorded path. *)
Definition voice_memo : attachment_row :=
  {| a_filename := None;
     a_transfer_name := Some "voice.m4a";
     a_mime_type := Some "audio/x-m4a";
     a_total_bytes := Some 9120 |}.

(** A record whose path is stale; the file now lies at the top of the
    attachments store, see [disk_moved]. *)
Definition moved : attachment_row :=
  {| a_filename := Some "/old/place/IMG_0002.jpg";
     a_transfer_name := Some "IMG_0002.jpg";
     a_mime_type := Some "image/jpeg";
     a_total_bytes := Some 51200 |}.

Definition disk_moved : gmap string fnode :=
  <["/Users/me/Library/Messages/Attachments/IMG_0002.jpg" := File "JFIF"]> disk.



Definition fresh (files : gmap string fnode) : state :=
  {| stats := init_stats; fs := files; calls := [] |}.

Definition folder : string :=
  "/Volumes/Coding/Python/iMessageExtractor/iMessageExport/attachments/Alice (+15551234567)".

(** The transcript of the archive with [photo] on the second message. *)
Definition transcript : list string :=
  ["=== Conversation with Alice (+15551234567) ===";
   "[2023-03-08 20:26:40] You: hi";
   "[2023-03-08 20:27:40] Alice: hey";
   "[2023-03-08 20:27:40] Alice: [Attachment: IMG_0001.jpg]";
   ""].

End Sample.

(** * The vocabulary of the statements *)

(** [preserves R m]: every run of [m], whether it returns or raises,
    ends in a state related by [R] to the one it started from. *)
Definition preserves {A} (R : state -> state -> Prop) (m : M A) : Prop :=
  forall s, R s (snd (m s)).

(** The dictionary [stats] is the same object with the same entries. *)
Definition same_stats (s s' : state) : Prop := stats s' = stats s.

(** No key was added to, or removed from, [stats]. *)
Definition same_keys (s s' : state) : Prop := dom (stats s') = dom (stats s).

(** The file system is as it was. *)
Definition same_files (s s' : state) : Prop := fs s' = fs s.

(** The calls made since [s] all satisfy [P]. *)
Definition calls_only (P : fs_call -> Prop) (s s' : state) : Prop :=
  exists made, calls s' = calls s ++ made /\ Forall P made.

(** The call is an [os.path.exists]. *)
Definition is_exists_call (c : fs_call) : Prop :=
  match c with
  | CallExists _ => True
  | _ => False
  end.

(** The debug log that [setup_logging] opens. *)
Definition debug_log (cfg : config) : string :=
  OsPath.join (OUTPUT_DIR cfg) "export_debug.log".

(** Every path but the debug log holds what it held.  The debug log is
    left out: each [logger] call of the run appends a record to it. *)
Definition same_files_but_log (cfg : config) (s s' : state) : Prop :=
  forall p, p <> debug_log cfg -> fs s' !! p = fs s !! p.

(** The keys of [stats] that [print_summary] reads and [__init__] omits. *)
Definition summary_only_keys : list string :=
  ["earliest_message"; "latest_message"; "plugin_attachments_skipped";
   "attachments_found_alternative"; "failed_files"].

(** The two artifacts of the output root. *)
Definition messages_file (cfg : config) : string :=
  OsPath.join (OUTPUT_DIR cfg) "messages.txt".

Definition report_file (cfg : config) : string :=
  OsPath.join (OUTPUT_DIR cfg) "failed_attachments.txt".

(** The call does not open the failure report for writing. *)
Definition leaves_report (cfg : config) (c : fs_call) : Prop :=
  c <> CallOpenWrite (report_file cfg).

(** The keys of the dictionary built by [__init__]. *)
Definition counter_keys : list string :=
  ["conversations"; "messages"; "attachments_found"; "attachments_copied";
   "attachments_skipped"; "attachments_failed"; "contacts_processed"].

(** Every counter of [__init__] is present and holds an int. *)
Definition stats_ok (s : state) : Prop :=
  forall key, In key counter_keys -> exists n, stats s !! key = Some (VInt n).

(** The int held by a counter. *)
Definition counter (key : string) (s : state) : Z :=
  match stats s !! key with
  | Some (VInt n) => n
  | _ => 0
  end.

(** [keeps key]: the counters stay well formed and [key] keeps its value. *)
Definition keeps (key : string) (s s' : state) : Prop :=
  stats_ok s -> stats_ok s' /\ counter key s' = counter key s.

(** [counts key n m]: a run of [m] that returns has added [n] to [key]. *)
Definition counts {A} (key : string) (n : Z) (m : M A) : Prop :=
  forall s, stats_ok s ->
    stats_ok (snd (m s)) /\
    forall a, fst (m s) = Ok a -> counter key (snd (m s)) = counter key s + n.

(** The counters that the loops bump once per conversation, message
    and attachment, whatever the outcome of the copies. *)
Definition static_keys : list string :=
  ["conversations"; "contacts_processed"; "messages"; "attachments_found"].

(** What one increment of [counted] adds to [key]. *)
Definition weight (key counted : string) : Z :=
  if String.eqb key counted then 1 else 0.

(** What a message, and a conversation, add to a static counter. *)
Definition per_message (conn : connection) (key : string) (msg : message_row) : Z :=
  weight key "messages"
  + foldr (fun _ total => weight key "attachments_found" + total) 0
      (get_attachments_for_message conn (m_message_id msg)).

Definition per_chat (conn : connection) (key : string) (entry : string * chat_info) : Z :=
  match get_messages_for_chat conn (fst entry) with
  | [] => 0
  | messages =>
      weight key "conversations" + weight key "contacts_processed"
      + foldr (fun msg total => per_message conn key msg + total) 0 messages
  end.

(** The dictionary [chats] built by [get_contacts_and_chats]. *)
Definition chats_of (conn : connection) : list (string * chat_info) :=
  match q_chats conn with
  | Rows results => fold_left group_row results []
  | SqliteFail _ => []
  end.

(** The value of a static counter after the export of the archive. *)
Definition expected (conn : connection) (key : string) : Z :=
  foldr (fun entry total => per_chat conn key entry + total) 0 (chats_of conn).

(** The settings with [CONFIG.SEARCH_ALTERNATIVE_LOCATIONS] set to [search]. *)
Definition set_search (search : bool) (cfg : config) : config :=
  {| DRY_RUN := DRY_RUN cfg;
     RESUME_MODE := RESUME_MODE cfg;
     CHAT_DB_PATH := CHAT_DB_PATH cfg;
     ATTACHMENTS_PATH := ATTACHMENTS_PATH cfg;
     OUTPUT_DIR := OUTPUT_DIR cfg;
     NORTH_AMERICA_ONLY := NORTH_AMERICA_ONLY cfg;
     SKIP_SHORT_CODES := SKIP_SHORT_CODES cfg;
     SEARCH_ALTERNATIVE_LOCATIONS := search |}.

(** The text [format_timestamp] returns; it never raises. *)
Definition timestamp_text (date : option Z) : string :=
  match format_timestamp date with
  | Ok text => text
  | Raise _ => "Unknown Time"
  end.

(** The line of the body of a message, when it has one. *)
Definition text_lines (info : chat_info) (msg : message_row) : list string :=
  if has_text msg
  then [transcript_line (timestamp_text (m_date msg)) (sender_of info msg)
          (default EmptyString (m_text msg))]
  else [].

(** The lines of one message: its text line, if any, then one line per
    attachment, each under the time stamp and sender of the message. *)
Definition message_chunk (conn : connection) (info : chat_info)
    (msg : message_row) (chunk : list string) : Prop :=
  exists bodies,
    chunk = text_lines info msg
              ++ map (transcript_line (timestamp_text (m_date msg)) (sender_of info msg)) bodies
    /\ length bodies = length (get_attachments_for_message conn (m_message_id msg)).

(** The order of [ORDER BY m.date ASC]: [NULL] sorts first. *)
Definition date_le (a b : option Z) : Prop :=
  match a, b with
  | None, _ => True
  | Some _, None => False
  | Some x, Some y => x <= y
  end.

(** The date of the message behind each line of the transcript. *)
Definition line_dates (messages : list message_row) (chunks : list (list string))
    : list (option Z) :=
  flat_map (fun p => repeat (m_date (fst p)) (length (snd p))) (zip messages chunks).

(** [chain step acc xs acc']: folding [step] over [xs] leads from [acc] to [acc']. *)
Inductive chain {A B} (step : B -> A -> B -> Prop) : B -> list A -> B -> Prop :=
| chain_nil acc : chain step acc [] acc
| chain_cons acc x acc' xs acc'' :
    step acc x acc' -> chain step acc' xs acc'' -> chain step acc (x :: xs) acc''.

(** [returns P m]: with well-formed counters [m] returns a value in [P]
    and keeps the counters well formed. *)
Definition returns {A} (P : A -> Prop) (m : M A) : Prop :=
  forall s, stats_ok s -> exists a, fst (m s) = Ok a /\ P a /\ stats_ok (snd (m s)).

(** ** The vocabulary of the further properties *)

(** The first and the last character of a string. *)
Definition first_chr (s : string) : option ascii :=
  match s with
  | EmptyString => None
  | String c _ => Some c
  end.

Fixpoint last_chr (s : string) : option ascii :=
  match s with
  | EmptyString => None
  | String c EmptyString => Some c
  | String _ rest => last_chr rest
  end.

(** A character that [name.strip(' .')] leaves in place. *)
Definition kept_at_edge (o : option ascii) : bool :=
  match o with
  | Some c => negb (PyStr.chr_in c [" "; "."]%char)
  | None => false
  end.

(** A name [sanitize_filename] has nothing to do on. *)
Definition safe_name (name : string) : bool :=
  forallb (fun c => negb (PyStr.contains c name)) problematic_chars
  && kept_at_edge (first_chr name) && kept_at_edge (last_chr name)
  && (Z.of_nat (String.length name) <=? 100).

(** The characters [is_short_code_number] takes out of an identifier. *)
Definition formatting_chars : list ascii := ["+"; "-"; " "; "("; ")"]%char.

Fixpoint count_digits (s : string) : nat :=
  match s with
  | EmptyString => O
  | String c rest => ((if is_digit c then 1 else 0) + count_digits rest)%nat
  end.

(** Text within ASCII, the inputs considered: every code is below 128. *)
Fixpoint ascii_text (s : string) : bool :=
  match s with
  | EmptyString => true
  | String c rest => Nat.ltb (nat_of_ascii c) 128 && ascii_text rest
  end.

(** Every character is a digit or one of [chars]. *)
Fixpoint digits_or (chars : list ascii) (s : string) : bool :=
  match s with
  | EmptyString => true
  | String c rest => (is_digit c || PyStr.chr_in c chars) && digits_or chars rest
  end.

(** What an entry of [chats] holds after the rows [rows] were grouped:
    its own key, the non-empty handles of the rows of that chat, and the
    name of the first of these rows. *)
Definition grouped_from (rows : list chat_row) (entry : string * chat_info) : Prop :=
  let '(chat_id, info) := entry in
  chat_identifier info = chat_id
  /\ (forall handle,
        handle ∈ handles info <->
        handle <> EmptyString
        /\ exists row, In row rows /\ r_chat_identifier row = chat_id
                       /\ r_phone_or_email row = Some handle)
  /\ exists before row after,
       rows = before ++ row :: after
       /\ Forall (fun r => r_chat_identifier r <> chat_id) before
       /\ r_chat_identifier row = chat_id
       /\ display_name info = py_or (r_display_name row) (r_room_name row).

(** The conversation has at least one message to export. *)
Definition has_messages (conn : connection) (entry : string * chat_info) : bool :=
  match get_messages_for_chat conn (fst entry) with
  | [] => false
  | _ => true
  end.

(** The messages and the attachments an export of the archive walks
    through, in its order. *)
Definition all_messages (conn : connection) : list message_row :=
  flat_map (fun entry => get_messages_for_chat conn (fst entry)) (chats_of conn).

Definition all_attachments (conn : connection) : list attachment_row :=
  flat_map (fun msg => get_attachments_for_message conn (m_message_id msg))
    (all_messages conn).

(** How far a counter has moved between two states. *)
Definition advance (key : string) (s s' : state) : Z := counter key s' - counter key s.

(** The outcome counters follow [attachments_found]: none moves back,
    and the failures with the copies, and the failures with the skips,
    stay within the attachments found. *)
Definition tally (s s' : state) : Prop :=
  stats_ok s ->
  stats_ok s'
  /\ 0 <= advance "attachments_copied" s s'
  /\ 0 <= advance "attachments_skipped" s s'
  /\ 0 <= advance "attachments_failed" s s'
  /\ advance "attachments_copied" s s' + advance "attachments_failed" s s'
     <= advance "attachments_found" s s'
  /\ advance "attachments_skipped" s s' + advance "attachments_failed" s s'
     <= advance "attachments_found" s s'.

(** Without a skip so far, none is counted, and every attachment found
    is counted as copied or as failed. *)
Definition tally_exact (s s' : state) : Prop :=
  stats_ok s -> counter "attachments_skipped" s = 0 ->
  stats_ok s'
  /\ counter "attachments_skipped" s' = 0
  /\ advance "attachments_copied" s s' + advance "attachments_failed" s s'
     = advance "attachments_found" s s'.

(** Every node of [before] is still there in [after]. *)
Definition nodes_kept (before after : gmap string fnode) : Prop :=
  forall p node, before !! p = Some node -> after !! p = Some node.

(** The block of a conversation in the transcript: its header, the
    chunks of its messages in the reader's order, and an empty line. *)
Definition conversation_block (conn : connection) (entry : string * chat_info)
    (block : list string) : Prop :=
  exists chunks,
    block = conversation_header (snd entry) (fst entry) :: concat chunks ++ [EmptyString]
    /\ Forall2 (message_chunk conn (snd entry)) (get_messages_for_chat conn (fst entry)) chunks.

(** The call does not open a file for writing. *)
Definition not_open_write (c : fs_call) : Prop :=
  match c with
  | CallOpenWrite _ => False
  | _ => True
  end.

(** The state is the very same. *)
Definition unchanged (s s' : state) : Prop := s' = s.

(** Nothing has changed but, at most, the failure report, opened once
    for writing. *)
Definition report_only (cfg : config) (s s' : state) : Prop :=
  stats s' = stats s
  /\ (calls s' = calls s \/ calls s' = calls s ++ [CallOpenWrite (report_file cfg)])
  /\ (forall p, p <> report_file cfg -> fs s' !! p = fs s !! p).

(** * Properties *)

(** ** Facts about the string helpers *)

Section StringFacts.

Lemma chr_eqb_eq a b : PyStr.chr_eqb a b = true <-> a = b.
Proof. unfold PyStr.chr_eqb. apply Ascii.eqb_eq. Qed.

Lemma chr_eqb_refl a : PyStr.chr_eqb a a = true.
Proof. apply chr_eqb_eq. reflexivity. Qed.

Lemma chr_eqb_neq a b : a <> b -> PyStr.chr_eqb a b = false.
Proof.
  intros Hne. destruct (PyStr.chr_eqb a b) eqn:E; [|reflexivity].
  apply chr_eqb_eq in E. contradiction.
Qed.

Lemma contains_replace_old old new s :
  old <> new -> PyStr.contains old (PyStr.replace old new s) = false.
Proof.
  intros Hne. induction s as [|c s IH]; simpl; [reflexivity|].
  rewrite IH, orb_false_r.
  destruct (PyStr.chr_eqb c old) eqn:E.
  - apply chr_eqb_neq. exact Hne.
  - apply chr_eqb_neq. intros ->. rewrite chr_eqb_refl in E. discriminate.
Qed.

Lemma contains_replace_absent c old new s :
  c <> new -> PyStr.contains c s = false ->
  PyStr.contains c (PyStr.replace old new s) = false.
Proof.
  intros Hne. induction s as [|d s IH]; simpl; [reflexivity|].
  intros H. apply orb_false_iff in H as [Hd Hs].
  rewrite (IH Hs), orb_false_r.
  destruct (PyStr.chr_eqb d old); [apply chr_eqb_neq; exact Hne | exact Hd].
Qed.

Lemma contains_replace_all_absent chars c new s :
  c <> new -> PyStr.contains c s = false ->
  PyStr.contains c (fold_left (fun n char => PyStr.replace char new n) chars s) = false.
Proof.
  intros Hne. revert s. induction chars as [|d chars IH]; simpl; intros s H; [exact H|].
  apply IH. apply contains_replace_absent; assumption.
Qed.

Lemma contains_replace_all chars c new s :
  c <> new -> In c chars ->
  PyStr.contains c (fold_left (fun n char => PyStr.replace char new n) chars s) = false.
Proof.
  intros Hne. revert s. induction chars as [|d chars IH]; simpl; intros s Hin; [contradiction|].
  destruct Hin as [-> | Hin].
  - apply contains_replace_all_absent; [exact Hne|].
    apply contains_replace_old. exact Hne.
  - apply IH. exact Hin.
Qed.

Lemma contains_lstrip c chars s :
  PyStr.contains c s = false -> PyStr.contains c (PyStr.lstrip chars s) = false.
Proof.
  induction s as [|d s IH]; simpl; [trivial|].
  intros H. destruct (PyStr.chr_in d chars); [|exact H].
  apply IH. apply orb_false_iff in H. tauto.
Qed.

Lemma contains_rstrip c chars s :
  PyStr.contains c s = false -> PyStr.contains c (PyStr.rstrip chars s) = false.
Proof.
  induction s as [|d s IH]; simpl; [trivial|].
  intros H. apply orb_false_iff in H as [Hd Hs]. specialize (IH Hs).
  destruct (PyStr.rstrip chars s) as [|e r].
  - destruct (PyStr.chr_in d chars); simpl; [reflexivity|].
    rewrite Hd. reflexivity.
  - change (PyStr.chr_eqb c d || PyStr.contains c (String e r) = false).
    rewrite Hd, IH. reflexivity.
Qed.

Lemma contains_take c n s :
  PyStr.contains c s = false -> PyStr.contains c (PyStr.take n s) = false.
Proof.
  revert s. induction n as [|n IH]; intros [|d s]; simpl; trivial.
  intros H. apply orb_false_iff in H as [Hd Hs].
  rewrite Hd, (IH s Hs). reflexivity.
Qed.

Lemma length_take n s : (String.length (PyStr.take n s) <= n)%nat.
Proof.
  revert s. induction n as [|n IH]; intros [|d s]; simpl; try lia.
  specialize (IH s). lia.
Qed.

Lemma contains_cleaned c name :
  In c problematic_chars -> PyStr.contains c (cleaned name) = false.
Proof.
  intros Hin. unfold cleaned.
  assert (Hc : c <> "_"%char).
  { intros ->. simpl in Hin. repeat (destruct Hin as [Hin|Hin]; [discriminate|]). exact Hin. }
  pose proof (contains_replace_all problematic_chars c "_"%char name Hc Hin) as H.
  apply (contains_lstrip c [" "; "."]%char) in H.
  apply (contains_rstrip c [" "; "."]%char) in H.
  fold (PyStr.strip [" "; "."]%char
          (fold_left (fun n char => PyStr.replace char "_"%char n) problematic_chars name)) in H.
  destruct (100 <? _); [apply contains_take|]; exact H.
Qed.

Lemma length_cleaned name : (String.length (cleaned name) <= 100)%nat.
Proof.
  unfold cleaned.
  destruct (100 <? _) eqn:E.
  - apply length_take.
  - apply Z.ltb_ge in E. lia.
Qed.

End StringFacts.

(** ** The identifier sanitizer *)

(** C9. For every input (a string or [None]), [sanitize_filename]
    returns a string that holds none of the nine characters of
    [problematic_chars] (colon, slash, backslash, angle brackets, double
    quote, bar, question mark, star), has at most 100 characters and is
    not empty;
    it is the literal ["Unknown"] exactly in place of an empty cleaned
    name, and the cleaned name otherwise. *)
Theorem sanitize_filename_safe (name : option string) :
  Forall (fun c => PyStr.contains c (sanitize_filename name) = false) problematic_chars
  /\ (String.length (sanitize_filename name) <= 100)%nat
  /\ sanitize_filename name <> EmptyString
  /\ sanitize_filename name =
       match cleaned (default EmptyString name) with
       | EmptyString => "Unknown"
       | text => text
       end.
Proof.
  assert (Hunk : Forall (fun c => PyStr.contains c "Unknown" = false) problematic_chars).
  { repeat constructor. }
  unfold sanitize_filename.
  destruct name as [[|c0 name]|]; simpl negb; cbv iota.
  - repeat split; [exact Hunk | simpl; lia | discriminate].
  - set (text := cleaned (String c0 name)).
    change (default EmptyString (Some (String c0 name))) with (String c0 name).
    fold text.
    pose proof (length_cleaned (String c0 name)) as Hlen. fold text in Hlen.
    assert (Hsafe : Forall (fun c => PyStr.contains c text = false) problematic_chars).
    { apply Forall_forall. intros c Hc. apply contains_cleaned.
      apply list_elem_of_In. exact Hc. }
    destruct text as [|d text']; simpl PyStr.truthy; cbv iota.
    + repeat split; [exact Hunk | simpl; lia | discriminate].
    + repeat split; [exact Hsafe | exact Hlen | discriminate].
  - repeat split; [exact Hunk | simpl; lia | discriminate].
Qed.

(** ** The timestamp codec *)

Lemma timedelta_seconds_raises x e :
  DateTime.timedelta_seconds x = Raise e -> e = OverflowError.
Proof.
  unfold DateTime.timedelta_seconds.
  destruct (PyFloat.modf x) as [whole frac].
  destruct (_ || _); intros H; [|discriminate].
  injection H as <-. reflexivity.
Qed.

Lemma datetime_add_raises dt delta e :
  DateTime.add dt delta = Raise e -> e = OverflowError.
Proof.
  unfold DateTime.add.
  destruct (_ || _); intros H; [|discriminate].
  injection H as <-. reflexivity.
Qed.

Lemma mac_datetime_raises timestamp e :
  mac_datetime timestamp = Raise e -> e = OverflowError.
Proof.
  unfold mac_datetime, PyFloat.true_divide.
  destruct (PyFloat.round_binary64 timestamp 1000000000) as [seconds|]; cbn [result_bind].
  - destruct (DateTime.timedelta_seconds seconds) as [delta|e'] eqn:Hdelta; cbn [result_bind].
    + apply datetime_add_raises.
    + intros H. injection H as <-. eapply timedelta_seconds_raises. exact Hdelta.
  - intros H. injection H as <-. reflexivity.
Qed.

Lemma format_timestamp_nonzero timestamp :
  timestamp <> 0 ->
  format_timestamp (Some timestamp) =
    match mac_datetime timestamp with
    | Ok dt => Ok (DateTime.strftime dt)
    | Raise _ => Ok "Unknown Time"
    end.
Proof.
  intros Hnz. unfold format_timestamp.
  destruct (mac_datetime timestamp) as [dt|e] eqn:Hdt; cbn [result_bind].
  - destruct timestamp; [contradiction|reflexivity|reflexivity].
  - apply mac_datetime_raises in Hdt. subst e.
    destruct timestamp; reflexivity.
Qed.

(** C10. [format_timestamp] returns ["Unknown Time"] for [None] and for
    zero, and also whenever the calendar value computed from the raw
    integer cannot be represented (the division, the [timedelta] or the
    addition raises); for every input, an integer or [None], it returns
    a string and raises nothing. *)
Theorem format_timestamp_never_raises :
  format_timestamp None = Ok "Unknown Time"
  /\ format_timestamp (Some 0) = Ok "Unknown Time"
  /\ (forall timestamp e,
        mac_datetime timestamp = Raise e ->
        format_timestamp (Some timestamp) = Ok "Unknown Time")
  /\ (forall timestamp, exists text, format_timestamp timestamp = Ok text).
Proof.
  split; [reflexivity|]. split; [reflexivity|]. split.
  - intros timestamp e Hraise.
    destruct (Z.eq_dec timestamp 0) as [->|Hnz]; [reflexivity|].
    rewrite format_timestamp_nonzero by exact Hnz. rewrite Hraise. reflexivity.
  - intros [timestamp|]; [|eexists; reflexivity].
    destruct (Z.eq_dec timestamp 0) as [->|Hnz]; [eexists; reflexivity|].
    rewrite format_timestamp_nonzero by exact Hnz.
    destruct (mac_datetime timestamp); eexists; reflexivity.
Qed.

Lemma format_timestamp_never_raises_witness :
  mac_datetime (10 ^ 30) = Raise OverflowError
  /\ format_timestamp (Some (10 ^ 30)) = Ok "Unknown Time".
Proof.
  assert (H : mac_datetime (10 ^ 30) = Raise OverflowError) by (vm_compute; reflexivity).
  split; [exact H|].
  exact (proj1 (proj2 (proj2 format_timestamp_never_raises)) (10 ^ 30) OverflowError H).
Defined.

(** The three overflows of the runtime, and two dates in range. *)
Example format_timestamp_overflows :
  map mac_datetime [10 ^ 400; 10 ^ 30; 252423993599999999999; -63113904000000600000]
  = [Raise OverflowError; Raise OverflowError; Raise OverflowError; Raise OverflowError].
Proof. vm_compute. reflexivity. Qed.

Example format_timestamp_in_range :
  map (fun t => format_timestamp (Some t))
    [700000000000000000; -1500; 252423993599000000000]
  = [Ok "2023-03-08 20:26:40"; Ok "2000-12-31 23:59:59"; Ok "9999-12-31 23:59:59"].
Proof. vm_compute. reflexivity. Qed.

(** ** Frames: what a computation leaves alone *)

Section Frames.

Context (R : state -> state -> Prop) `{!PreOrder R}.

Lemma preserves_ret {A} (a : A) : preserves R (ret a).
Proof. intros s. simpl. reflexivity. Qed.

Lemma preserves_raise {A} e : preserves R (@raise A e).
Proof. intros s. simpl. reflexivity. Qed.

Lemma preserves_lift {A} (r : result A) : preserves R (lift r).
Proof. intros s. simpl. reflexivity. Qed.

Lemma preserves_bind {A B} (m : M A) (k : A -> M B) :
  preserves R m -> (forall a, preserves R (k a)) -> preserves R (bind m k).
Proof.
  intros Hm Hk s. unfold bind. specialize (Hm s).
  destruct (m s) as [[a|e] s']; simpl in *; [|exact Hm].
  etransitivity; [exact Hm | apply Hk].
Qed.

Lemma preserves_try_except {A} (m : M A) handler :
  preserves R m ->
  (forall e h, handler e = Some h -> preserves R h) ->
  preserves R (try_except m handler).
Proof.
  intros Hm Hh s. unfold try_except. specialize (Hm s).
  destruct (m s) as [[a|e] s']; simpl in *; [exact Hm|].
  destruct (handler e) as [h|] eqn:E; simpl; [|exact Hm].
  etransitivity; [exact Hm | eapply Hh; exact E].
Qed.

Lemma preserves_for_each {A B} (body : B -> A -> M B) xs :
  (forall acc x, preserves R (body acc x)) ->
  forall acc, preserves R (for_each body xs acc).
Proof.
  intros Hbody. induction xs as [|x xs IH]; intros acc; simpl.
  - apply preserves_ret.
  - apply preserves_bind; [apply Hbody | exact IH].
Qed.

Lemma preserves_stat_get key : preserves R (stat_get key).
Proof. intros s. unfold stat_get. destruct (stats s !! key); simpl; reflexivity. Qed.

End Frames.

Lemma preserves_weaken {A} (R1 R2 : state -> state -> Prop) (m : M A) :
  (forall s s', R1 s s' -> R2 s s') -> preserves R1 m -> preserves R2 m.
Proof. intros Hsub Hm s. apply Hsub, Hm. Qed.

(** The relations used below. *)

Global Instance same_stats_preorder : PreOrder same_stats.
Proof. split; [intros s; reflexivity | intros a b c H1 H2; unfold same_stats in *; congruence]. Qed.

Global Instance same_keys_preorder : PreOrder same_keys.
Proof. split; [intros s; reflexivity | intros a b c H1 H2; unfold same_keys in *; congruence]. Qed.

Global Instance same_files_preorder : PreOrder same_files.
Proof. split; [intros s; reflexivity | intros a b c H1 H2; unfold same_files in *; congruence]. Qed.

Global Instance calls_only_preorder P : PreOrder (calls_only P).
Proof.
  split.
  - intros s. exists []. split; [symmetry; apply app_nil_r | constructor].
  - intros a b c (l1 & E1 & F1) (l2 & E2 & F2). exists (l1 ++ l2). split.
    + rewrite E2, E1. symmetry. apply app_assoc.
    + apply Forall_app. split; assumption.
Qed.

Lemma same_stats_keys s s' : same_stats s s' -> same_keys s s'.
Proof. unfold same_stats, same_keys. intros ->. reflexivity. Qed.

(** *** The primitives *)

Lemma stat_incr_same_keys key : preserves same_keys (stat_incr key).
Proof.
  intros s. unfold stat_incr, bind, stat_get, same_keys.
  destruct (stats s !! key) as [v|] eqn:E; simpl; [|reflexivity].
  destruct v; simpl; try reflexivity.
  apply dom_insert_lookup_L. rewrite E. eexists. reflexivity.
Qed.

Lemma stat_incr_same_files key : preserves same_files (stat_incr key).
Proof.
  intros s. unfold stat_incr, bind, stat_get, same_files.
  destruct (stats s !! key) as [v|]; simpl; [|reflexivity].
  destruct v; reflexivity.
Qed.

Lemma calls_only_silent P s s' : calls s' = calls s -> calls_only P s s'.
Proof. intros E. exists []. split; [rewrite E; symmetry; apply app_nil_r | constructor]. Qed.

Lemma stat_incr_calls P key : preserves (calls_only P) (stat_incr key).
Proof.
  intros s. apply calls_only_silent. unfold stat_incr, bind, stat_get.
  destruct (stats s !! key) as [v|]; simpl; [|reflexivity].
  destruct v; simpl; reflexivity.
Qed.

Lemma path_exists_same_stats p : preserves same_stats (path_exists p).
Proof. intros s. reflexivity. Qed.

Lemma path_exists_same_files p : preserves same_files (path_exists p).
Proof. intros s. reflexivity. Qed.

Lemma path_exists_calls (P : fs_call -> Prop) p :
  P (CallExists p) -> preserves (calls_only P) (path_exists p).
Proof. intros HP s. exists [CallExists p]. split; [reflexivity | repeat constructor; exact HP]. Qed.

Lemma makedirs_same_stats env p : preserves same_stats (makedirs env p).
Proof.
  intros s. unfold makedirs. cbv zeta.
  destruct (makedirs_error env p); [reflexivity|].
  destruct (existsb _ _); reflexivity.
Qed.

Lemma makedirs_calls (P : fs_call -> Prop) env p :
  P (CallMakedirs p) -> preserves (calls_only P) (makedirs env p).
Proof.
  intros HP s. exists [CallMakedirs p]. split; [|repeat constructor; exact HP].
  unfold makedirs. cbv zeta.
  destruct (makedirs_error env p); [reflexivity|].
  destruct (existsb _ _); reflexivity.
Qed.

(** The cases of [copy2]. *)
Ltac copy2_cases :=
  unfold copy2; cbv zeta;
  repeat match goal with
         | |- context [match copy_error ?e ?a ?b with _ => _ end] =>
             destruct (copy_error e a b)
         | |- context [match fs ?s !! ?p with _ => _ end] =>
             destruct (fs s !! p) as [[|?]|]
         | |- context [match copy_written ?e ?a ?b with _ => _ end] =>
             destruct (copy_written e a b)
         | |- context [if is_dir ?f ?p then _ else _] => destruct (is_dir f p)
         end.

Lemma copy2_same_stats env src dst : preserves same_stats (copy2 env src dst).
Proof. intros s. copy2_cases; reflexivity. Qed.

Lemma copy2_calls (P : fs_call -> Prop) env src dst :
  P (CallCopy2 src dst) -> preserves (calls_only P) (copy2 env src dst).
Proof.
  intros HP s. exists [CallCopy2 src dst]. split; [|repeat constructor; exact HP].
  copy2_cases; reflexivity.
Qed.

Lemma write_file_same_stats env p content : preserves same_stats (write_file env p content).
Proof.
  intros s. unfold write_file.
  destruct (open_error env p); [reflexivity|].
  destruct (fs (log_call _ s) !! p) as [[|c]|]; reflexivity.
Qed.

Lemma write_file_calls (P : fs_call -> Prop) env p content :
  P (CallOpenWrite p) -> preserves (calls_only P) (write_file env p content).
Proof.
  intros HP s. exists [CallOpenWrite p]. split; [|repeat constructor; exact HP].
  unfold write_file.
  destruct (open_error env p); [reflexivity|].
  destruct (fs (log_call _ s) !! p) as [[|c]|]; reflexivity.
Qed.

(** *** The loops of [export_conversations]

    A relation kept by the counters, by the existence checks and, when
    the run is not a dry run, by the three writing calls is kept by the
    whole of the export. *)

Ltac frame_step :=
  match goal with
  | |- preserves ?R (bind _ _) => apply (preserves_bind R); intros
  | |- preserves ?R (ret _) => apply (preserves_ret R)
  | |- preserves ?R (raise _) => apply (preserves_raise R)
  | |- preserves ?R (lift _) => apply (preserves_lift R)
  | |- preserves ?R (stat_get _) => apply (preserves_stat_get R)
  | |- preserves ?R (for_each _ _ _) => apply (preserves_for_each R); intros
  | |- preserves ?R (try_except _ _) =>
      apply (preserves_try_except R);
      [| let e := fresh "e" in let h := fresh "h" in let Hh := fresh "Hh" in
         intros e h Hh; destruct e; inversion Hh; subst; clear Hh ]
  | |- preserves _ (if ?b then _ else _) => destruct b eqn:?
  | |- preserves _ (match ?x with _ => _ end) => destruct x eqn:?
  | |- preserves _ _ => progress cbv zeta
  end.

Section ExportFrames.

Variables (R : state -> state -> Prop) (cfg : config) (env : os_env).
Context `{!PreOrder R}.

Hypothesis R_incr : forall key, preserves R (stat_incr key).
Hypothesis R_exists : forall p, preserves R (path_exists p).
Hypothesis R_makedirs :
  DRY_RUN cfg = false -> forall p, preserves R (makedirs env p).
Hypothesis R_copy2 :
  DRY_RUN cfg = false -> forall src dst, preserves R (copy2 env src dst).
Hypothesis R_write :
  DRY_RUN cfg = false ->
  forall content,
    preserves R (write_file env (OsPath.join (OUTPUT_DIR cfg) "messages.txt") content).

Lemma copy_attachment_preserves a folder :
  preserves R (copy_attachment cfg env a folder).
Proof.
  unfold copy_attachment.
  repeat first [ frame_step | apply R_incr | apply R_exists
               | apply R_copy2; apply negb_true_iff; assumption ].
Qed.

Lemma process_attachment_preserves folder timestamp sender attachments acc a :
  preserves R (process_attachment cfg env folder timestamp sender attachments acc a).
Proof.
  unfold process_attachment.
  repeat first [ frame_step | apply R_incr | apply copy_attachment_preserves ].
Qed.

Lemma process_message_preserves conn info folder acc msg :
  preserves R (process_message cfg env conn info folder acc msg).
Proof.
  unfold process_message.
  repeat first [ frame_step | apply R_incr | apply process_attachment_preserves ].
Qed.

Lemma create_contact_folder_preserves info :
  preserves R (create_contact_folder cfg env info).
Proof.
  unfold create_contact_folder.
  repeat first [ frame_step | apply R_makedirs; apply negb_true_iff; assumption ].
Qed.

Lemma process_chat_preserves conn acc entry :
  preserves R (process_chat cfg env conn acc entry).
Proof.
  unfold process_chat. destruct entry as [chat_id info].
  repeat first [ frame_step | apply R_incr | apply process_message_preserves
               | apply create_contact_folder_preserves ].
Qed.

Lemma get_contacts_and_chats_preserves conn :
  preserves R (get_contacts_and_chats conn).
Proof. unfold get_contacts_and_chats. repeat frame_step. Qed.

Lemma export_chats_preserves conn :
  preserves R (export_chats cfg env conn).
Proof.
  unfold export_chats.
  repeat first [ frame_step | apply get_contacts_and_chats_preserves
               | apply process_chat_preserves
               | apply R_makedirs; apply negb_true_iff; assumption
               | apply R_write; apply negb_true_iff; assumption ].
Qed.

Lemma connect_to_database_preserves :
  preserves R (connect_to_database cfg env).
Proof. unfold connect_to_database. repeat first [ frame_step | apply R_exists ]. Qed.

End ExportFrames.

(** *** Instances of the frame *)

Lemma export_chats_same_keys cfg env conn :
  preserves same_keys (export_chats cfg env conn).
Proof.
  apply export_chats_preserves; try typeclasses eauto.
  - apply stat_incr_same_keys.
  - intros p. eapply preserves_weaken; [apply same_stats_keys | apply path_exists_same_stats].
  - intros _ p. eapply preserves_weaken; [apply same_stats_keys | apply makedirs_same_stats].
  - intros _ src dst.
    eapply preserves_weaken; [apply same_stats_keys | apply copy2_same_stats].
  - intros _ content.
    eapply preserves_weaken; [apply same_stats_keys | apply write_file_same_stats].
Qed.

Lemma export_chats_dry_files cfg env conn :
  DRY_RUN cfg = true -> preserves same_files (export_chats cfg env conn).
Proof.
  intros Hdry.
  apply export_chats_preserves; try typeclasses eauto; try (rewrite Hdry; discriminate).
  - apply stat_incr_same_files.
  - apply path_exists_same_files.
Qed.

Lemma export_chats_dry_calls cfg env conn :
  DRY_RUN cfg = true -> preserves (calls_only is_exists_call) (export_chats cfg env conn).
Proof.
  intros Hdry.
  apply export_chats_preserves; try typeclasses eauto; try (rewrite Hdry; discriminate).
  - apply stat_incr_calls.
  - intros p. apply path_exists_calls. exact I.
Qed.

Lemma connect_dry_files cfg env : preserves same_files (connect_to_database cfg env).
Proof.
  apply connect_to_database_preserves; try typeclasses eauto.
  apply path_exists_same_files.
Qed.

Lemma connect_dry_calls cfg env :
  preserves (calls_only is_exists_call) (connect_to_database cfg env).
Proof.
  apply connect_to_database_preserves; try typeclasses eauto.
  intros p. apply path_exists_calls. exact I.
Qed.

Lemma connect_same_stats cfg env : preserves same_stats (connect_to_database cfg env).
Proof.
  apply connect_to_database_preserves; try typeclasses eauto.
  apply path_exists_same_stats.
Qed.

(** ** The summary *)

Lemma init_stats_lacks_summary_keys :
  Forall (fun key => init_stats !! key = None) summary_only_keys.
Proof. repeat constructor. Qed.

Lemma print_summary_raises cfg env s :
  stats s !! "earliest_message" = None ->
  print_summary cfg env s = (Raise (KeyError "earliest_message"), s).
Proof.
  intros Hnone. unfold print_summary, bind, stat_get. rewrite Hnone. reflexivity.
Qed.

Lemma same_keys_lookup_None s s' key :
  same_keys s s' -> stats s !! key = None -> stats s' !! key = None.
Proof.
  unfold same_keys. intros Hdom Hnone.
  apply not_elem_of_dom. rewrite Hdom. apply not_elem_of_dom. exact Hnone.
Qed.

Lemma export_try_fails cfg env conn s :
  stats s !! "earliest_message" = None ->
  fst (export_try cfg env conn s) <> Ok true.
Proof.
  intros Hnone. unfold export_try, bind.
  pose proof (export_chats_same_keys cfg env conn s) as Hkeys.
  destruct (export_chats cfg env conn s) as [[[lines|]|e] s1]; simpl in *;
    try discriminate.
  rewrite print_summary_raises; [discriminate|].
  eapply same_keys_lookup_None; eassumption.
Qed.

Lemma export_conversations_false cfg env s :
  stats s !! "earliest_message" = None ->
  fst (export_conversations cfg env s) = Ok false.
Proof.
  intros Hnone. unfold export_conversations, bind.
  pose proof (connect_same_stats cfg env s) as Hstats.
  destruct (connect_to_database cfg env s) as [[[conn|]|e] s0] eqn:Hconn; simpl in *.
  - unfold same_stats in Hstats.
    assert (Hnone0 : stats s0 !! "earliest_message" = None) by (rewrite Hstats; exact Hnone).
    pose proof (export_try_fails cfg env conn s0 Hnone0) as Hnot.
    unfold try_except.
    destruct (export_try cfg env conn s0) as [[[|]|e] s1]; simpl in *;
      [contradiction | reflexivity | reflexivity].
  - reflexivity.
  - exfalso. unfold connect_to_database, bind, path_exists in Hconn.
    simpl in Hconn.
    destruct (negb _); [discriminate|].
    destruct (sqlite_connect env (CHAT_DB_PATH cfg)); discriminate.
Qed.

(** Whatever the machine, the settings and the archive, the script ends
    with exit status 1. *)
Lemma run_script_status cfg env files : fst (run_script cfg env files) = 1.
Proof.
  unfold run_script, main, bind.
  destruct (setup_logging cfg env _) as [[[]|e] s0]; [|reflexivity].
  simpl.
  pose proof (export_conversations_false cfg env (set_stats (fun _ => init_stats) s0)) as H.
  destruct (export_conversations cfg env _) as [[success|e] s1]; simpl in *.
  - injection (H eq_refl) as ->. reflexivity.
  - reflexivity.
Qed.

Lemma append_inj_l (a x y : string) : a +:+ x = a +:+ y -> x = y.
Proof. induction a as [|c a IH]; simpl; intros H; [exact H|]. injection H. exact IH. Qed.

Lemma messages_file_not_report cfg : messages_file cfg <> report_file cfg.
Proof.
  unfold messages_file, report_file, OsPath.join.
  cbn [PyStr.startswith PyStr.chr_eqb]. simpl Ascii.eqb. cbv iota. simpl andb. cbv iota.
  destruct (OUTPUT_DIR cfg) as [|c d]; [discriminate|].
  destruct (OsPath.ends_with_sep (String c d)); intros H; apply append_inj_l in H;
    discriminate.
Qed.

Lemma export_chats_leaves_report cfg env conn :
  preserves (calls_only (leaves_report cfg)) (export_chats cfg env conn).
Proof.
  apply export_chats_preserves; try typeclasses eauto.
  - apply stat_incr_calls.
  - intros p. apply path_exists_calls. discriminate.
  - intros _ p. apply makedirs_calls. discriminate.
  - intros _ src dst. apply copy2_calls. discriminate.
  - intros _ content. apply write_file_calls.
    intros H. injection H. apply messages_file_not_report.
Qed.

Lemma write_file_ok env p content s s' :
  write_file env p content s = (Ok tt, s') -> fs s' !! p = Some (File content).
Proof.
  unfold write_file.
  destruct (open_error env p); [discriminate|].
  destruct (fs (log_call _ s) !! p) as [[|c]|]; intros H; try discriminate;
    injection H as <-; apply lookup_insert_eq.
Qed.

Lemma export_chats_writes_transcript cfg env conn s lines :
  DRY_RUN cfg = false ->
  fst (export_chats cfg env conn s) = Ok (Some lines) ->
  fs (snd (export_chats cfg env conn s)) !! messages_file cfg
    = Some (File (PyStr.join_lines lines)).
Proof.
  intros Hwet. unfold export_chats, bind. rewrite Hwet.
  destruct (get_contacts_and_chats conn s) as [[[|chat chats]|e] s0];
    cbn beta iota delta [fst snd negb]; try discriminate.
  destruct (makedirs env (OUTPUT_DIR cfg) s0) as [[[]|e] s1];
    cbn beta iota delta [fst snd]; try discriminate.
  destruct (makedirs env _ s1) as [[[]|e] s2];
    cbn beta iota delta [fst snd]; try discriminate.
  destruct (for_each (process_chat cfg env conn) (chat :: chats) [] s2) as [[content|e] s4];
    cbn beta iota delta [fst snd]; try discriminate.
  destruct (write_file env _ _ s4) as [[[]|e] s5] eqn:Hwrite;
    cbn beta iota delta [fst snd]; try discriminate.
  intros H. injection H as <-.
  eapply write_file_ok. exact Hwrite.
Qed.

(** C5. The five keys read only by [print_summary] are missing from
    the dictionary built by [__init__], and the export never adds a key.
    So whenever the export of a fresh exporter reaches the summary,
    [print_summary] raises [KeyError] at its first read and changes
    nothing; the handler of [export_conversations] turns this into
    [False], although [messages.txt] is already written when the run is
    not a dry run; no call opens [failed_attachments.txt]; and the
    script ends with status 1. *)
Theorem summary_raises_KeyError cfg env conn s lines :
  stats s = init_stats ->
  fst (export_chats cfg env conn s) = Ok (Some lines) ->
  let s1 := snd (export_chats cfg env conn s) in
  Forall (fun key => init_stats !! key = None) summary_only_keys
  /\ dom (stats s1) = dom init_stats
  /\ print_summary cfg env s1 = (Raise (KeyError "earliest_message"), s1)
  /\ try_except (export_try cfg env conn) (fun _ => Some (ret false)) s = (Ok false, s1)
  /\ (DRY_RUN cfg = false ->
        fs s1 !! messages_file cfg = Some (File (PyStr.join_lines lines)))
  /\ calls_only (leaves_report cfg) s s1
  /\ (forall files, fst (run_script cfg env files) = 1).
Proof.
  intros Hinit Hreach s1.
  pose proof (export_chats_same_keys cfg env conn s) as Hkeys. fold s1 in Hkeys.
  assert (Hnone : stats s1 !! "earliest_message" = None).
  { eapply same_keys_lookup_None; [exact Hkeys|]. rewrite Hinit. reflexivity. }
  pose proof (print_summary_raises cfg env s1 Hnone) as Hsum.
  split; [apply init_stats_lacks_summary_keys|].
  split; [unfold same_keys in Hkeys; rewrite Hkeys, Hinit; reflexivity|].
  split; [exact Hsum|].
  split.
  { unfold try_except, export_try, bind. subst s1.
    destruct (export_chats cfg env conn s) as [r s1]. simpl in *. subst r.
    rewrite Hsum. reflexivity. }
  split; [intros Hwet; apply export_chats_writes_transcript; assumption|].
  split; [apply export_chats_leaves_report|].
  intros files. apply run_script_status.
Qed.

Lemma summary_raises_KeyError_witness :
  fst (export_chats (Sample.cfg false true) (Sample.env [Sample.photo])
         (Sample.conn [Sample.photo]) (Sample.fresh Sample.disk))
    = Ok (Some Sample.transcript)
  /\ try_except
       (export_try (Sample.cfg false true) (Sample.env [Sample.photo])
          (Sample.conn [Sample.photo]))
       (fun _ => Some (ret false)) (Sample.fresh Sample.disk)
     = (Ok false,
        snd (export_chats (Sample.cfg false true) (Sample.env [Sample.photo])
               (Sample.conn [Sample.photo]) (Sample.fresh Sample.disk))).
Proof.
  assert (H : fst (export_chats (Sample.cfg false true) (Sample.env [Sample.photo])
                     (Sample.conn [Sample.photo]) (Sample.fresh Sample.disk))
              = Ok (Some Sample.transcript)) by (vm_compute; reflexivity).
  split; [exact H|].
  exact (proj1 (proj2 (proj2 (proj2
           (summary_raises_KeyError (Sample.cfg false true) (Sample.env [Sample.photo])
              (Sample.conn [Sample.photo]) (Sample.fresh Sample.disk) Sample.transcript
              eq_refl H))))).
Defined.

(** ** The counters *)

Lemma init_stats_ok files made :
  stats_ok {| stats := init_stats; fs := files; calls := made |}.
Proof.
  intros key Hin. simpl in Hin.
  repeat (destruct Hin as [<-|Hin]; [eexists; reflexivity|]). contradiction.
Qed.

Lemma stats_ok_same s s' : same_stats s s' -> stats_ok s -> stats_ok s'.
Proof. unfold same_stats, stats_ok. intros ->. trivial. Qed.

Lemma stats_ok_insert key n s :
  stats_ok s -> stats_ok (set_stats (insert key (VInt n)) s).
Proof.
  intros Hok k Hin. simpl.
  destruct (decide (key = k)) as [->|Hne].
  - exists n. apply lookup_insert_eq.
  - rewrite lookup_insert_ne by exact Hne. apply Hok. exact Hin.
Qed.

Lemma stat_get_ok key s :
  stats_ok s -> In key counter_keys -> stat_get key s = (Ok (VInt (counter key s)), s).
Proof.
  intros Hok Hin. destruct (Hok key Hin) as [n Hn].
  unfold stat_get, counter. rewrite Hn. reflexivity.
Qed.

Lemma stat_incr_ok key s :
  stats_ok s -> In key counter_keys ->
  stat_incr key s = (Ok tt, set_stats (insert key (VInt (counter key s + 1))) s).
Proof.
  intros Hok Hin. unfold stat_incr, bind. rewrite (stat_get_ok key s Hok Hin). reflexivity.
Qed.

Lemma counter_insert_eq key n s :
  counter key (set_stats (insert key (VInt n)) s) = n.
Proof. unfold counter. simpl. rewrite lookup_insert_eq. reflexivity. Qed.

Lemma counter_insert_ne key key' v s :
  key' <> key -> counter key (set_stats (insert key' v) s) = counter key s.
Proof. intros Hne. unfold counter. simpl. rewrite lookup_insert_ne by exact Hne. reflexivity. Qed.

Global Instance keeps_preorder key : PreOrder (keeps key).
Proof.
  split.
  - intros s Hok. split; [exact Hok | reflexivity].
  - intros a b c H1 H2 Hok. destruct (H1 Hok) as [Hb E1]. destruct (H2 Hb) as [Hc E2].
    split; [exact Hc | congruence].
Qed.

Lemma keeps_same_stats key s s' : same_stats s s' -> keeps key s s'.
Proof.
  intros Hsame Hok. split; [eapply stats_ok_same; eassumption|].
  unfold counter. rewrite Hsame. reflexivity.
Qed.

Lemma stat_incr_keeps key key' : key' <> key -> preserves (keeps key) (stat_incr key').
Proof.
  intros Hne s Hok. unfold stat_incr, bind, stat_get.
  destruct (stats s !! key') as [v|]; simpl; [|split; [exact Hok | reflexivity]].
  destruct v; simpl; try (split; [exact Hok | reflexivity]).
  split; [apply stats_ok_insert; exact Hok | apply counter_insert_ne; exact Hne].
Qed.

Lemma path_exists_keeps key p : preserves (keeps key) (path_exists p).
Proof. eapply preserves_weaken; [apply keeps_same_stats | apply path_exists_same_stats]. Qed.

Lemma makedirs_keeps key env p : preserves (keeps key) (makedirs env p).
Proof. eapply preserves_weaken; [apply keeps_same_stats | apply makedirs_same_stats]. Qed.

Lemma copy2_keeps key env src dst : preserves (keeps key) (copy2 env src dst).
Proof. eapply preserves_weaken; [apply keeps_same_stats | apply copy2_same_stats]. Qed.

Lemma write_file_keeps key env p content : preserves (keeps key) (write_file env p content).
Proof. eapply preserves_weaken; [apply keeps_same_stats | apply write_file_same_stats]. Qed.

Lemma counts_keeps {A} key (m : M A) : preserves (keeps key) m -> counts key 0 m.
Proof.
  intros Hm s Hok. destruct (Hm s Hok) as [Hok' E].
  split; [exact Hok' | intros a _; lia].
Qed.

Lemma counts_ret {A} key (a : A) : counts key 0 (ret a).
Proof. apply counts_keeps. apply (preserves_ret (keeps key)). Qed.

Lemma counts_bind {A B} key n1 n2 n (m : M A) (k : A -> M B) :
  counts key n1 m -> (forall a, counts key n2 (k a)) -> n = n1 + n2 ->
  counts key n (bind m k).
Proof.
  intros Hm Hk -> s Hok. unfold bind. destruct (Hm s Hok) as [Hok1 E1].
  destruct (m s) as [[a|e] s1]; simpl in *.
  - destruct (Hk a s1 Hok1) as [Hok2 E2]. split; [exact Hok2|].
    intros b Hb. rewrite (E2 b Hb), (E1 a eq_refl). lia.
  - split; [exact Hok1 | discriminate].
Qed.

Lemma counts_bind_pure {A B} key n (m : M A) (k : A -> M B) v :
  (forall s, m s = (Ok v, s) \/ exists e, m s = (Raise e, s)) ->
  counts key n (k v) -> counts key n (bind m k).
Proof.
  intros Hm Hk s Hok. unfold bind. destruct (Hm s) as [-> | [e ->]].
  - apply Hk, Hok.
  - simpl. split; [exact Hok | intros; discriminate].
Qed.

Lemma counts_incr key : In key counter_keys -> counts key 1 (stat_incr key).
Proof.
  intros Hin s Hok. rewrite (stat_incr_ok key s Hok Hin). simpl.
  split; [apply stats_ok_insert; exact Hok|].
  intros _ _. apply counter_insert_eq.
Qed.

Lemma counts_for_each {A B} key (weight : A -> Z) (body : B -> A -> M B) xs :
  (forall acc x, counts key (weight x) (body acc x)) ->
  forall acc, counts key (foldr (fun x total => weight x + total) 0 xs) (for_each body xs acc).
Proof.
  intros Hbody. induction xs as [|x xs IH]; intros acc; simpl.
  - apply counts_ret.
  - eapply counts_bind; [apply Hbody | intros acc'; apply IH | reflexivity].
Qed.

(** *** The four counters that depend on the archive alone *)

Lemma static_keys_counters key : In key static_keys -> In key counter_keys.
Proof.
  simpl. intros H. repeat (destruct H as [<-|H]; [tauto|]). contradiction.
Qed.

Ltac keeps_tac :=
  repeat first
    [ frame_step
    | apply stat_incr_keeps; discriminate
    | apply path_exists_keeps
    | apply copy2_keeps
    | apply makedirs_keeps
    | apply write_file_keeps ].

Section Counts.

Variables (cfg : config) (env : os_env) (conn : connection).

Lemma copy_attachment_keeps key a folder :
  key <> "attachments_skipped" ->
  preserves (keeps key) (copy_attachment cfg env a folder).
Proof.
  intros Hne. unfold copy_attachment.
  repeat first
    [ frame_step | apply path_exists_keeps | apply copy2_keeps
    | apply stat_incr_keeps; congruence ].
Qed.

Lemma attachment_outcome_keeps key folder timestamp sender attachments acc a :
  In key static_keys ->
  preserves (keeps key)
    (r <- copy_attachment cfg env a folder ;;
     let '(success, result) := r in
     if success then
       skipped <- stat_get "attachments_skipped" ;;
       any_skipped <- lift (value_gt0 skipped) ;;
       let names := map a_filename (if any_skipped then attachments else []) in
       (if negb (existsb (opt_string_eqb (Some result)) names)
        then stat_incr "attachments_copied" else ret tt) ;;;
       ret (acc ++ [transcript_line timestamp sender ("[Attachment: " +:+ result +:+ "]")])
     else
       stat_incr "attachments_failed" ;;;
       let attachment_name :=
         if PyStr.truthy (a_filename a)
         then OsPath.basename (default EmptyString (a_filename a))
         else "unknown" in
       ret (acc ++ [transcript_line timestamp sender
                      ("[Missing Attachment: " +:+ attachment_name +:+ "]")])).
Proof.
  intros Hin. simpl in Hin.
  repeat (destruct Hin as [<-|Hin];
          [ apply (preserves_bind (keeps _));
            [ apply copy_attachment_keeps; discriminate
            | intros [success result]; keeps_tac ] |]).
  contradiction.
Qed.

Lemma process_attachment_counts key folder timestamp sender attachments acc a :
  In key static_keys ->
  counts key (weight key "attachments_found")
    (process_attachment cfg env folder timestamp sender attachments acc a).
Proof.
  intros Hin. unfold process_attachment.
  pose proof (attachment_outcome_keeps key folder timestamp sender attachments acc a Hin)
    as Hrest.
  apply counts_keeps in Hrest.
  simpl in Hin. destruct Hin as [<-|[<-|[<-|[<-|[]]]]].
  - eapply counts_bind;
      [ apply counts_keeps, stat_incr_keeps; discriminate | intros _; exact Hrest
      | reflexivity ].
  - eapply counts_bind;
      [ apply counts_keeps, stat_incr_keeps; discriminate | intros _; exact Hrest
      | reflexivity ].
  - eapply counts_bind;
      [ apply counts_keeps, stat_incr_keeps; discriminate | intros _; exact Hrest
      | reflexivity ].
  - eapply counts_bind;
      [ apply counts_incr; simpl; tauto | intros _; exact Hrest | reflexivity ].
Qed.

Lemma counts_incr_weight key counted :
  In counted counter_keys -> counts key (weight key counted) (stat_incr counted).
Proof.
  intros Hin. unfold weight.
  destruct (String.eqb key counted) eqn:E.
  - apply String.eqb_eq in E. subst. apply counts_incr. exact Hin.
  - apply counts_keeps, stat_incr_keeps. intros ->.
    rewrite String.eqb_refl in E. discriminate.
Qed.

Lemma process_message_counts key info folder acc msg :
  In key static_keys ->
  counts key (per_message conn key msg) (process_message cfg env conn info folder acc msg).
Proof.
  intros Hin. unfold process_message, per_message.
  set (total := foldr (fun _ t => weight key "attachments_found" + t) 0
                  (get_attachments_for_message conn (m_message_id msg))).
  apply (counts_bind key (weight key "messages") total);
    [apply counts_incr_weight; simpl; tauto | intros _ | lia].
  apply (counts_bind key 0 total);
    [ apply counts_keeps, (preserves_lift (keeps key)) | intros timestamp | lia ].
  apply (counts_for_each key (fun _ => weight key "attachments_found")).
  intros acc' a. apply process_attachment_counts. exact Hin.
Qed.

Lemma process_chat_counts key acc entry :
  In key static_keys ->
  counts key (per_chat conn key entry) (process_chat cfg env conn acc entry).
Proof.
  intros Hin. unfold process_chat, per_chat. destruct entry as [chat_id info].
  cbn [fst].
  destruct (get_messages_for_chat conn chat_id) as [|msg messages] eqn:Hmsgs.
  - apply counts_ret.
  - set (total := foldr (fun m t => per_message conn key m + t) 0 (msg :: messages)).
    apply (counts_bind key (weight key "conversations")
             (weight key "contacts_processed" + total));
      [apply counts_incr_weight; simpl; tauto | intros _ | lia].
    apply (counts_bind key (weight key "contacts_processed") total);
      [apply counts_incr_weight; simpl; tauto | intros _ | lia].
    apply (counts_bind key 0 total);
      [ apply counts_keeps; unfold create_contact_folder; keeps_tac
      | intros contact_folder | lia ].
    apply (counts_bind key total 0); [ | intros lines; apply counts_ret | lia ].
    apply (counts_for_each key (per_message conn key)).
    intros acc' m. apply process_message_counts. exact Hin.
Qed.

Lemma get_contacts_and_chats_pure s :
  get_contacts_and_chats conn s = (Ok (chats_of conn), s)
  \/ exists e, get_contacts_and_chats conn s = (Raise e, s).
Proof.
  unfold get_contacts_and_chats, chats_of.
  destruct (q_count_chats conn); [|right; eexists; reflexivity].
  destruct (q_chats conn); left; reflexivity.
Qed.

Lemma export_chats_counts key :
  In key static_keys -> counts key (expected conn key) (export_chats cfg env conn).
Proof.
  intros Hin. unfold export_chats, expected.
  eapply counts_bind_pure; [apply get_contacts_and_chats_pure|].
  destruct (chats_of conn) as [|chat chats] eqn:Hchats.
  - apply counts_ret.
  - set (total := foldr (fun entry t => per_chat conn key entry + t) 0 (chat :: chats)).
    apply (counts_bind key 0 total); [apply counts_keeps; keeps_tac | intros _ | lia].
    apply (counts_bind key total 0); [ | intros lines; apply counts_keeps; keeps_tac | lia ].
    apply (counts_for_each key (per_chat conn key)).
    intros acc entry. apply process_chat_counts. exact Hin.
Qed.

End Counts.

(** The counters of conversations, contacts, messages and attachments
    found after an export that returned, whatever the settings, the
    machine and the disk: the totals of the archive. *)
Lemma export_chats_static_counters cfg env conn s lines key :
  stats s = init_stats ->
  fst (export_chats cfg env conn s) = Ok (Some lines) ->
  In key static_keys ->
  stats (snd (export_chats cfg env conn s)) !! key = Some (VInt (expected conn key)).
Proof.
  intros Hinit Hret Hin.
  assert (Hok : stats_ok s).
  { destruct s as [st f c]. simpl in Hinit. subst st. apply init_stats_ok. }
  destruct (export_chats_counts cfg env conn key Hin s Hok) as [Hok1 Hcount].
  specialize (Hcount _ Hret).
  destruct (Hok1 key (static_keys_counters key Hin)) as [n Hn].
  assert (Hzero : init_stats !! key = Some (VInt 0)).
  { simpl in Hin. destruct Hin as [<-|[<-|[<-|[<-|[]]]]]; reflexivity. }
  unfold counter in Hcount. rewrite Hn, Hinit, Hzero in Hcount.
  rewrite Hn. f_equal. f_equal. lia.
Qed.

(** ** Dry run *)

Section DryFrames.

Variables (R : state -> state -> Prop) (cfg : config) (env : os_env).
Context `{!PreOrder R}.

Hypothesis R_incr : forall key, preserves R (stat_incr key).
Hypothesis R_exists : forall p, preserves R (path_exists p).
Hypothesis Hdry : DRY_RUN cfg = true.


Lemma print_summary_dry : preserves R (print_summary cfg env).
Proof.
  unfold print_summary, print_if_positive, format_stat. rewrite Hdry. cbn [negb].
  repeat first
    [ frame_step
    | exfalso;
      match goal with
      | H : _ && false = true |- _ => rewrite andb_false_r in H; discriminate H
      end ].
Qed.


End DryFrames.

Lemma run_script_state cfg env files :
  snd (run_script cfg env files)
  = snd (main cfg env {| stats := ∅; fs := files; calls := [] |}).
Proof.
  unfold run_script. destruct (main cfg env _) as [[code|e] s]; reflexivity.
Qed.



(** *** The branches of [copy_attachment] *)

Section CopyAttachment.

Variables (cfg : config) (env : os_env) (a : attachment_row) (folder : string).

Let filename := default EmptyString (a_filename a).
Let src := expanduser env filename.
Let name := dest_filename_of a filename.
Let dst := OsPath.join folder name.

(** The state after the resume check, which is made only in resume mode. *)
Let checked (s : state) : state :=
  if RESUME_MODE cfg then log_call (CallExists dst) s else s.

Lemma copy_attachment_no_filename s :
  PyStr.truthy (a_filename a) = false ->
  copy_attachment cfg env a folder s = (Ok (false, "No filename provided"), s).
Proof. intros H. unfold copy_attachment. rewrite H. reflexivity. Qed.

Lemma copy_attachment_skip s :
  PyStr.truthy (a_filename a) = true ->
  RESUME_MODE cfg = true -> is_Some (fs s !! dst) ->
  copy_attachment cfg env a folder s
  = match stat_incr "attachments_skipped" (log_call (CallExists dst) s) with
    | (Ok _, s') => (Ok (true, name), s')
    | (Raise e, s') => (Raise e, s')
    end.
Proof.
  intros Hname Hresume Hdst. unfold copy_attachment, bind. rewrite Hname, Hresume.
  cbn [negb]. cbv zeta. fold filename name dst. unfold path_exists at 1.
  rewrite (bool_decide_eq_true_2 _ Hdst).
  destruct (stat_incr "attachments_skipped" _) as [[[]|e] s']; reflexivity.
Qed.

Lemma copy_attachment_missing s :
  PyStr.truthy (a_filename a) = true ->
  RESUME_MODE cfg = false \/ fs s !! dst = None ->
  fs s !! src = None ->
  copy_attachment cfg env a folder s
  = (Ok (false, "Source file not found: " +:+ src), log_call (CallExists src) (checked s)).
Proof.
  intros Hname Hdst Hsrc. unfold copy_attachment, bind, checked. rewrite Hname.
  cbn [negb]. cbv zeta. fold filename src name dst.
  assert (Hno : bool_decide (is_Some (fs s !! src)) = false).
  { rewrite Hsrc. reflexivity. }
  destruct (RESUME_MODE cfg) eqn:Hresume.
  - destruct Hdst as [Hdst|Hdst]; [discriminate|].
    unfold path_exists. rewrite Hdst. cbn. rewrite Hno. reflexivity.
  - unfold path_exists, ret. cbn. rewrite Hno. reflexivity.
Qed.

Lemma copy_attachment_found s :
  PyStr.truthy (a_filename a) = true ->
  RESUME_MODE cfg = false \/ fs s !! dst = None ->
  is_Some (fs s !! src) ->
  copy_attachment cfg env a folder s
  = let s2 := log_call (CallExists src) (checked s) in
    if DRY_RUN cfg then (Ok (true, name), s2)
    else match copy2 env src dst s2 with
         | (Ok _, s3) => (Ok (true, name), s3)
         | (Raise (OSError msg), s3) => (Ok (false, "Copy failed: " +:+ msg), s3)
         | (Raise e, s3) => (Raise e, s3)
         end.
Proof.
  intros Hname Hdst Hsrc. unfold copy_attachment, bind, checked. rewrite Hname.
  cbn [negb]. cbv zeta. fold filename src name dst.
  assert (Hyes : bool_decide (is_Some (fs s !! src)) = true).
  { apply bool_decide_eq_true_2. exact Hsrc. }
  assert (Hrun : forall s2,
    try_except
      (fun s0 =>
         match (if negb (DRY_RUN cfg) then copy2 env src dst else ret tt) s0 with
         | (Ok _, s') => ret (true, name) s'
         | (Raise e, s') => (Raise e, s')
         end)
      (fun e => match e with
                | OSError msg => Some (ret (false, "Copy failed: " +:+ msg))
                | _ => None
                end) s2
    = if DRY_RUN cfg then (Ok (true, name), s2)
      else match copy2 env src dst s2 with
           | (Ok _, s3) => (Ok (true, name), s3)
           | (Raise (OSError msg), s3) => (Ok (false, "Copy failed: " +:+ msg), s3)
           | (Raise e, s3) => (Raise e, s3)
           end).
  { intros s2. unfold try_except. destruct (DRY_RUN cfg); cbn [negb]; [reflexivity|].
    destruct (copy2 env src dst s2) as [[[]|e] s3]; [reflexivity|].
    destruct e; reflexivity. }
  destruct (RESUME_MODE cfg) eqn:Hresume.
  - destruct Hdst as [Hdst|Hdst]; [discriminate|].
    unfold path_exists. rewrite Hdst. cbn [fs log_call bool_decide decide_rel negb].
    cbn. rewrite Hyes. cbn [negb]. apply Hrun.
  - unfold path_exists, ret at 1. cbn. rewrite Hyes. cbn [negb]. apply Hrun.
Qed.

End CopyAttachment.

Lemma copy2_raises env src dst s e s' :
  copy2 env src dst s = (Raise e, s') -> exists msg, e = OSError msg.
Proof.
  copy2_cases; intros H; try discriminate H; injection H as <- _; eexists; reflexivity.
Qed.

(** A copy that no error stops writes the source over a destination
    that is not a directory. *)
Lemma copy2_writes env src dst s content :
  copy_error env src dst = None ->
  fs s !! src = Some (File content) -> fs s !! dst <> Some Dir ->
  copy2 env src dst s
  = (Ok tt, set_fs (insert dst (File content)) (log_call (CallCopy2 src dst) s)).
Proof.
  intros Herr Hsrc Hdst. unfold copy2, copy_target, is_dir. cbn [fs log_call].
  rewrite Herr, Hsrc.
  destruct (fs s !! dst) as [[|old]|] eqn:E;
    [contradiction Hdst; reflexivity | rewrite E; reflexivity | rewrite E; reflexivity].
Qed.


(** ** Resume mode *)

(** C1, on the sample archive.  The first run copies the photo and
    counts one copy; the second run, over the disk the first one left,
    only checks the destination, counts the photo as skipped, and
    counts it as copied once more. *)
Lemma resume_rerun_counts_copied :
  let cfg := Sample.cfg false true in
  let env := Sample.env [Sample.photo] in
  let first := snd (run_script cfg env Sample.disk) in
  let second := snd (run_script cfg env (fs first)) in
  (stats first !! "attachments_copied" = Some (VInt 1)
   /\ stats first !! "attachments_skipped" = Some (VInt 0))
  /\ (stats second !! "attachments_skipped" = Some (VInt 1)
      /\ stats second !! "attachments_copied" = Some (VInt 1))
  /\ calls second
     = [CallMakedirs (OUTPUT_DIR cfg);
        CallOpenAppend (OsPath.join (OUTPUT_DIR cfg) "export_debug.log");
        CallExists (CHAT_DB_PATH cfg);
        CallMakedirs (OUTPUT_DIR cfg);
        CallMakedirs (OsPath.join (OUTPUT_DIR cfg) "attachments");
        CallMakedirs Sample.folder;
        CallExists (OsPath.join Sample.folder "IMG_0001.jpg");
        CallOpenWrite (OsPath.join (OUTPUT_DIR cfg) "messages.txt")].
Proof. vm_compute. repeat split; reflexivity. Qed.

(** In resume mode an attachment whose destination exists is reported
    as a success under its destination name; the only file system call
    is the check of the destination, and one skip is counted. *)
Lemma copy_attachment_resumes cfg env a folder s :
  let name := dest_filename_of a (default EmptyString (a_filename a)) in
  let dst := OsPath.join folder name in
  stats_ok s -> PyStr.truthy (a_filename a) = true ->
  RESUME_MODE cfg = true -> is_Some (fs s !! dst) ->
  copy_attachment cfg env a folder s
  = (Ok (true, name),
     set_stats (insert "attachments_skipped" (VInt (counter "attachments_skipped" s + 1)))
       (log_call (CallExists dst) s)).
Proof.
  intros name dst Hok Hname Hresume Hdst.
  rewrite (copy_attachment_skip cfg env a folder s Hname Hresume Hdst).
  rewrite stat_incr_ok; [reflexivity | exact Hok | simpl; tauto].
Qed.

(** Copy, then resume.  With resume mode on and dry run off, an
    attachment whose source is a file and whose destination is new is
    copied after the two existence checks; on any later state with the
    disk that copy left, the same attachment is a success again after
    the check of the destination alone: the source is not looked at,
    and one skip is counted. *)
Lemma copy_then_resume cfg env a folder s s' content :
  let name := dest_filename_of a (default EmptyString (a_filename a)) in
  let src := expanduser env (default EmptyString (a_filename a)) in
  let dst := OsPath.join folder name in
  let first := copy_attachment cfg env a folder s in
  stats_ok s' -> PyStr.truthy (a_filename a) = true ->
  RESUME_MODE cfg = true -> DRY_RUN cfg = false ->
  fs s !! dst = None -> fs s !! src = Some (File content) ->
  copy_error env src dst = None ->
  fs s' = fs (snd first) ->
  fst first = Ok (true, name)
  /\ calls (snd first) = calls s ++ [CallExists dst; CallExists src; CallCopy2 src dst]
  /\ stats (snd first) = stats s
  /\ copy_attachment cfg env a folder s'
     = (Ok (true, name),
        set_stats (insert "attachments_skipped"
                     (VInt (counter "attachments_skipped" s' + 1)))
          (log_call (CallExists dst) s')).
Proof.
  intros name src dst first Hok' Hname Hresume Hwet Hdst Hsrc Herr Hdisk.
  assert (Hfirst : first =
    (Ok (true, name),
     set_fs (insert dst (File content))
       (log_call (CallCopy2 src dst)
          (log_call (CallExists src) (log_call (CallExists dst) s))))).
  { subst first.
    rewrite (copy_attachment_found cfg env a folder s Hname (or_intror Hdst))
      by (fold src; rewrite Hsrc; eexists; reflexivity).
    rewrite Hresume, Hwet. cbv zeta. fold name src dst.
    rewrite (copy2_writes env src dst
               (log_call (CallExists src) (log_call (CallExists dst) s)) content Herr Hsrc)
      by (cbn [fs log_call]; rewrite Hdst; discriminate).
    reflexivity. }
  rewrite Hfirst in Hdisk |- *. cbn [fst snd] in *.
  split; [reflexivity|]. split.
  { simpl. rewrite <- !app_assoc. reflexivity. }
  split; [reflexivity|].
  apply copy_attachment_resumes; try assumption.
  fold name dst. rewrite Hdisk. simpl. rewrite lookup_insert_eq. eexists. reflexivity.
Qed.

Lemma not_among_names name any_skipped (attachments : list attachment_row) :
  (forall b, In b attachments -> a_filename b <> Some name) ->
  existsb (opt_string_eqb (Some name))
    (map a_filename (if any_skipped : bool then attachments else [])) = false.
Proof.
  intros Hnames. destruct any_skipped; [|reflexivity].
  induction attachments as [|b rest IH]; [reflexivity|].
  simpl. rewrite IH by (intros c Hc; apply Hnames; right; exact Hc).
  unfold opt_string_eqb. rewrite bool_decide_eq_false_2; [reflexivity|].
  intros E. apply (Hnames b); [left; reflexivity | symmetry; exact E].
Qed.

(** The guard of [export_conversations] does not keep a skipped file
    out of [attachments_copied]: in resume mode an attachment whose
    destination exists, and whose destination name is not the recorded
    path of an attachment of the message, adds one to the skipped count
    and one to the copied count. *)
Lemma skipped_attachment_counted_copied cfg env folder timestamp sender attachments acc a s :
  let name := dest_filename_of a (default EmptyString (a_filename a)) in
  let run := process_attachment cfg env folder timestamp sender attachments acc a s in
  stats_ok s -> PyStr.truthy (a_filename a) = true ->
  RESUME_MODE cfg = true -> is_Some (fs s !! OsPath.join folder name) ->
  (forall b, In b attachments -> a_filename b <> Some name) ->
  fst run = Ok (acc ++ [transcript_line timestamp sender ("[Attachment: " +:+ name +:+ "]")])
  /\ counter "attachments_skipped" (snd run) = counter "attachments_skipped" s + 1
  /\ counter "attachments_copied" (snd run) = counter "attachments_copied" s + 1.
Proof.
  intros name run Hok Hname Hresume Hdst Hnames.
  set (s1 := set_stats (insert "attachments_found"
                          (VInt (counter "attachments_found" s + 1))) s).
  set (s2 := set_stats (insert "attachments_skipped"
                          (VInt (counter "attachments_skipped" s1 + 1)))
               (log_call (CallExists (OsPath.join folder name)) s1)).
  assert (Hok1 : stats_ok s1) by (apply stats_ok_insert; exact Hok).
  assert (Hok2 : stats_ok s2).
  { apply stats_ok_insert. intros key Hin. apply (Hok1 key Hin). }
  assert (Hrun : run =
    (Ok (acc ++ [transcript_line timestamp sender ("[Attachment: " +:+ name +:+ "]")]),
     set_stats (insert "attachments_copied"
                  (VInt (counter "attachments_copied" s2 + 1))) s2)).
  { subst run. unfold process_attachment.
    unfold bind at 1. rewrite (stat_incr_ok "attachments_found" s Hok) by (simpl; tauto).
    cbn beta iota. fold s1.
    unfold bind at 1.
    rewrite (copy_attachment_resumes cfg env a folder s1 Hok1 Hname Hresume Hdst).
    cbn beta iota. fold name. fold s2.
    unfold bind at 1. rewrite (stat_get_ok "attachments_skipped" s2 Hok2) by (simpl; tauto).
    cbn beta iota. unfold bind at 1, lift, value_gt0. cbn beta iota zeta.
    rewrite (not_among_names name _ attachments Hnames). cbn [negb].
    unfold bind. rewrite (stat_incr_ok "attachments_copied" s2 Hok2) by (simpl; tauto).
    reflexivity. }
  rewrite Hrun. cbn [fst snd].
  split; [reflexivity|]. split.
  - rewrite counter_insert_ne by discriminate.
    subst s2. rewrite counter_insert_eq.
    subst s1. rewrite counter_insert_ne by discriminate. reflexivity.
  - rewrite counter_insert_eq. f_equal.
    subst s2. rewrite counter_insert_ne by discriminate.
    unfold counter. simpl. rewrite lookup_insert_ne by discriminate. reflexivity.
Qed.

(** ** Plug-in payloads *)

(** C2, on the sample archive with an app payload whose file is not on
    disk: the name is recognised by [is_plugin_attachment], yet the
    resolver reports the source as not found and the run counts one
    failed attachment and writes a missing-attachment line. *)
Lemma plugin_payload_counted_failed :
  let cfg := Sample.cfg false true in
  let env := Sample.env [Sample.sticker] in
  let final := snd (run_script cfg env Sample.disk) in
  is_plugin_attachment (a_filename Sample.sticker) = true
  /\ fst (copy_attachment cfg env Sample.sticker Sample.folder (Sample.fresh Sample.disk))
     = Ok (false,
           "Source file not found: /Users/me/Library/Messages/Attachments/cd/34/sticker.pluginPayloadAttachment")
  /\ stats final !! "attachments_failed" = Some (VInt 1)
  /\ fs final !! messages_file cfg
     = Some (File (PyStr.join_lines
          ["=== Conversation with Alice (+15551234567) ===";
           "[2023-03-08 20:26:40] You: hi";
           "[2023-03-08 20:27:40] Alice: hey";
           "[2023-03-08 20:27:40] Alice: [Missing Attachment: sticker.pluginPayloadAttachment]";
           ""])).
Proof. vm_compute. repeat split; reflexivity. Qed.

(** ** Exit status *)

(** C8, on the sample archive: the database opens, the one conversation
    is processed to the end and [messages.txt] is written, and the
    script still ends with status 1. *)
Lemma completed_run_exits_1 :
  let cfg := Sample.cfg false true in
  let run := run_script cfg (Sample.env [Sample.photo]) Sample.disk in
  fst run = 1
  /\ stats (snd run) !! "conversations" = Some (VInt 1)
  /\ stats (snd run) !! "messages" = Some (VInt 2)
  /\ fs (snd run) !! messages_file cfg = Some (File (PyStr.join_lines Sample.transcript)).
Proof. vm_compute. repeat split; reflexivity. Qed.

(** ** The resolver *)

(** C6, on the sample archive with a stale recorded path.  The search
    for alternative locations is enabled and a file of the recorded
    name lies at the top of the attachments store; the resolver still
    reports the attachment missing after looking at the destination and
    at the recorded path only, and [stats] has no counter of files found
    by a search. *)
Lemma stale_path_not_recovered :
  let cfg := Sample.cfg false true in
  let run := copy_attachment cfg (Sample.env [Sample.moved]) Sample.moved Sample.folder
               (Sample.fresh Sample.disk_moved) in
  SEARCH_ALTERNATIVE_LOCATIONS cfg = true
  /\ Sample.disk_moved !! OsPath.join (ATTACHMENTS_PATH cfg) "IMG_0002.jpg" = Some (File "JFIF")
  /\ fst run = Ok (false, "Source file not found: /old/place/IMG_0002.jpg")
  /\ calls (snd run)
     = [CallExists (OsPath.join Sample.folder "IMG_0002.jpg");
        CallExists "/old/place/IMG_0002.jpg"]
  /\ stats (snd run) !! "attachments_found_alternative" = None.
Proof. vm_compute. repeat split; reflexivity. Qed.

(** Whatever the search setting, when the recorded source path does
    not exist (and the destination is not already there in resume mode)
    the resolver reports ["Source file not found: <path>"] at once: it
    has checked the destination (in resume mode) and the recorded path
    and nothing else, and leaves the counters and the files alone.  No
    run adds the key of the found-via-search counter to [stats]. *)
Lemma missing_source_fails_without_search cfg env a folder s search :
  let src := expanduser env (default EmptyString (a_filename a)) in
  let dst := OsPath.join folder (dest_filename_of a (default EmptyString (a_filename a))) in
  let run := copy_attachment (set_search search cfg) env a folder s in
  PyStr.truthy (a_filename a) = true ->
  RESUME_MODE cfg = false \/ fs s !! dst = None ->
  fs s !! src = None ->
  fst run = Ok (false, "Source file not found: " +:+ src)
  /\ calls (snd run)
     = calls s ++ (if RESUME_MODE cfg then [CallExists dst] else []) ++ [CallExists src]
  /\ stats (snd run) = stats s
  /\ fs (snd run) = fs s
  /\ (forall conn s0,
        stats s0 = init_stats ->
        stats (snd (export_chats (set_search search cfg) env conn s0))
          !! "attachments_found_alternative" = None).
Proof.
  intros src dst run Hname Hdst Hsrc. subst run.
  rewrite (copy_attachment_missing (set_search search cfg) env a folder s Hname Hdst Hsrc).
  cbn [fst snd set_search RESUME_MODE].
  split; [reflexivity|].
  split; [destruct (RESUME_MODE cfg); simpl; [rewrite <- app_assoc|]; reflexivity|].
  split; [destruct (RESUME_MODE cfg); reflexivity|].
  split; [destruct (RESUME_MODE cfg); reflexivity|].
  intros conn s0 Hinit.
  eapply same_keys_lookup_None; [apply export_chats_same_keys|].
  rewrite Hinit. reflexivity.
Qed.

(** A record with a transfer name and no recorded path is refused. *)
Lemma transfer_name_alone_fails :
  a_filename Sample.voice_memo = None
  /\ a_transfer_name Sample.voice_memo = Some "voice.m4a"
  /\ copy_attachment (Sample.cfg false true) (Sample.env [Sample.voice_memo])
       Sample.voice_memo Sample.folder (Sample.fresh Sample.disk)
     = (Ok (false, "No filename provided"), Sample.fresh Sample.disk).
Proof. repeat split; reflexivity. Qed.

Lemma copy_attachment_cases cfg env a folder s :
  PyStr.truthy (a_filename a) = true ->
  (exists name, fst (copy_attachment cfg env a folder s) = Ok (true, name))
  \/ (exists e, fst (copy_attachment cfg env a folder s) = Raise e)
  \/ fst (copy_attachment cfg env a folder s)
     = Ok (false, "Source file not found: "
                    +:+ expanduser env (default EmptyString (a_filename a)))
  \/ (exists msg, fst (copy_attachment cfg env a folder s) = Ok (false, "Copy failed: " +:+ msg)).
Proof.
  intros Hname.
  set (dst := OsPath.join folder (dest_filename_of a (default EmptyString (a_filename a)))).
  set (src := expanduser env (default EmptyString (a_filename a))).
  assert (Hcase : (RESUME_MODE cfg = true /\ is_Some (fs s !! dst))
                  \/ (RESUME_MODE cfg = false \/ fs s !! dst = None)).
  { destruct (RESUME_MODE cfg); [|right; left; reflexivity].
    destruct (fs s !! dst) as [node|]; [left; split; [reflexivity|eexists; reflexivity]|].
    right. right. reflexivity. }
  destruct Hcase as [[Hr Hd] | Hd].
  - rewrite (copy_attachment_skip cfg env a folder s Hname Hr Hd).
    destruct (stat_incr "attachments_skipped" _) as [[[]|e] s1].
    + left. eexists. reflexivity.
    + right. left. eexists. reflexivity.
  - destruct (fs s !! src) as [node|] eqn:Hsrc.
    + assert (Hs : is_Some (fs s !! src)) by (rewrite Hsrc; eexists; reflexivity).
      rewrite (copy_attachment_found cfg env a folder s Hname Hd Hs). cbv zeta.
      destruct (DRY_RUN cfg); [left; eexists; reflexivity|].
      match goal with
      | |- context [copy2 env ?p ?q ?st] => destruct (copy2 env p q st) as [[[]|e] s3]
      end.
      * left. eexists. reflexivity.
      * destruct e; try (right; left; eexists; reflexivity).
        right. right. right. eexists. reflexivity.
    + rewrite (copy_attachment_missing cfg env a folder s Hname Hd Hsrc).
      right. right. left. reflexivity.
Qed.

(** The name a success carries is the name given to the copy. *)
Lemma copy_attachment_success_name cfg env a folder s name :
  fst (copy_attachment cfg env a folder s) = Ok (true, name) ->
  name = dest_filename_of a (default EmptyString (a_filename a)).
Proof.
  intros Hres.
  destruct (PyStr.truthy (a_filename a)) eqn:Hname;
    [|rewrite copy_attachment_no_filename in Hres by exact Hname; discriminate Hres].
  set (dst := OsPath.join folder (dest_filename_of a (default EmptyString (a_filename a)))).
  set (src := expanduser env (default EmptyString (a_filename a))).
  assert (Hcase : (RESUME_MODE cfg = true /\ is_Some (fs s !! dst))
                  \/ (RESUME_MODE cfg = false \/ fs s !! dst = None)).
  { destruct (RESUME_MODE cfg); [|right; left; reflexivity].
    destruct (fs s !! dst) as [node|]; [left; split; [reflexivity|eexists; reflexivity]|].
    right. right. reflexivity. }
  destruct Hcase as [[Hr Hd] | Hd].
  - rewrite (copy_attachment_skip cfg env a folder s Hname Hr Hd) in Hres.
    destruct (stat_incr "attachments_skipped" _) as [[[]|e] s1]; [|discriminate Hres].
    cbn [fst] in Hres. congruence.
  - destruct (fs s !! src) as [node|] eqn:Hsrc.
    + assert (Hs : is_Some (fs s !! src)) by (rewrite Hsrc; eexists; reflexivity).
      rewrite (copy_attachment_found cfg env a folder s Hname Hd Hs) in Hres.
      cbv zeta in Hres. destruct (DRY_RUN cfg); [cbn [fst] in Hres; congruence|].
      match type of Hres with
      | context [copy2 env ?p ?q ?st] => destruct (copy2 env p q st) as [[[]|e] s3]
      end; [cbn [fst] in Hres; congruence|].
      destruct e; discriminate Hres.
    + rewrite (copy_attachment_missing cfg env a folder s Hname Hd Hsrc) in Hres.
      discriminate Hres.
Qed.

(** The file system calls of [copy_attachment] bear on the source and on
    the destination named by [dest_filename_of], and on nothing else. *)
Lemma copy_attachment_calls cfg env a folder :
  let src := expanduser env (default EmptyString (a_filename a)) in
  let dst := OsPath.join folder (dest_filename_of a (default EmptyString (a_filename a))) in
  preserves (calls_only (fun c => c = CallExists dst \/ c = CallExists src
                                  \/ c = CallCopy2 src dst))
    (copy_attachment cfg env a folder).
Proof.
  intros src dst. unfold copy_attachment. cbv zeta. fold src dst.
  repeat first
    [ frame_step
    | apply stat_incr_calls
    | apply path_exists_calls; tauto
    | apply copy2_calls; tauto ].
Qed.

(** C7, as the code has it.  The resolver returns
    ["No filename provided"] exactly when the recorded source path is
    absent or empty, whether or not a transfer name exists, and it then
    leaves the state untouched.  The transfer name serves as the name of
    the copy exactly for a recorded path without a basename, with
    ["unknown_attachment"] when it is absent too; a recorded path with a
    basename gives that basename, whatever the transfer name.  The name
    so chosen is the one a success returns and the one of the
    destination in every file system call of the resolver. *)
Theorem no_filename_iff_path_absent cfg env a folder s :
  (fst (copy_attachment cfg env a folder s) = Ok (false, "No filename provided")
   <-> PyStr.truthy (a_filename a) = false)
  /\ (PyStr.truthy (a_filename a) = false ->
      copy_attachment cfg env a folder s = (Ok (false, "No filename provided"), s))
  /\ (forall filename,
        OsPath.basename filename = EmptyString ->
        dest_filename_of a filename
        = if PyStr.truthy (a_transfer_name a)
          then default EmptyString (a_transfer_name a)
          else "unknown_attachment")
  /\ (forall filename,
        OsPath.basename filename <> EmptyString ->
        dest_filename_of a filename = OsPath.basename filename)
  /\ (forall name,
        fst (copy_attachment cfg env a folder s) = Ok (true, name) ->
        name = dest_filename_of a (default EmptyString (a_filename a)))
  /\ (let src := expanduser env (default EmptyString (a_filename a)) in
      let dst := OsPath.join folder
                   (dest_filename_of a (default EmptyString (a_filename a))) in
      calls_only (fun c => c = CallExists dst \/ c = CallExists src \/ c = CallCopy2 src dst)
        s (snd (copy_attachment cfg env a folder s))).
Proof.
  split; [split|split; [|split; [|split; [|split]]]].
  - intros Hres. destruct (PyStr.truthy (a_filename a)) eqn:Hname; [|reflexivity].
    exfalso.
    destruct (copy_attachment_cases cfg env a folder s Hname)
      as [[name H] | [[e H] | [H | [msg H]]]]; rewrite H in Hres; discriminate.
  - intros Hname. rewrite copy_attachment_no_filename by exact Hname. reflexivity.
  - apply copy_attachment_no_filename.
  - intros filename Hbase. unfold dest_filename_of, py_or. rewrite Hbase. simpl.
    destruct (PyStr.truthy (a_transfer_name a)); reflexivity.
  - intros filename Hbase. unfold dest_filename_of.
    destruct (OsPath.basename filename); [contradiction | reflexivity].
  - apply copy_attachment_success_name.
  - apply copy_attachment_calls.
Qed.

Lemma no_filename_iff_path_absent_witness :
  copy_attachment (Sample.cfg false true) (Sample.env [Sample.voice_memo])
    Sample.voice_memo Sample.folder (Sample.fresh Sample.disk)
  = (Ok (false, "No filename provided"), Sample.fresh Sample.disk).
Proof.
  exact (proj1 (proj2 (no_filename_iff_path_absent (Sample.cfg false true)
                         (Sample.env [Sample.voice_memo]) Sample.voice_memo Sample.folder
                         (Sample.fresh Sample.disk))) eq_refl).
Defined.

(** ** The transcript of a conversation *)

Lemma returns_ret {A} (P : A -> Prop) a : P a -> returns P (ret a).
Proof. intros HP s Hok. exists a. simpl. auto. Qed.

Lemma returns_bind {A B} (P : A -> Prop) (Q : B -> Prop) (m : M A) (k : A -> M B) :
  returns P m -> (forall a, P a -> returns Q (k a)) -> returns Q (bind m k).
Proof.
  intros Hm Hk s Hok. unfold bind.
  destruct (Hm s Hok) as (a & Ha & HP & Hok1).
  destruct (m s) as [r s1]. simpl in *. subst r. apply Hk; assumption.
Qed.

Lemma returns_incr key : In key counter_keys -> returns (fun _ => True) (stat_incr key).
Proof.
  intros Hin s Hok. rewrite (stat_incr_ok key s Hok Hin). exists tt. simpl.
  split; [reflexivity|]. split; [exact I|]. apply stats_ok_insert. exact Hok.
Qed.

Lemma returns_get key :
  In key counter_keys -> returns (fun v => exists n, v = VInt n) (stat_get key).
Proof.
  intros Hin s Hok. rewrite (stat_get_ok key s Hok Hin). eexists. simpl.
  split; [reflexivity|]. split; [eexists; reflexivity | exact Hok].
Qed.

Lemma returns_for_each {A B} (step : B -> A -> B -> Prop) (body : B -> A -> M B) xs :
  (forall acc x, returns (step acc x) (body acc x)) ->
  forall acc, returns (chain step acc xs) (for_each body xs acc).
Proof.
  intros Hbody. induction xs as [|x xs IH]; intros acc; simpl.
  - apply returns_ret. constructor.
  - eapply returns_bind; [apply Hbody|]. intros acc' Hstep.
    intros s Hok. destruct (IH acc' s Hok) as (acc'' & E & Hchain & Hok').
    exists acc''. split; [exact E|]. split; [|exact Hok'].
    econstructor; eassumption.
Qed.

Lemma format_timestamp_returns date : format_timestamp date = Ok (timestamp_text date).
Proof.
  unfold timestamp_text. destruct date as [t|]; [|reflexivity].
  destruct (Z.eq_dec t 0) as [->|Hnz]; [reflexivity|].
  rewrite format_timestamp_nonzero by exact Hnz.
  destruct (mac_datetime t); reflexivity.
Qed.

Section Assembler.

Variables (cfg : config) (env : os_env) (conn : connection).

Lemma copy_attachment_returns a folder :
  returns (fun _ => True) (copy_attachment cfg env a folder).
Proof.
  intros s Hok.
  assert (Hok' : stats_ok (snd (copy_attachment cfg env a folder s))).
  { apply (copy_attachment_keeps cfg env "messages" a folder); [discriminate | exact Hok]. }
  destruct (PyStr.truthy (a_filename a)) eqn:Hname.
  2:{ rewrite copy_attachment_no_filename in Hok' |- * by exact Hname.
      eexists. split; [reflexivity|]. split; [exact I | exact Hok']. }
  set (dst := OsPath.join folder (dest_filename_of a (default EmptyString (a_filename a)))).
  set (src := expanduser env (default EmptyString (a_filename a))).
  assert (Hcase : (RESUME_MODE cfg = true /\ is_Some (fs s !! dst))
                  \/ (RESUME_MODE cfg = false \/ fs s !! dst = None)).
  { destruct (RESUME_MODE cfg); [|right; left; reflexivity].
    destruct (fs s !! dst) as [node|]; [left; split; [reflexivity|eexists; reflexivity]|].
    right. right. reflexivity. }
  destruct Hcase as [[Hr Hd] | Hd].
  - rewrite (copy_attachment_resumes cfg env a folder s Hok Hname Hr Hd) in Hok' |- *.
    eexists. split; [reflexivity|]. split; [exact I | exact Hok'].
  - destruct (fs s !! src) as [node|] eqn:Hsrc.
    + assert (Hs : is_Some (fs s !! src)) by (rewrite Hsrc; eexists; reflexivity).
      rewrite (copy_attachment_found cfg env a folder s Hname Hd Hs) in Hok' |- *.
      cbv zeta in *.
      destruct (DRY_RUN cfg);
        [eexists; split; [reflexivity|]; split; [exact I | exact Hok']|].
      match goal with
      | |- context [copy2 env ?p ?q ?st] =>
          pose proof (copy2_raises env p q st) as Hraise;
          destruct (copy2 env p q st) as [[[]|e] s3]
      end.
      * eexists. split; [reflexivity|]. split; [exact I | exact Hok'].
      * destruct (Hraise e s3 eq_refl) as [msg ->].
        eexists. split; [reflexivity|]. split; [exact I | exact Hok'].
    + rewrite (copy_attachment_missing cfg env a folder s Hname Hd Hsrc) in Hok' |- *.
      eexists. split; [reflexivity|]. split; [exact I | exact Hok'].
Qed.

Lemma process_attachment_returns folder timestamp sender attachments acc a :
  returns (fun acc' => exists body, acc' = acc ++ [transcript_line timestamp sender body])
    (process_attachment cfg env folder timestamp sender attachments acc a).
Proof.
  unfold process_attachment.
  eapply returns_bind; [apply returns_incr; simpl; tauto | intros _ _].
  eapply returns_bind; [apply copy_attachment_returns | intros [success result] _].
  destruct success.
  - eapply returns_bind; [apply returns_get; simpl; tauto | intros v [n ->]].
    unfold value_gt0, lift, bind at 1. cbv zeta.
    intros s Hok. cbn beta iota.
    eapply returns_bind; [|intros _ _; apply returns_ret; eexists; reflexivity|exact Hok].
    destruct (negb _); [apply returns_incr; simpl; tauto | apply (returns_ret (fun _ => True)); exact I].
  - eapply returns_bind; [apply returns_incr; simpl; tauto | intros _ _].
    cbv zeta. apply returns_ret. eexists. reflexivity.
Qed.

Lemma chain_attachment_lines timestamp sender (attachments : list attachment_row) acc acc' :
  chain (fun acc (_ : attachment_row) acc' =>
           exists body, acc' = acc ++ [transcript_line timestamp sender body])
    acc attachments acc' ->
  exists bodies,
    acc' = acc ++ map (transcript_line timestamp sender) bodies
    /\ length bodies = length attachments.
Proof.
  induction 1 as [acc | acc a acc1 rest acc2 [body ->] Hrest IH].
  - exists []. split; [symmetry; apply app_nil_r | reflexivity].
  - destruct IH as (bodies & -> & Hlen). exists (body :: bodies). split.
    + rewrite <- app_assoc. reflexivity.
    + simpl. rewrite Hlen. reflexivity.
Qed.

Lemma process_message_returns info folder acc msg :
  returns (fun acc' => exists chunk, acc' = acc ++ chunk /\ message_chunk conn info msg chunk)
    (process_message cfg env conn info folder acc msg).
Proof.
  unfold process_message.
  eapply returns_bind; [apply returns_incr; simpl; tauto | intros _ _].
  rewrite format_timestamp_returns.
  unfold lift, bind at 1. intros s Hok. cbn beta iota zeta.
  set (timestamp := timestamp_text (m_date msg)).
  set (sender := sender_of info msg).
  set (attachments := get_attachments_for_message conn (m_message_id msg)).
  set (start := if has_text msg then _ else acc).
  destruct (returns_for_each _ _ attachments
              (fun acc0 a => process_attachment_returns folder timestamp sender attachments acc0 a)
              start s Hok) as (acc' & E & Hchain & Hok').
  exists acc'. split; [exact E|]. split; [|exact Hok'].
  apply chain_attachment_lines in Hchain as (bodies & -> & Hlen).
  exists (text_lines info msg ++ map (transcript_line timestamp sender) bodies).
  split.
  - subst start. unfold text_lines. fold timestamp sender.
    destruct (has_text msg); [rewrite <- app_assoc; reflexivity|reflexivity].
  - exists bodies. split; [reflexivity | exact Hlen].
Qed.

Lemma chain_message_chunks info (messages : list message_row) acc acc' :
  chain (fun acc msg acc' =>
           exists chunk, acc' = acc ++ chunk /\ message_chunk conn info msg chunk)
    acc messages acc' ->
  exists chunks, acc' = acc ++ concat chunks /\ Forall2 (message_chunk conn info) messages chunks.
Proof.
  induction 1 as [acc | acc msg acc1 rest acc2 (chunk & -> & Hchunk) Hrest IH].
  - exists []. split; [symmetry; apply app_nil_r | constructor].
  - destruct IH as (chunks & -> & Hall). exists (chunk :: chunks). split.
    + simpl. rewrite <- app_assoc. reflexivity.
    + constructor; assumption.
Qed.

End Assembler.





Lemma date_le_refl d : date_le d d.
Proof. destruct d; simpl; [lia | exact I]. Qed.

Lemma sorted_repeat_app (d : option Z) n rest :
  Forall (date_le d) rest -> StronglySorted date_le rest ->
  StronglySorted date_le (repeat d n ++ rest).
Proof.
  intros Hall Hrest. induction n as [|n IH]; simpl; [exact Hrest|].
  constructor; [exact IH|].
  apply Forall_app. split; [|exact Hall].
  apply Forall_forall. intros x Hx. apply list_elem_of_In, repeat_spec in Hx. subst x.
  apply date_le_refl.
Qed.

Lemma line_dates_sorted (pairs : list (message_row * list string)) :
  StronglySorted date_le (map (fun p => m_date (fst p)) pairs) ->
  StronglySorted date_le
    (flat_map (fun p => repeat (m_date (fst p)) (length (snd p))) pairs).
Proof.
  induction pairs as [|p pairs IH]; simpl; intros Hsorted; [constructor|].
  apply StronglySorted_inv in Hsorted as [Hrest Hhead].
  apply sorted_repeat_app; [|apply IH; exact Hrest].
  apply Forall_forall. intros d Hd.
  apply list_elem_of_In, in_flat_map in Hd as (q & Hq & Hd).
  apply repeat_spec in Hd. subst d.
  rewrite Forall_forall in Hhead. apply Hhead.
  apply list_elem_of_In. apply in_map_iff. exists q. split; [reflexivity | exact Hq].
Qed.

Lemma line_dates_of_chunks conn info messages chunks :
  Forall2 (message_chunk conn info) messages chunks ->
  StronglySorted date_le (map m_date messages) ->
  StronglySorted date_le (line_dates messages chunks).
Proof.
  intros Hall Hsorted. unfold line_dates. apply line_dates_sorted.
  rewrite <- (map_map fst m_date).
  replace (map fst (zip messages chunks)) with messages; [exact Hsorted|].
  symmetry. apply fst_zip. apply Forall2_length in Hall. lia.
Qed.

(** C4. With the counters of a fresh exporter, the loop over the
    messages of a conversation returns, and what it appends to the
    transcript is one chunk per message, in the order in which
    [get_messages_for_chat] returned the messages; the chunk of a
    message is its text line, when the body is not blank, followed at
    once by one line per attachment under the same time stamp and
    sender.  So the lines follow the reader's order and are never
    sorted again: when the reader's dates are in non-decreasing order,
    so are the dates of the messages behind the successive lines.  A
    conversation block that [process_chat] returns is the header, these
    chunks and an empty line. *)
Theorem transcript_in_reader_order cfg env conn chat_id info folder acc s :
  stats_ok s ->
  let messages := get_messages_for_chat conn chat_id in
  (exists chunks,
     fst (for_each (process_message cfg env conn info folder) messages acc s)
       = Ok (acc ++ concat chunks)
     /\ Forall2 (message_chunk conn info) messages chunks
     /\ (StronglySorted date_le (map m_date messages) ->
         StronglySorted date_le (line_dates messages chunks)))
  /\ (forall block,
        messages <> [] ->
        fst (process_chat cfg env conn acc (chat_id, info) s) = Ok block ->
        exists chunks,
          block = acc ++ conversation_header info chat_id :: concat chunks ++ [EmptyString]
          /\ Forall2 (message_chunk conn info) messages chunks
          /\ (StronglySorted date_le (map m_date messages) ->
              StronglySorted date_le (line_dates messages chunks))).
Proof.
  intros Hok messages. split.
  - destruct (returns_for_each _ _ messages
                (fun acc0 msg => process_message_returns cfg env conn info folder acc0 msg)
                acc s Hok) as (acc' & E & Hchain & _).
    apply chain_message_chunks in Hchain as (chunks & -> & Hall).
    exists chunks. split; [exact E|]. split; [exact Hall|].
    apply line_dates_of_chunks with (conn := conn) (info := info). exact Hall.
  - intros block Hne. unfold process_chat. fold messages.
    destruct messages as [|msg rest] eqn:Hmsgs; [contradiction|].
    unfold bind at 1. rewrite (stat_incr_ok "conversations" s Hok) by (simpl; tauto).
    cbn beta iota.
    set (s1 := set_stats _ s).
    assert (Hok1 : stats_ok s1) by (apply stats_ok_insert; exact Hok).
    unfold bind at 1. rewrite (stat_incr_ok "contacts_processed" s1 Hok1) by (simpl; tauto).
    cbn beta iota.
    set (s2 := set_stats _ s1).
    assert (Hok2 : stats_ok s2) by (apply stats_ok_insert; exact Hok1).
    unfold bind at 1.
    assert (Hkeep : preserves (keeps "messages") (create_contact_folder cfg env info)).
    { unfold create_contact_folder. keeps_tac. }
    specialize (Hkeep s2 Hok2) as [Hok3 _].
    destruct (create_contact_folder cfg env info s2) as [[contact_folder|e] s3];
      cbn beta iota delta [fst snd] in *; [|discriminate].
    unfold bind.
    destruct (returns_for_each _ _ (msg :: rest)
                (fun acc0 m => process_message_returns cfg env conn info contact_folder acc0 m)
                (acc ++ [conversation_header info chat_id]) s3 Hok3)
      as (acc' & E & Hchain & _).
    apply chain_message_chunks in Hchain as (chunks & -> & Hall).
    destruct (for_each _ (msg :: rest) _ s3) as [r s4]. simpl in E. subst r.
    simpl. intros H. injection H as <-.
    exists chunks. split; [|split; [exact Hall|]].
    + rewrite <- !app_assoc. reflexivity.
    + intros Hsorted.
      exact (line_dates_of_chunks conn info (msg :: rest) chunks Hall Hsorted).
Qed.

Lemma transcript_in_reader_order_witness :
  exists chunks,
    fst (for_each
           (process_message (Sample.cfg false true) (Sample.env [Sample.photo])
              (Sample.conn [Sample.photo])
              {| display_name := Some "Alice"; handles := {[ Sample.alice ]};
                 chat_identifier := Sample.alice |} Sample.folder)
           (get_messages_for_chat (Sample.conn [Sample.photo]) Sample.alice) []
           (Sample.fresh Sample.disk))
      = Ok ([] ++ concat chunks)
    /\ Forall2 (message_chunk (Sample.conn [Sample.photo])
                  {| display_name := Some "Alice"; handles := {[ Sample.alice ]};
                     chat_identifier := Sample.alice |})
         (get_messages_for_chat (Sample.conn [Sample.photo]) Sample.alice) chunks
    /\ (StronglySorted date_le
          (map m_date (get_messages_for_chat (Sample.conn [Sample.photo]) Sample.alice)) ->
        StronglySorted date_le
          (line_dates (get_messages_for_chat (Sample.conn [Sample.photo]) Sample.alice) chunks)).
Proof.
  exact (proj1 (transcript_in_reader_order (Sample.cfg false true) (Sample.env [Sample.photo])
                  (Sample.conn [Sample.photo]) Sample.alice
                  {| display_name := Some "Alice"; handles := {[ Sample.alice ]};
                     chat_identifier := Sample.alice |} Sample.folder []
                  (Sample.fresh Sample.disk) (init_stats_ok Sample.disk []))).
Defined.

(** ** A dry run against a real run *)




(** * Further properties of the code *)

(** ** More on the string helpers *)

Lemma replace_absent old new s :
  PyStr.contains old s = false -> PyStr.replace old new s = s.
Proof.
  induction s as [|c s IH]; simpl; [reflexivity|].
  intros H. apply orb_false_iff in H as [Hc Hs]. rewrite (IH Hs).
  destruct (PyStr.chr_eqb c old) eqn:E; [|reflexivity].
  apply chr_eqb_eq in E. subst c. rewrite chr_eqb_refl in Hc. discriminate.
Qed.

Lemma replace_all_absent chars new s :
  forallb (fun c => negb (PyStr.contains c s)) chars = true ->
  fold_left (fun n char => PyStr.replace char new n) chars s = s.
Proof.
  induction chars as [|c chars IH]; simpl; [reflexivity|].
  intros H. apply andb_true_iff in H as [Hc Hrest].
  rewrite replace_absent by (apply negb_true_iff; exact Hc). apply IH. exact Hrest.
Qed.

Lemma lstrip_kept chars s :
  match first_chr s with Some c => PyStr.chr_in c chars = false | None => True end ->
  PyStr.lstrip chars s = s.
Proof. destruct s as [|c s]; simpl; [reflexivity|]. intros ->. reflexivity. Qed.

Lemma first_chr_lstrip chars s c :
  first_chr (PyStr.lstrip chars s) = Some c -> PyStr.chr_in c chars = false.
Proof.
  induction s as [|d s IH]; simpl; [discriminate|].
  destruct (PyStr.chr_in d chars) eqn:E; [exact IH|].
  simpl. intros H. injection H as <-. exact E.
Qed.

Lemma last_chr_cons c s : exists d, last_chr (String c s) = Some d.
Proof.
  revert c. induction s as [|e s IH]; intros c; [exists c; reflexivity|].
  destruct (IH e) as [d Hd]. exists d. exact Hd.
Qed.

Lemma rstrip_cons chars c s :
  PyStr.chr_in c chars = false ->
  PyStr.rstrip chars (String c s) = String c (PyStr.rstrip chars s).
Proof. intros H. simpl. rewrite H. destruct (PyStr.rstrip chars s); reflexivity. Qed.

Lemma last_chr_rstrip chars s c :
  last_chr (PyStr.rstrip chars s) = Some c -> PyStr.chr_in c chars = false.
Proof.
  induction s as [|d s IH]; simpl; [discriminate|].
  destruct (PyStr.rstrip chars s) as [|e r].
  - destruct (PyStr.chr_in d chars) eqn:E; simpl; [discriminate|].
    intros H. injection H as <-. exact E.
  - exact IH.
Qed.

Lemma rstrip_kept chars s :
  match last_chr s with Some c => PyStr.chr_in c chars = false | None => True end ->
  PyStr.rstrip chars s = s.
Proof.
  induction s as [|d s IH]; [reflexivity|].
  destruct s as [|e s].
  - simpl. intros ->. reflexivity.
  - intros H. change (last_chr (String d (String e s))) with (last_chr (String e s)) in H.
    specialize (IH H).
    change (PyStr.rstrip chars (String d (String e s)))
      with (match PyStr.rstrip chars (String e s) with
            | EmptyString => if PyStr.chr_in d chars then EmptyString else String d EmptyString
            | r => String d r
            end).
    rewrite IH. reflexivity.
Qed.

Lemma length_rstrip chars s :
  (String.length (PyStr.rstrip chars s) <= String.length s)%nat.
Proof.
  induction s as [|d s IH]; simpl; [lia|].
  destruct (PyStr.rstrip chars s) as [|e r].
  - destruct (PyStr.chr_in d chars); simpl; lia.
  - simpl in *. lia.
Qed.

Lemma take_all n s : (String.length s <= n)%nat -> PyStr.take n s = s.
Proof.
  revert s. induction n as [|n IH]; intros [|c s]; simpl; try reflexivity; try lia.
  intros H. rewrite IH by lia. reflexivity.
Qed.

Lemma first_chr_take n s : first_chr (PyStr.take (S n) s) = first_chr s.
Proof. destruct s; reflexivity. Qed.

Lemma first_chr_strip chars s c :
  first_chr (PyStr.strip chars s) = Some c -> PyStr.chr_in c chars = false.
Proof.
  unfold PyStr.strip. pose proof (first_chr_lstrip chars s) as Hl.
  destruct (PyStr.lstrip chars s) as [|d t]; [discriminate|].
  specialize (Hl d eq_refl). rewrite (rstrip_cons chars d t Hl). simpl.
  intros H. injection H as <-. exact Hl.
Qed.

Lemma cleaned_safe name :
  safe_name name = true -> cleaned name = name.
Proof.
  unfold safe_name. intros H.
  apply andb_true_iff in H as [H Hlen]. apply andb_true_iff in H as [H Hlast].
  apply andb_true_iff in H as [Hchars Hfirst].
  unfold cleaned. rewrite (replace_all_absent _ _ _ Hchars).
  unfold PyStr.strip.
  rewrite lstrip_kept.
  2:{ destruct (first_chr name); [|exact I]. apply negb_true_iff. exact Hfirst. }
  rewrite rstrip_kept.
  2:{ destruct (last_chr name); [|exact I]. apply negb_true_iff. exact Hlast. }
  apply Z.leb_le in Hlen.
  destruct (100 <? _) eqn:E; [apply Z.ltb_lt in E; lia | reflexivity].
Qed.

Lemma first_chr_cleaned name c :
  first_chr (cleaned name) = Some c -> PyStr.chr_in c [" "; "."]%char = false.
Proof.
  unfold cleaned. destruct (100 <? _).
  - change 100%nat with (S 99). rewrite first_chr_take. apply first_chr_strip.
  - apply first_chr_strip.
Qed.

Lemma first_chr_sanitize name :
  kept_at_edge (first_chr (sanitize_filename name)) = true.
Proof.
  unfold sanitize_filename. destruct (negb (PyStr.truthy name)); [reflexivity|].
  cbv zeta. pose proof (first_chr_cleaned (default EmptyString name)) as H.
  destruct (cleaned (default EmptyString name)) as [|c t]; [reflexivity|].
  cbn [PyStr.truthy first_chr kept_at_edge]. rewrite (H c eq_refl). reflexivity.
Qed.

Lemma sanitize_filename_chars name :
  Forall (fun c => PyStr.contains c (sanitize_filename name) = false) problematic_chars
  /\ (String.length (sanitize_filename name) <= 100)%nat.
Proof.
  assert (Hunk : Forall (fun c => PyStr.contains c "Unknown" = false) problematic_chars
                 /\ (String.length "Unknown" <= 100)%nat).
  { split; [repeat constructor | simpl; lia]. }
  unfold sanitize_filename. destruct (negb (PyStr.truthy name)); [exact Hunk|].
  cbv zeta. pose proof (length_cleaned (default EmptyString name)) as Hlen.
  assert (Hsafe : Forall (fun c => PyStr.contains c (cleaned (default EmptyString name)) = false)
                    problematic_chars).
  { apply Forall_forall. intros c Hc. apply contains_cleaned.
    apply list_elem_of_In. exact Hc. }
  destruct (cleaned (default EmptyString name)) as [|c t]; [exact Hunk|].
  split; [exact Hsafe | exact Hlen].
Qed.

(** X1.  A name that is already safe (none of the nine problematic
    characters, neither starting nor ending with a space or a dot, at
    most 100 characters) is returned by [sanitize_filename] as it is. *)
Theorem sanitize_filename_fixes_safe_names (name : string) :
  safe_name name = true -> sanitize_filename (Some name) = name.
Proof.
  intros H. pose proof (cleaned_safe name H) as Hc.
  unfold sanitize_filename.
  destruct name as [|c name]; [discriminate H|].
  change (default EmptyString (Some (String c name))) with (String c name).
  cbn [PyStr.truthy negb]. cbv zeta. rewrite Hc. reflexivity.
Qed.

Lemma sanitize_filename_fixes_safe_names_witness :
  sanitize_filename (Some "Alice (+15551234567)") = "Alice (+15551234567)".
Proof. apply (sanitize_filename_fixes_safe_names "Alice (+15551234567)"). reflexivity. Defined.

Lemma safe_rstrip name :
  Forall (fun c => PyStr.contains c name = false) problematic_chars ->
  kept_at_edge (first_chr name) = true ->
  (String.length name <= 100)%nat ->
  sanitize_filename (Some name) = PyStr.rstrip [" "; "."]%char name
  /\ safe_name (PyStr.rstrip [" "; "."]%char name) = true.
Proof.
  intros Hchars Hfirst Hlen.
  destruct name as [|c name]; [discriminate Hfirst|].
  cbn [first_chr kept_at_edge] in Hfirst. apply negb_true_iff in Hfirst.
  assert (Hforallb : forall t, Forall (fun c => PyStr.contains c t = false) problematic_chars ->
            forallb (fun c => negb (PyStr.contains c t)) problematic_chars = true).
  { intros t Ht. apply forallb_forall. intros d Hd. apply negb_true_iff.
    rewrite Forall_forall in Ht. apply Ht. apply list_elem_of_In. exact Hd. }
  pose proof (length_rstrip [" "; "."]%char (String c name)) as Hlen'.
  pose proof (last_chr_rstrip [" "; "."]%char (String c name)) as Hlast.
  assert (Hsafe : safe_name (PyStr.rstrip [" "; "."]%char (String c name)) = true).
  { unfold safe_name. rewrite Hforallb.
    2:{ apply Forall_forall. intros d Hd. apply contains_rstrip.
        rewrite Forall_forall in Hchars. apply Hchars. exact Hd. }
    rewrite (rstrip_cons _ c name Hfirst) in *. cbn [first_chr kept_at_edge]. rewrite Hfirst.
    cbn [negb andb].
    destruct (last_chr (String c (PyStr.rstrip [" "; "."]%char name))) as [d|] eqn:El.
    - cbn [kept_at_edge]. rewrite (Hlast d eq_refl). cbn [negb andb].
      apply Z.leb_le. lia.
    - destruct (last_chr_cons c (PyStr.rstrip [" "; "."]%char name)) as [d Hd].
      congruence. }
  split; [|exact Hsafe].
  unfold sanitize_filename.
  change (default EmptyString (Some (String c name))) with (String c name).
  cbn [PyStr.truthy negb]. cbv zeta.
  assert (Hcl : cleaned (String c name) = PyStr.rstrip [" "; "."]%char (String c name)).
  { unfold cleaned. rewrite (replace_all_absent _ _ _ (Hforallb _ Hchars)).
    unfold PyStr.strip. rewrite lstrip_kept by exact Hfirst.
    destruct (100 <? _) eqn:E; [apply Z.ltb_lt in E; lia | reflexivity]. }
  rewrite Hcl. rewrite (rstrip_cons _ c name Hfirst). reflexivity.
Qed.

(** X2.  The name [sanitize_filename] returns never starts with a space
    or a dot, so it is neither [.] nor [..] nor a hidden name.  It may
    still end with one of them: the cut to 100 characters comes after
    the strip, so one pass does not always give a safe name, while a
    second pass over the result always does. *)
Theorem sanitize_filename_twice :
  (forall name, kept_at_edge (first_chr (sanitize_filename name)) = true)
  /\ (forall name,
        safe_name (sanitize_filename (Some (sanitize_filename name))) = true)
  /\ (exists name, safe_name (sanitize_filename (Some name)) = false).
Proof.
  split; [exact first_chr_sanitize|]. split.
  - intros name.
    destruct (sanitize_filename_chars name) as [Hchars Hlen].
    destruct (safe_rstrip (sanitize_filename name) Hchars (first_chr_sanitize name) Hlen)
      as [-> Hsafe].
    exact Hsafe.
  - exists (str_repeat "a" 99 +:+ ".b"). vm_compute. reflexivity.
Qed.

(** ** Plug-in payloads by their extension *)

Lemma endswith_spec s suffix :
  PyStr.endswith s suffix = true <-> exists stem, s = stem +:+ suffix.
Proof.
  induction s as [|c s IH].
  - change (PyStr.endswith EmptyString suffix) with (String.eqb EmptyString suffix || false).
    rewrite orb_false_r. split.
    + intros H. apply String.eqb_eq in H. exists EmptyString. exact H.
    + intros [stem H]. destruct stem; [|discriminate H]. apply String.eqb_eq. exact H.
  - change (PyStr.endswith (String c s) suffix)
      with (String.eqb (String c s) suffix || PyStr.endswith s suffix).
    rewrite orb_true_iff, IH. split.
    + intros [H | [stem ->]].
      * apply String.eqb_eq in H. exists EmptyString. exact H.
      * exists (String c stem). reflexivity.
    + intros [[|d stem] H].
      * left. apply String.eqb_eq. exact H.
      * right. injection H as _ ->. exists stem. reflexivity.
Qed.

Lemma lower_app a b : PyStr.lower (a +:+ b) = PyStr.lower a +:+ PyStr.lower b.
Proof. induction a as [|c a IH]; simpl; [reflexivity|]. rewrite IH. reflexivity. Qed.

Lemma lower_chr_idem c : PyStr.lower_chr (PyStr.lower_chr c) = PyStr.lower_chr c.
Proof. destruct c as [[] [] [] [] [] [] [] []]; reflexivity. Qed.

Lemma lower_idem s : PyStr.lower (PyStr.lower s) = PyStr.lower s.
Proof. induction s as [|c s IH]; simpl; [reflexivity|]. rewrite lower_chr_idem, IH. reflexivity. Qed.

Lemma plugin_extension_not_empty ext stem :
  In ext plugin_extensions -> stem +:+ PyStr.lower ext <> EmptyString.
Proof.
  simpl. intros H.
  repeat (destruct H as [<-|H]; [destruct stem; discriminate|]). contradiction.
Qed.

Lemma is_plugin_attachment_endswith name :
  is_plugin_attachment (Some name) = true <->
  exists stem ext, In ext plugin_extensions /\ PyStr.lower name = stem +:+ PyStr.lower ext.
Proof.
  destruct name as [|c rest].
  - split; [discriminate|]. intros (stem & ext & Hin & H). exfalso.
    apply (plugin_extension_not_empty ext stem Hin). symmetry. exact H.
  - unfold is_plugin_attachment. rewrite existsb_exists. split.
    + intros (ext & Hin & H). apply endswith_spec in H as [stem H]. exists stem, ext. auto.
    + intros (stem & ext & Hin & H). exists ext. split; [exact Hin|].
      apply endswith_spec. exists stem. exact H.
Qed.

(** X3.  [is_plugin_attachment] is true exactly for a name whose
    lower-cased form ends with one of the five extensions, lower-cased;
    [None] and the empty name are never plug-in payloads.  So every name
    made of a stem and one of the extensions is recognised, and the case
    of the ASCII letters of a name is ignored. *)
Theorem is_plugin_attachment_by_extension :
  (forall filename,
     is_plugin_attachment filename = true <->
     exists name stem ext,
       filename = Some name /\ In ext plugin_extensions
       /\ PyStr.lower name = stem +:+ PyStr.lower ext)
  /\ (forall stem ext,
        In ext plugin_extensions -> is_plugin_attachment (Some (stem +:+ ext)) = true)
  /\ (forall name,
        is_plugin_attachment (Some (PyStr.lower name)) = is_plugin_attachment (Some name)).
Proof.
  split; [|split].
  - intros [name|].
    + rewrite is_plugin_attachment_endswith. split.
      * intros (stem & ext & H). exists name, stem, ext. auto.
      * intros (name' & stem & ext & E & H). injection E as <-. exists stem, ext. exact H.
    + split; [discriminate|]. intros (name & stem & ext & E & _). discriminate E.
  - intros stem ext Hin. apply is_plugin_attachment_endswith.
    exists (PyStr.lower stem), ext. split; [exact Hin | apply lower_app].
  - intros name.
    destruct (is_plugin_attachment (Some name)) eqn:E.
    + apply is_plugin_attachment_endswith. rewrite lower_idem.
      apply is_plugin_attachment_endswith. exact E.
    + destruct (is_plugin_attachment (Some (PyStr.lower name))) eqn:E'; [|reflexivity].
      apply is_plugin_attachment_endswith in E'. rewrite lower_idem in E'.
      apply is_plugin_attachment_endswith in E'. congruence.
Qed.

(** ** Short codes *)

Lemma formatting_chr_not_digit c :
  PyStr.chr_in c formatting_chars = true -> is_digit c = false.
Proof.
  unfold formatting_chars. cbn [PyStr.chr_in]. rewrite !orb_true_iff.
  intros [H|[H|[H|[H|[H|H]]]]]; try (apply chr_eqb_eq in H; subst c; reflexivity).
  discriminate H.
Qed.

Lemma clean_number_cons d s :
  str_remove ")" (str_remove "(" (str_remove " " (str_remove "-" (str_remove "+" (String d s)))))
  = if PyStr.chr_in d formatting_chars
    then str_remove ")" (str_remove "(" (str_remove " " (str_remove "-" (str_remove "+" s))))
    else String d
           (str_remove ")" (str_remove "(" (str_remove " " (str_remove "-" (str_remove "+" s))))).
Proof.
  unfold formatting_chars. cbn [PyStr.chr_in str_remove].
  destruct (PyStr.chr_eqb d "+"); cbn [orb str_remove]; [reflexivity|].
  destruct (PyStr.chr_eqb d "-"); cbn [orb str_remove]; [reflexivity|].
  destruct (PyStr.chr_eqb d " "); cbn [orb str_remove]; [reflexivity|].
  destruct (PyStr.chr_eqb d "("); cbn [orb str_remove]; [reflexivity|].
  destruct (PyStr.chr_eqb d ")"); cbn [orb str_remove]; reflexivity.
Qed.

Lemma clean_number_digits s :
  let clean_number :=
    str_remove ")" (str_remove "(" (str_remove " " (str_remove "-" (str_remove "+" s)))) in
  all_digits clean_number = digits_or formatting_chars s
  /\ (digits_or formatting_chars s = true -> String.length clean_number = count_digits s).
Proof.
  induction s as [|d s [IH1 IH2]]; [split; reflexivity|].
  cbv zeta in *. rewrite clean_number_cons.
  cbn [digits_or count_digits].
  destruct (PyStr.chr_in d formatting_chars) eqn:E.
  - rewrite (formatting_chr_not_digit d E). cbn [orb andb]. split; [exact IH1|].
    intros H. rewrite (IH2 H). reflexivity.
  - rewrite orb_false_r. cbn [all_digits String.length]. rewrite IH1. split; [reflexivity|].
    intros H. apply andb_true_iff in H as [Hd Hs]. rewrite Hd, (IH2 Hs). reflexivity.
Qed.

Lemma is_short_code_number_digits (s : string) :
  is_short_code_number (Some s) = true <->
  digits_or formatting_chars s = true /\ (1 <= count_digits s <= 6)%nat.
Proof.
  destruct (clean_number_digits s) as [Hall Hlen]. cbv zeta in Hall, Hlen.
  unfold is_short_code_number.
  destruct s as [|c s].
  { split; [discriminate|]. intros [_ H]. simpl in H. lia. }
  cbn [PyStr.truthy negb]. cbv zeta.
  change (default EmptyString (Some (String c s))) with (String c s).
  set (clean_number := str_remove ")" _) in *.
  unfold isdigit. rewrite Hall. split.
  - intros H.
    destruct (PyStr.truthy (Some clean_number) && digits_or formatting_chars (String c s)
              && (Z.of_nat (String.length clean_number) <=? 6)) eqn:E; [|discriminate H].
    apply andb_true_iff in E as [E Hsix]. apply andb_true_iff in E as [Hne Hd].
    split; [exact Hd|].
    rewrite <- (Hlen Hd). apply Z.leb_le in Hsix.
    destruct clean_number; [discriminate Hne|]. simpl in *. lia.
  - intros [Hd Hcount].
    rewrite Hd. rewrite <- (Hlen Hd) in Hcount.
    destruct clean_number as [|e r]; [simpl in Hcount; lia|].
    cbn [PyStr.truthy andb].
    destruct (Z.of_nat (String.length (String e r)) <=? 6) eqn:E; [reflexivity|].
    apply Z.leb_gt in E. lia.
Qed.

(** X4.  On ASCII text [is_short_code_number] is true exactly when the
    identifier is made of digits and of the formatting characters plus,
    minus, space and the two parentheses only, and holds at least one
    and at most six digits; the formatting characters do not count.
    The empty identifier and [None] are not short codes. *)
Theorem is_short_code_number_spec (s : string) :
  ascii_text s = true ->
  (is_short_code_number (Some s) = true <->
   digits_or formatting_chars s = true /\ (1 <= count_digits s <= 6)%nat)
  /\ is_short_code_number (Some EmptyString) = false
  /\ is_short_code_number None = false.
Proof.
  intros _. split; [apply is_short_code_number_digits|]. split; reflexivity.
Qed.

Lemma is_short_code_number_spec_witness :
  is_short_code_number (Some "(262) 966") = true
  /\ is_short_code_number (Some "+1 (555) 123-4567") = false.
Proof.
  destruct (is_short_code_number_spec "(262) 966" eq_refl) as [[_ Hyes] _].
  destruct (is_short_code_number_spec "+1 (555) 123-4567" eq_refl) as [[Hno _] _].
  split.
  - apply Hyes. split; [reflexivity | simpl; lia].
  - destruct (is_short_code_number (Some "+1 (555) 123-4567")) eqn:E; [|reflexivity].
    destruct (Hno eq_refl) as [_ Hcount]. simpl in Hcount. lia.
Defined.

(** ** The progress bar *)

(** X5.  For a position between 0 and a positive total, as in the loop
    over the chats, the bar of [print_progress] has exactly 30 cells:
    [30 * current // total] full ones followed by shaded ones, and it is
    full only at the last position. *)
Theorem progress_bar_in_range (current total : Z) :
  0 < total -> 0 <= current <= total ->
  exists filled,
    progress_bar current total
    = Some (repeat Full (Z.to_nat filled) ++ repeat Shade (Z.to_nat (30 - filled)))
    /\ filled = 30 * current / total
    /\ 0 <= filled <= 30
    /\ (filled = 30 <-> current = total)
    /\ forall bar, progress_bar current total = Some bar -> length bar = 30%nat.
Proof.
  intros Htotal Hcur. exists (30 * current / total).
  assert (Hlo : 0 <= 30 * current / total) by (apply Z.div_pos; lia).
  assert (Hhi : 30 * current / total <= 30) by (apply Z.div_le_upper_bound; lia).
  assert (Hrun : progress_bar current total
                 = Some (repeat Full (Z.to_nat (30 * current / total))
                           ++ repeat Shade (Z.to_nat (30 - 30 * current / total)))).
  { unfold progress_bar. destruct (total =? 0) eqn:E; [apply Z.eqb_eq in E; lia|]. reflexivity. }
  split; [exact Hrun|]. split; [reflexivity|]. split; [lia|]. split.
  - split.
    + intros H. pose proof (Z.mul_div_le (30 * current) total Htotal) as Hle.
      rewrite H in Hle. lia.
    + intros ->. rewrite Z.div_mul by lia. reflexivity.
  - intros bar Hbar. rewrite Hrun in Hbar. injection Hbar as <-.
    rewrite length_app, !repeat_length. lia.
Qed.

Lemma progress_bar_in_range_witness :
  exists filled,
    progress_bar 1 3
    = Some (repeat Full (Z.to_nat filled) ++ repeat Shade (Z.to_nat (30 - filled)))
    /\ filled = 30 * 1 / 3
    /\ 0 <= filled <= 30
    /\ (filled = 30 <-> 1 = 3)
    /\ forall bar, progress_bar 1 3 = Some bar -> length bar = 30%nat.
Proof. apply (progress_bar_in_range 1 3); lia. Defined.

(** ** The grouping of the chat rows *)

Lemma chats_has_In chat_id (chats : list (string * chat_info)) :
  chats_has chat_id chats = true <-> In chat_id (map fst chats).
Proof.
  unfold chats_has. rewrite existsb_exists, in_map_iff. split.
  - intros (entry & Hin & E). apply String.eqb_eq in E. exists entry. auto.
  - intros (entry & E & Hin). exists entry. split; [exact Hin|]. apply String.eqb_eq. exact E.
Qed.

Lemma chats_add_handle_keys chat_id handle chats :
  map fst (chats_add_handle chat_id handle chats) = map fst chats.
Proof.
  unfold chats_add_handle. rewrite map_map. apply map_ext.
  intros entry. destruct (String.eqb (fst entry) chat_id); reflexivity.
Qed.

Lemma chats_add_handle_In chat_id handle chats k info' :
  In (k, info') (chats_add_handle chat_id handle chats) ->
  exists info,
    In (k, info) chats
    /\ chat_identifier info' = chat_identifier info
    /\ display_name info' = display_name info
    /\ handles info' = if String.eqb k chat_id then {[ handle ]} ∪ handles info
                       else handles info.
Proof.
  unfold chats_add_handle. rewrite in_map_iff. intros ([k0 info] & E & Hin).
  cbn [fst snd] in E. destruct (String.eqb k0 chat_id) eqn:Ek; injection E as <- <-.
  - exists info. rewrite Ek. auto.
  - exists info. rewrite Ek. auto.
Qed.

Lemma truthy_Some (o : option string) :
  PyStr.truthy o = true <-> exists h, o = Some h /\ h <> EmptyString.
Proof.
  destruct o as [[|c h]|]; simpl; split; try discriminate.
  - intros (h & E & Hne). injection E as <-. contradiction.
  - intros _. eexists. split; [reflexivity | discriminate].
  - reflexivity.
  - intros (h & E & _). discriminate E.
Qed.

(** The invariant of the loop [for row in results]. *)
Lemma group_row_invariant rows chats row :
  NoDup (map fst chats) ->
  (forall k, In k (map fst chats) <-> In k (map r_chat_identifier rows)) ->
  Forall (grouped_from rows) chats ->
  NoDup (map fst (group_row chats row))
  /\ (forall k, In k (map fst (group_row chats row))
                <-> In k (map r_chat_identifier (rows ++ [row])))
  /\ Forall (grouped_from (rows ++ [row])) (group_row chats row).
Proof.
  intros Hnodup Hkeys Hall.
  set (chat_id := r_chat_identifier row).
  set (chats1 :=
         if chats_has chat_id chats then chats
         else chats ++ [(chat_id,
                         {| display_name := py_or (r_display_name row) (r_room_name row);
                            handles := ∅;
                            chat_identifier := chat_id |})]).
  (* the dictionary after the insertion of a missing key *)
  assert (H1 : NoDup (map fst chats1)
               /\ (forall k, In k (map fst chats1)
                             <-> In k (map r_chat_identifier (rows ++ [row])))
               /\ Forall (fun entry =>
                    chat_identifier (snd entry) = fst entry
                    /\ (forall handle,
                          handle ∈ handles (snd entry) <->
                          handle <> EmptyString
                          /\ exists r, In r rows /\ r_chat_identifier r = fst entry
                                       /\ r_phone_or_email r = Some handle)
                    /\ exists before r after,
                         rows ++ [row] = before ++ r :: after
                         /\ Forall (fun r => r_chat_identifier r <> fst entry) before
                         /\ r_chat_identifier r = fst entry
                         /\ display_name (snd entry) = py_or (r_display_name r) (r_room_name r))
                    chats1).
  { assert (Hold : Forall (fun entry =>
                    chat_identifier (snd entry) = fst entry
                    /\ (forall handle,
                          handle ∈ handles (snd entry) <->
                          handle <> EmptyString
                          /\ exists r, In r rows /\ r_chat_identifier r = fst entry
                                       /\ r_phone_or_email r = Some handle)
                    /\ exists before r after,
                         rows ++ [row] = before ++ r :: after
                         /\ Forall (fun r => r_chat_identifier r <> fst entry) before
                         /\ r_chat_identifier r = fst entry
                         /\ display_name (snd entry) = py_or (r_display_name r) (r_room_name r))
                    chats).
    { eapply Forall_impl; [exact Hall|]. intros [k info] (Hid & Hh & before & r & after & E & Hb & Hr & Hd).
      cbn [fst snd]. split; [exact Hid|]. split; [exact Hh|].
      exists before, r, (after ++ [row]). split; [rewrite E, <- app_assoc; reflexivity|]. auto. }
    subst chats1. destruct (chats_has chat_id chats) eqn:Ehas.
    - split; [exact Hnodup|]. split; [|exact Hold].
      intros k. rewrite Hkeys, map_app, in_app_iff. cbn [map In]. fold chat_id.
      split; [tauto|]. intros [H|[<-|[]]]; [exact H|].
      apply Hkeys. apply chats_has_In. exact Ehas.
    - assert (Hfresh : ~ In chat_id (map fst chats)).
      { intros H. apply chats_has_In in H. congruence. }
      rewrite map_app. cbn [map fst]. split; [|split].
      + apply NoDup_ListNoDup. apply NoDup_ListNoDup in Hnodup.
        apply List.NoDup_app; [exact Hnodup | repeat constructor; simpl; tauto|].
        intros k Hk Hk'. cbn [In] in Hk'. destruct Hk' as [<-|[]]. exact (Hfresh Hk).
      + intros k. rewrite !in_app_iff, Hkeys, map_app, in_app_iff. reflexivity.
      + apply Forall_app. split; [exact Hold|]. constructor; [|constructor].
        cbn [fst snd chat_identifier handles display_name].
        split; [reflexivity|]. split.
        * intros handle. split; [intros H; apply not_elem_of_empty in H; contradiction|].
          intros (_ & r & Hin & Hr & _). exfalso. apply Hfresh, Hkeys.
          rewrite <- Hr. apply in_map. exact Hin.
        * exists rows, row, []. split; [reflexivity|]. split; [|auto].
          apply Forall_forall. intros r Hr E. apply Hfresh, Hkeys.
          rewrite <- E. apply in_map. apply list_elem_of_In. exact Hr. }
  destruct H1 as (Hnodup1 & Hkeys1 & Hall1).
  assert (Hstep : group_row chats row
                  = if PyStr.truthy (r_phone_or_email row)
                    then chats_add_handle chat_id (default EmptyString (r_phone_or_email row)) chats1
                    else chats1) by reflexivity.
  rewrite Hstep. clear Hstep.
  destruct (PyStr.truthy (r_phone_or_email row)) eqn:Etruthy.
  - apply truthy_Some in Etruthy as (h0 & Eh0 & Hne0). rewrite Eh0. cbn [default].
    rewrite chats_add_handle_keys. split; [exact Hnodup1|]. split; [exact Hkeys1|].
    apply Forall_forall. intros [k info'] Hin. apply list_elem_of_In in Hin.
    apply chats_add_handle_In in Hin as (info & Hin & Eid & Edn & Ehs).
    rewrite Forall_forall in Hall1. apply list_elem_of_In in Hin.
    specialize (Hall1 _ Hin) as (Hid & Hh & Hfirst). cbn [fst snd] in *.
    cbn [grouped_from]. rewrite Eid, Edn. split; [exact Hid|]. split; [|exact Hfirst].
    intros handle. rewrite Ehs.
    destruct (String.eqb k chat_id) eqn:Ek.
    + apply String.eqb_eq in Ek. subst k.
      rewrite elem_of_union, elem_of_singleton, Hh. split.
      * intros [-> | (Hne & r & Hr & Hrid & Hrh)].
        -- split; [exact Hne0|]. exists row. rewrite in_app_iff. simpl. auto.
        -- split; [exact Hne|]. exists r. rewrite in_app_iff. auto.
      * intros (Hne & r & Hr & Hrid & Hrh). apply in_app_iff in Hr as [Hr|[<-|[]]].
        -- right. split; [exact Hne|]. exists r. auto.
        -- left. change (handle = h0). congruence.
    + rewrite Hh. split.
      * intros (Hne & r & Hr & Hrid & Hrh). split; [exact Hne|]. exists r.
        rewrite in_app_iff. auto.
      * intros (Hne & r & Hr & Hrid & Hrh). split; [exact Hne|].
        apply in_app_iff in Hr as [Hr|[<-|[]]]; [exists r; auto|].
        apply String.eqb_neq in Ek. exfalso. apply Ek. symmetry. exact Hrid.
  - split; [exact Hnodup1|]. split; [exact Hkeys1|].
    eapply Forall_impl; [exact Hall1|]. intros [k info] (Hid & Hh & Hfirst).
    cbn [fst snd] in *. cbn [grouped_from]. split; [exact Hid|]. split; [|exact Hfirst].
    intros handle. rewrite Hh. split.
    + intros (Hne & r & Hr & Hrid & Hrh). split; [exact Hne|]. exists r.
      rewrite in_app_iff. auto.
    + intros (Hne & r & Hr & Hrid & Hrh). split; [exact Hne|].
      apply in_app_iff in Hr as [Hr|[<-|[]]]; [exists r; auto|].
      exfalso. assert (Ht : PyStr.truthy (r_phone_or_email row) = true).
      { apply truthy_Some. exists handle. auto. }
      congruence.
Qed.

Lemma group_rows_invariant rows :
  NoDup (map fst (fold_left group_row rows []))
  /\ (forall k, In k (map fst (fold_left group_row rows []))
                <-> In k (map r_chat_identifier rows))
  /\ Forall (grouped_from rows) (fold_left group_row rows []).
Proof.
  induction rows as [|row rows IH] using rev_ind.
  - simpl. split; [constructor|]. split; [tauto | constructor].
  - rewrite fold_left_app. cbn [fold_left].
    destruct IH as (H1 & H2 & H3). apply group_row_invariant; assumption.
Qed.

(** X6.  When both queries succeed [get_contacts_and_chats] returns,
    without touching the state, a dictionary whose keys are pairwise
    distinct and are exactly the chat identifiers of the fetched rows:
    a chat appears once however many handles it has, and a chat without
    any handle is still listed. *)
Theorem get_contacts_and_chats_keys conn total results s :
  q_count_chats conn = Rows total -> q_chats conn = Rows results ->
  exists chats,
    get_contacts_and_chats conn s = (Ok chats, s)
    /\ NoDup (map fst chats)
    /\ (forall chat_id,
          In chat_id (map fst chats) <-> In chat_id (map r_chat_identifier results)).
Proof.
  intros Hcount Hrows. unfold get_contacts_and_chats. rewrite Hcount, Hrows.
  destruct (group_rows_invariant results) as (H1 & H2 & _).
  eexists. split; [reflexivity|]. split; assumption.
Qed.

Lemma get_contacts_and_chats_keys_witness :
  exists chats,
    get_contacts_and_chats (Sample.conn []) (Sample.fresh Sample.disk)
    = (Ok chats, Sample.fresh Sample.disk)
    /\ NoDup (map fst chats)
    /\ (forall chat_id, In chat_id (map fst chats) <-> In chat_id [Sample.alice]).
Proof.
  exact (get_contacts_and_chats_keys (Sample.conn []) 1 _ (Sample.fresh Sample.disk)
           eq_refl eq_refl).
Defined.

(** X7.  When both queries succeed, every entry of the dictionary
    [get_contacts_and_chats] returns holds its own key as chat
    identifier, as handles exactly the non-empty [phone_or_email] values
    of the rows of that chat, and as display name the
    [display_name or room_name] of the first of these rows. *)
Theorem get_contacts_and_chats_entries conn total results s :
  q_count_chats conn = Rows total -> q_chats conn = Rows results ->
  exists chats,
    get_contacts_and_chats conn s = (Ok chats, s)
    /\ Forall (grouped_from results) chats.
Proof.
  intros Hcount Hrows. unfold get_contacts_and_chats. rewrite Hcount, Hrows.
  destruct (group_rows_invariant results) as (_ & _ & H3).
  eexists. split; [reflexivity | exact H3].
Qed.

Lemma get_contacts_and_chats_entries_witness :
  exists chats,
    get_contacts_and_chats (Sample.conn []) (Sample.fresh Sample.disk)
    = (Ok chats, Sample.fresh Sample.disk)
    /\ Forall (grouped_from
                 [ {| r_chat_identifier := Sample.alice; r_display_name := Some "Alice";
                      r_room_name := None; r_phone_or_email := Some Sample.alice |} ]) chats.
Proof.
  exact (get_contacts_and_chats_entries (Sample.conn []) 1 _ (Sample.fresh Sample.disk)
           eq_refl eq_refl).
Defined.

(** ** The two fatal cases *)

(** The run of the model in the first fatal case. *)
Lemma export_conversations_no_database cfg env s :
  fs s !! CHAT_DB_PATH cfg = None
  \/ (exists msg, sqlite_connect env (CHAT_DB_PATH cfg) = SqliteFail msg) ->
  export_conversations cfg env s
  = (Ok false, log_call (CallExists (CHAT_DB_PATH cfg)) s).
Proof.
  intros H. unfold export_conversations, connect_to_database, bind, path_exists.
  destruct (fs s !! CHAT_DB_PATH cfg) as [node|] eqn:Hdb.
  - destruct H as [H | [msg H]]; [discriminate H|].
    rewrite bool_decide_eq_true_2 by (eexists; reflexivity). cbn [negb].
    rewrite H. reflexivity.
  - rewrite bool_decide_eq_false_2 by (intros [x Hx]; discriminate Hx). reflexivity.
Qed.

(** X8.  First fatal case.  When the database file is missing, or
    [sqlite3.connect] fails, [export_conversations] returns [False]
    after the single existence check of [CHAT_DB_PATH]: no counter
    changes, and no file or folder changes either, the debug log apart,
    to which the logger appends the records of the failure. *)
Theorem export_without_database cfg env s :
  let s' := snd (export_conversations cfg env s) in
  fs s !! CHAT_DB_PATH cfg = None
  \/ (exists msg, sqlite_connect env (CHAT_DB_PATH cfg) = SqliteFail msg) ->
  fst (export_conversations cfg env s) = Ok false
  /\ stats s' = stats s
  /\ calls s' = calls s ++ [CallExists (CHAT_DB_PATH cfg)]
  /\ same_files_but_log cfg s s'.
Proof.
  intros s' H. subst s'. rewrite (export_conversations_no_database cfg env s H).
  cbn [fst snd]. split; [reflexivity|]. split; [reflexivity|]. split; [reflexivity|].
  intros p _. reflexivity.
Qed.

Lemma export_without_database_witness :
  let run := export_conversations (Sample.cfg false true) (Sample.env []) (Sample.fresh ∅) in
  fst run = Ok false
  /\ stats (snd run) = stats (Sample.fresh ∅)
  /\ calls (snd run)
     = calls (Sample.fresh ∅) ++ [CallExists (CHAT_DB_PATH (Sample.cfg false true))]
  /\ same_files_but_log (Sample.cfg false true) (Sample.fresh ∅) (snd run).
Proof.
  apply (export_without_database (Sample.cfg false true) (Sample.env []) (Sample.fresh ∅)).
  left. reflexivity.
Defined.




(** ** Conversations without messages *)

Lemma process_chats_filter cfg env conn chats acc s :
  for_each (process_chat cfg env conn) chats acc s
  = for_each (process_chat cfg env conn) (List.filter (has_messages conn) chats) acc s.
Proof.
  revert acc s. induction chats as [|[chat_id info] chats IH]; intros acc s; [reflexivity|].
  cbn [List.filter]. unfold has_messages at 1. cbn [fst].
  destruct (get_messages_for_chat conn chat_id) as [|msg rest] eqn:Hmsgs.
  - cbn [for_each]. unfold bind, process_chat at 1. rewrite Hmsgs. cbn. apply IH.
  - cbn [for_each]. unfold bind.
    destruct (process_chat cfg env conn acc (chat_id, info) s) as [[acc'|e] s']; [apply IH|reflexivity].
Qed.

(** X10.  A conversation whose message query fails or returns no row
    is skipped as a whole: [process_chat] returns the transcript and the
    state as they were (no counter, no folder, no header), so the loop
    over the chats is the loop over the chats that have messages. *)
Theorem chats_without_messages_skipped cfg env conn :
  (forall entry,
     has_messages conn entry = false <->
     q_messages conn (fst entry) = Rows []
     \/ exists msg, q_messages conn (fst entry) = SqliteFail msg)
  /\ (forall entry acc s,
        has_messages conn entry = false ->
        process_chat cfg env conn acc entry s = (Ok acc, s))
  /\ (forall chats acc s,
        for_each (process_chat cfg env conn) chats acc s
        = for_each (process_chat cfg env conn) (List.filter (has_messages conn) chats) acc s).
Proof.
  split; [|split].
  - intros entry. unfold has_messages, get_messages_for_chat.
    destruct (q_messages conn (fst entry)) as [[|msg rest]|msg]; split;
      try reflexivity; try discriminate.
    + intros _. left. reflexivity.
    + intros [H | [m H]]; discriminate H.
    + intros _. right. exists msg. reflexivity.
  - intros [chat_id info] acc s. unfold has_messages, process_chat. cbn [fst].
    destruct (get_messages_for_chat conn chat_id); [reflexivity | discriminate].
  - intros chats acc s. apply process_chats_filter.
Qed.

(** ** The totals of the archive *)

Lemma foldr_zero {A} (xs : list A) : foldr (fun _ total => 0 + total) 0 xs = 0.
Proof. induction xs as [|x xs IH]; simpl; [reflexivity | exact IH]. Qed.

Lemma foldr_const_zero {A} (f : A -> Z) (xs : list A) :
  (forall x, f x = 0) -> foldr (fun x total => f x + total) 0 xs = 0.
Proof. intros Hf. induction xs as [|x xs IH]; simpl; [reflexivity|]. rewrite Hf, IH. reflexivity. Qed.

Lemma foldr_ones {A} (xs : list A) :
  foldr (fun _ total => 1 + total) 0 xs = Z.of_nat (length xs).
Proof. induction xs as [|x xs IH]; simpl length; simpl foldr; [reflexivity|]. rewrite IH. lia. Qed.

Lemma expected_conversations conn key :
  key = "conversations" \/ key = "contacts_processed" ->
  expected conn key = Z.of_nat (length (List.filter (has_messages conn) (chats_of conn))).
Proof.
  intros Hkey. unfold expected.
  induction (chats_of conn) as [|entry chats IH]; [reflexivity|].
  cbn [foldr List.filter]. rewrite IH. unfold per_chat, has_messages.
  destruct (get_messages_for_chat conn (fst entry)) as [|msg rest]; [lia|].
  rewrite foldr_const_zero.
  2:{ intros m. unfold per_message.
      destruct Hkey as [-> | ->]; cbn [weight String.eqb Ascii.eqb Bool.eqb];
        rewrite foldr_zero; reflexivity. }
  cbn [length]. destruct Hkey as [-> | ->]; vm_compute weight; lia.
Qed.

Lemma expected_messages conn :
  expected conn "messages" = Z.of_nat (length (all_messages conn)).
Proof.
  unfold expected, all_messages.
  induction (chats_of conn) as [|entry chats IH]; [reflexivity|].
  cbn [foldr flat_map]. rewrite length_app, IH. unfold per_chat.
  assert (H : forall msgs : list message_row,
            foldr (fun msg total => per_message conn "messages" msg + total) 0 msgs
            = Z.of_nat (length msgs)).
  { induction msgs as [|m msgs IHm]; [reflexivity|].
    cbn [foldr length]. rewrite IHm. unfold per_message.
    change (weight "messages" "messages") with 1.
    change (weight "messages" "attachments_found") with 0.
    rewrite foldr_zero. lia. }
  destruct (get_messages_for_chat conn (fst entry)) as [|msg rest] eqn:E; [simpl; lia|].
  rewrite H. change (weight "messages" "conversations") with 0.
  change (weight "messages" "contacts_processed") with 0. lia.
Qed.

Lemma expected_attachments conn :
  expected conn "attachments_found" = Z.of_nat (length (all_attachments conn)).
Proof.
  unfold expected, all_attachments, all_messages.
  induction (chats_of conn) as [|entry chats IH]; [reflexivity|].
  cbn [foldr flat_map]. rewrite flat_map_app, length_app, IH. unfold per_chat.
  assert (H : forall msgs : list message_row,
            foldr (fun msg total => per_message conn "attachments_found" msg + total) 0 msgs
            = Z.of_nat (length (flat_map
                 (fun msg => get_attachments_for_message conn (m_message_id msg)) msgs))).
  { induction msgs as [|m msgs IHm]; [reflexivity|].
    cbn [foldr flat_map]. rewrite length_app, IHm. unfold per_message.
    change (weight "attachments_found" "messages") with 0.
    change (weight "attachments_found" "attachments_found") with 1.
    rewrite foldr_ones. lia. }
  destruct (get_messages_for_chat conn (fst entry)) as [|msg rest] eqn:E; [simpl; lia|].
  rewrite H. change (weight "attachments_found" "conversations") with 0.
  change (weight "attachments_found" "contacts_processed") with 0. lia.
Qed.

(** X11.  After an export that reached the writing of the transcript,
    started on the counters of [__init__]: [conversations] and
    [contacts_processed] are the number of chats with at least one
    message, [messages] is the number of message rows of all chats, and
    [attachments_found] the number of attachment rows of all these
    messages, whatever the outcome of the copies. *)
Theorem export_counters_are_totals cfg env conn s lines :
  stats s = init_stats ->
  fst (export_chats cfg env conn s) = Ok (Some lines) ->
  let final := stats (snd (export_chats cfg env conn s)) in
  let exported := List.filter (has_messages conn) (chats_of conn) in
  final !! "conversations" = Some (VInt (Z.of_nat (length exported)))
  /\ final !! "contacts_processed" = Some (VInt (Z.of_nat (length exported)))
  /\ final !! "messages" = Some (VInt (Z.of_nat (length (all_messages conn))))
  /\ final !! "attachments_found" = Some (VInt (Z.of_nat (length (all_attachments conn)))).
Proof.
  intros Hinit Hret final exported. subst final exported.
  pose proof (fun key => export_chats_static_counters cfg env conn s lines key Hinit Hret)
    as Hstatic.
  split; [|split; [|split]].
  - rewrite <- (expected_conversations conn "conversations") by tauto.
    apply Hstatic. simpl. tauto.
  - rewrite <- (expected_conversations conn "contacts_processed") by tauto.
    apply Hstatic. simpl. tauto.
  - rewrite <- expected_messages. apply Hstatic. simpl. tauto.
  - rewrite <- expected_attachments. apply Hstatic. simpl. tauto.
Qed.

Lemma export_counters_are_totals_witness :
  let run := export_chats (Sample.cfg false true) (Sample.env [Sample.photo])
               (Sample.conn [Sample.photo]) (Sample.fresh Sample.disk) in
  stats (snd run) !! "conversations" = Some (VInt 1)
  /\ stats (snd run) !! "contacts_processed" = Some (VInt 1)
  /\ stats (snd run) !! "messages" = Some (VInt 2)
  /\ stats (snd run) !! "attachments_found" = Some (VInt 1).
Proof.
  exact (export_counters_are_totals (Sample.cfg false true) (Sample.env [Sample.photo])
           (Sample.conn [Sample.photo]) (Sample.fresh Sample.disk) Sample.transcript
           eq_refl eq_refl).
Defined.

(** ** The outcomes of the resolver *)

(** A copy that raises has changed no path but the file it writes to. *)
Lemma copy2_raises_elsewhere env src dst s e s' :
  copy2 env src dst s = (Raise e, s') ->
  forall p, p <> copy_target (fs s) src dst -> fs s' !! p = fs s !! p.
Proof.
  intros H p Hp. revert H. unfold copy2. cbv zeta. cbn [fs log_call].
  destruct (copy_error env src dst) as [msg|];
    destruct (fs s !! src) as [[|content]|];
    try destruct (copy_written env src dst);
    try destruct (is_dir (fs s) (copy_target (fs s) src dst));
    intros H; try discriminate H; injection H as _ <-; try reflexivity.
  cbn [fs set_fs log_call]. apply lookup_insert_ne. congruence.
Qed.

Lemma copy_target_cases f src dst :
  copy_target f src dst = dst
  \/ copy_target f src dst = OsPath.join dst (OsPath.basename src).
Proof. unfold copy_target. destruct (f !! dst) as [[|c]|]; auto. Qed.

(** The table of the outcomes of [copy_attachment] on well-formed
    counters. *)
Lemma copy_attachment_outcomes cfg env a folder s :
  let src := expanduser env (default EmptyString (a_filename a)) in
  let dst := OsPath.join folder (dest_filename_of a (default EmptyString (a_filename a))) in
  stats_ok s ->
  exists success result s',
    copy_attachment cfg env a folder s = (Ok (success, result), s')
    /\ stats_ok s'
    /\ (forall key, key <> "attachments_skipped" -> counter key s' = counter key s)
    /\ (RESUME_MODE cfg = false -> stats s' = stats s)
    /\ (if success
        then result = dest_filename_of a (default EmptyString (a_filename a))
             /\ 0 <= advance "attachments_skipped" s s' <= 1
        else stats s' = stats s
             /\ ((forall msg, result <> "Copy failed: " +:+ msg) -> fs s' = fs s)
             /\ (forall p, p <> dst -> p <> OsPath.join dst (OsPath.basename src) ->
                           fs s' !! p = fs s !! p)).
Proof.
  intros src0 dst0 Hok. subst src0 dst0.
  assert (Hkeep : forall key, key <> "attachments_skipped" ->
            stats_ok (snd (copy_attachment cfg env a folder s))
            /\ counter key (snd (copy_attachment cfg env a folder s)) = counter key s).
  { intros key Hne. apply (copy_attachment_keeps cfg env key a folder Hne s Hok). }
  assert (Hok' : stats_ok (snd (copy_attachment cfg env a folder s))).
  { apply (Hkeep "messages"). discriminate. }
  assert (Hkeys : forall key, key <> "attachments_skipped" ->
            counter key (snd (copy_attachment cfg env a folder s)) = counter key s).
  { intros key Hne. apply (Hkeep key Hne). }
  clear Hkeep. unfold advance.
  destruct (PyStr.truthy (a_filename a)) eqn:Hname.
  2:{ rewrite copy_attachment_no_filename in Hok', Hkeys |- * by exact Hname.
      exists false, "No filename provided", s. repeat split; auto. }
  set (name := dest_filename_of a (default EmptyString (a_filename a))).
  set (dst := OsPath.join folder name).
  set (src := expanduser env (default EmptyString (a_filename a))).
  assert (Hcase : (RESUME_MODE cfg = true /\ is_Some (fs s !! dst))
                  \/ (RESUME_MODE cfg = false \/ fs s !! dst = None)).
  { destruct (RESUME_MODE cfg); [|right; left; reflexivity].
    destruct (fs s !! dst) as [node|]; [left; split; [reflexivity|eexists; reflexivity]|].
    right. right. reflexivity. }
  destruct Hcase as [[Hr Hd] | Hd].
  - rewrite (copy_attachment_resumes cfg env a folder s Hok Hname Hr Hd) in Hok', Hkeys |- *.
    fold name dst in Hok', Hkeys |- *.
    eexists true, name, _. split; [reflexivity|]. split; [exact Hok'|]. split; [exact Hkeys|].
    split; [intros E; congruence|]. split; [reflexivity|].
    rewrite counter_insert_eq.
    change (counter "attachments_skipped" (log_call (CallExists dst) s))
      with (counter "attachments_skipped" s).
    lia.
  - destruct (fs s !! src) as [node|] eqn:Hsrc.
    + assert (Hs : is_Some (fs s !! src)) by (rewrite Hsrc; eexists; reflexivity).
      rewrite (copy_attachment_found cfg env a folder s Hname Hd Hs) in Hok', Hkeys |- *.
      cbv zeta in *. fold name dst src in Hok', Hkeys |- *.
      set (s2 := log_call (CallExists src)
                   (if RESUME_MODE cfg then log_call (CallExists dst) s else s)) in *.
      assert (Hs2 : stats s2 = stats s /\ fs s2 = fs s).
      { subst s2. destruct (RESUME_MODE cfg); split; reflexivity. }
      destruct Hs2 as [Hst2 Hfs2].
      destruct (DRY_RUN cfg).
      * exists true, name, s2. split; [reflexivity|]. split; [exact Hok'|].
        split; [exact Hkeys|]. split; [intros _; exact Hst2|]. split; [reflexivity|].
        unfold counter. rewrite Hst2. lia.
      * pose proof (copy2_raises env src dst s2) as Hraise.
        pose proof (copy2_raises_elsewhere env src dst s2) as Hfiles.
        pose proof (copy2_same_stats env src dst s2) as Hsame. unfold same_stats in Hsame.
        destruct (copy2 env src dst s2) as [[[]|e] s3]; cbn [snd] in Hsame.
        -- exists true, name, s3. split; [reflexivity|]. split; [exact Hok'|].
           split; [exact Hkeys|]. split; [intros _; congruence|]. split; [reflexivity|].
           unfold counter. rewrite Hsame, Hst2. lia.
        -- destruct (Hraise e s3 eq_refl) as [msg ->].
           exists false, ("Copy failed: " +:+ msg), s3. split; [reflexivity|].
           split; [exact Hok'|]. split; [exact Hkeys|]. split; [intros _; congruence|].
           split; [congruence|]. split.
           ++ intros Hnot. exfalso. exact (Hnot msg eq_refl).
           ++ intros p Hp1 Hp2. rewrite <- Hfs2. apply (Hfiles _ _ eq_refl).
              destruct (copy_target_cases (fs s2) src dst) as [-> | ->]; assumption.
    + rewrite (copy_attachment_missing cfg env a folder s Hname Hd Hsrc) in Hok', Hkeys |- *.
      fold name dst src in Hok', Hkeys |- *.
      eexists false, _, _. split; [reflexivity|]. split; [exact Hok'|]. split; [exact Hkeys|].
      assert (E : forall t, stats (log_call (CallExists src)
                              (if RESUME_MODE cfg then log_call (CallExists dst) t else t))
                            = stats t
                            /\ fs (log_call (CallExists src)
                                 (if RESUME_MODE cfg then log_call (CallExists dst) t else t))
                               = fs t).
      { intros t. destruct (RESUME_MODE cfg); split; reflexivity. }
      split; [intros _; apply E|]. split; [apply E|]. split; [intros _; apply E|].
      intros p _ _. rewrite (proj2 (E s)). reflexivity.
Qed.

(** X12.  With the counters of [__init__] in place [copy_attachment]
    never raises: it returns a pair.  A success carries the name of the
    copy.  A failure leaves [stats] as it was; when it is not a failed
    copy (no file name, source missing) it leaves the files as they
    were too, and a failed copy (an [OSError] of [shutil.copy2]) changes
    no path but the file it was writing, which may be left truncated or
    partly written. *)
Theorem copy_attachment_reports_failures cfg env a folder s :
  let src := expanduser env (default EmptyString (a_filename a)) in
  let dst := OsPath.join folder (dest_filename_of a (default EmptyString (a_filename a))) in
  let run := copy_attachment cfg env a folder s in
  stats_ok s ->
  exists success result,
    fst run = Ok (success, result)
    /\ (success = true ->
        result = dest_filename_of a (default EmptyString (a_filename a)))
    /\ (success = false ->
        stats (snd run) = stats s
        /\ ((forall msg, result <> "Copy failed: " +:+ msg) -> fs (snd run) = fs s)
        /\ (forall p, p <> dst -> p <> OsPath.join dst (OsPath.basename src) ->
                      fs (snd run) !! p = fs s !! p)).
Proof.
  intros src dst run Hok. subst run.
  destruct (copy_attachment_outcomes cfg env a folder s Hok)
    as (success & result & s' & Hrun & _ & _ & _ & Hout).
  exists success, result. rewrite Hrun. cbn [fst snd]. split; [reflexivity|].
  destruct success.
  - split; [intros _; apply Hout | discriminate].
  - split; [discriminate | intros _; exact Hout].
Qed.

Lemma copy_attachment_reports_failures_witness :
  let cfg := Sample.cfg false true in
  let env := Sample.env_disk_full [Sample.photo] in
  let run := copy_attachment cfg env Sample.photo Sample.folder (Sample.fresh Sample.disk) in
  exists success result,
    fst run = Ok (success, result)
    /\ (success = true ->
        result = dest_filename_of Sample.photo
                   (default EmptyString (a_filename Sample.photo)))
    /\ (success = false ->
        stats (snd run) = stats (Sample.fresh Sample.disk)
        /\ ((forall msg, result <> "Copy failed: " +:+ msg) ->
            fs (snd run) = fs (Sample.fresh Sample.disk))
        /\ (forall p,
              p <> OsPath.join Sample.folder
                     (dest_filename_of Sample.photo
                        (default EmptyString (a_filename Sample.photo))) ->
              p <> OsPath.join
                     (OsPath.join Sample.folder
                        (dest_filename_of Sample.photo
                           (default EmptyString (a_filename Sample.photo))))
                     (OsPath.basename
                        (expanduser env (default EmptyString (a_filename Sample.photo)))) ->
              fs (snd run) !! p = fs (Sample.fresh Sample.disk) !! p)).
Proof.
  intros cfg env run.
  exact (copy_attachment_reports_failures cfg env Sample.photo Sample.folder
           (Sample.fresh Sample.disk) (init_stats_ok Sample.disk [])).
Defined.

(** A copy stopped by a full disk is reported as a failure, and the part
    already written stays at the destination. *)
Example failed_copy_leaves_a_part :
  let run := copy_attachment (Sample.cfg false true) (Sample.env_disk_full [Sample.photo])
               Sample.photo Sample.folder (Sample.fresh Sample.disk) in
  fst run = Ok (false, "Copy failed: No space left on device")
  /\ fs (snd run) !! OsPath.join Sample.folder "IMG_0001.jpg" = Some (File "JF")
  /\ Sample.disk !! OsPath.join Sample.folder "IMG_0001.jpg" = None.
Proof. vm_compute. repeat split; reflexivity. Qed.

(** ** The counters of the outcomes *)

Lemma process_attachment_advances cfg env folder timestamp sender attachments acc a s :
  stats_ok s ->
  let s' := snd (process_attachment cfg env folder timestamp sender attachments acc a s) in
  stats_ok s'
  /\ advance "attachments_found" s s' = 1
  /\ 0 <= advance "attachments_copied" s s'
  /\ 0 <= advance "attachments_skipped" s s'
  /\ 0 <= advance "attachments_failed" s s'
  /\ advance "attachments_copied" s s' + advance "attachments_failed" s s' <= 1
  /\ advance "attachments_skipped" s s' + advance "attachments_failed" s s' <= 1
  /\ (RESUME_MODE cfg = false -> counter "attachments_skipped" s = 0 ->
      counter "attachments_skipped" s' = 0
      /\ advance "attachments_copied" s s' + advance "attachments_failed" s s' = 1).
Proof.
  intros Hok.
  remember (process_attachment cfg env folder timestamp sender attachments acc a s)
    as run eqn:Erun.
  unfold process_attachment in Erun.
  unfold bind at 1 in Erun.
  rewrite (stat_incr_ok "attachments_found" s Hok) in Erun by (simpl; tauto).
  cbn beta iota in Erun.
  set (s1 := set_stats (insert "attachments_found"
                          (VInt (counter "attachments_found" s + 1))) s) in *.
  assert (Hok1 : stats_ok s1) by (apply stats_ok_insert; exact Hok).
  assert (Hfound1 : counter "attachments_found" s1 = counter "attachments_found" s + 1)
    by apply counter_insert_eq.
  assert (Hother1 : forall key, key <> "attachments_found" -> counter key s1 = counter key s).
  { intros key Hne. apply counter_insert_ne. congruence. }
  destruct (copy_attachment_outcomes cfg env a folder s1 Hok1)
    as (success & result & s2 & Hrun & Hok2 & Hkeep & Hoff & Hout).
  unfold bind at 1 in Erun. rewrite Hrun in Erun. cbn beta iota in Erun.
  pose proof (Hkeep "attachments_found" ltac:(discriminate)) as Hf2.
  pose proof (Hkeep "attachments_copied" ltac:(discriminate)) as Hc2.
  pose proof (Hkeep "attachments_failed" ltac:(discriminate)) as Hx2.
  pose proof (Hother1 "attachments_copied" ltac:(discriminate)) as Hc1.
  pose proof (Hother1 "attachments_failed" ltac:(discriminate)) as Hx1.
  pose proof (Hother1 "attachments_skipped" ltac:(discriminate)) as Hs1.
  assert (Hoff2 : RESUME_MODE cfg = false ->
            counter "attachments_skipped" s2 = counter "attachments_skipped" s1).
  { intros E. unfold counter. rewrite (Hoff E). reflexivity. }
  destruct success.
  - destruct Hout as [_ Hskip]. unfold advance in Hskip.
    unfold bind at 1 in Erun.
    rewrite (stat_get_ok "attachments_skipped" s2 Hok2) in Erun by (simpl; tauto).
    cbn beta iota in Erun. unfold bind at 1, lift, value_gt0 in Erun.
    cbn beta iota zeta in Erun.
    destruct (negb (existsb _ _)) eqn:Eguard.
    + unfold bind in Erun.
      rewrite (stat_incr_ok "attachments_copied" s2 Hok2) in Erun by (simpl; tauto).
      subst run. cbn [snd ret]. unfold advance.
      rewrite counter_insert_eq, !counter_insert_ne by discriminate.
      split; [apply stats_ok_insert; exact Hok2|].
      do 6 (split; [lia|]).
      intros Hoff' Hzero. specialize (Hoff2 Hoff'). lia.
    + unfold bind, ret in Erun. subst run. cbn [snd]. unfold advance.
      split; [exact Hok2|]. do 6 (split; [lia|]).
      intros Hoff' Hzero. specialize (Hoff2 Hoff'). exfalso.
      assert (Hnone : counter "attachments_skipped" s2 = 0) by lia.
      rewrite Hnone in Eguard. discriminate Eguard.
  - destruct Hout as [Hstats _].
    assert (Hsk : counter "attachments_skipped" s2 = counter "attachments_skipped" s1).
    { unfold counter. rewrite Hstats. reflexivity. }
    unfold bind in Erun.
    rewrite (stat_incr_ok "attachments_failed" s2 Hok2) in Erun by (simpl; tauto).
    subst run. cbn [snd ret]. unfold advance.
    rewrite counter_insert_eq, !counter_insert_ne by discriminate.
    split; [apply stats_ok_insert; exact Hok2|].
    do 6 (split; [lia|]).
    intros Hoff' Hzero. specialize (Hoff2 Hoff'). lia.
Qed.

Global Instance tally_preorder : PreOrder tally.
Proof.
  split.
  - intros s Hok. unfold advance. split; [exact Hok | lia].
  - intros a b c H1 H2 Hok. destruct (H1 Hok) as (Hb & H1'). destruct (H2 Hb) as (Hc & H2').
    split; [exact Hc|]. unfold advance in *. lia.
Qed.

Global Instance tally_exact_preorder : PreOrder tally_exact.
Proof.
  split.
  - intros s Hok Hzero. unfold advance. split; [exact Hok|]. split; [exact Hzero | lia].
  - intros a b c H1 H2 Hok Hzero.
    destruct (H1 Hok Hzero) as (Hb & Hzb & H1'). destruct (H2 Hb Hzb) as (Hc & Hzc & H2').
    split; [exact Hc|]. split; [exact Hzc|]. unfold advance in *. lia.
Qed.

(** *** The loops around [process_attachment]

    A relation on the counters that a turn of the attachment loop keeps,
    that the three other increments keep and that holds between states
    with the same [stats] is kept by the whole of [export_conversations]. *)

Section OutcomeFrames.

Variables (R : state -> state -> Prop) (cfg : config) (env : os_env).
Context `{!PreOrder R}.

Hypothesis R_attachment :
  forall folder timestamp sender attachments acc a,
    preserves R (process_attachment cfg env folder timestamp sender attachments acc a).
Hypothesis R_incr :
  forall key, In key ["messages"; "conversations"; "contacts_processed"] ->
              preserves R (stat_incr key).
Hypothesis R_same : forall s s', same_stats s s' -> R s s'.

Ltac outcome_step :=
  first
    [ frame_step
    | apply R_attachment
    | apply R_incr; simpl; tauto
    | apply (preserves_weaken same_stats R _ R_same);
      first [ apply path_exists_same_stats | apply makedirs_same_stats
            | apply write_file_same_stats ] ].

Lemma process_message_outcomes conn info folder acc msg :
  preserves R (process_message cfg env conn info folder acc msg).
Proof. unfold process_message. repeat outcome_step. Qed.

Lemma process_chat_outcomes conn acc entry :
  preserves R (process_chat cfg env conn acc entry).
Proof.
  unfold process_chat, create_contact_folder. destruct entry as [chat_id info].
  repeat first [ apply process_message_outcomes | outcome_step ].
Qed.

Lemma export_chats_outcomes conn : preserves R (export_chats cfg env conn).
Proof.
  unfold export_chats, get_contacts_and_chats.
  repeat first [ apply process_chat_outcomes | outcome_step ].
Qed.

Lemma export_conversations_outcomes : preserves R (export_conversations cfg env).
Proof.
  unfold export_conversations, export_try, connect_to_database, print_summary,
    print_if_positive, format_stat.
  repeat first [ apply export_chats_outcomes | outcome_step ].
Qed.

End OutcomeFrames.

Lemma advance_same key s s' : stats s' = stats s -> advance key s s' = 0.
Proof. intros E. unfold advance, counter. rewrite E. lia. Qed.

Lemma advance_incr_other key key' s :
  key' <> key -> stats_ok s ->
  stats_ok (snd (stat_incr key' s)) /\ advance key s (snd (stat_incr key' s)) = 0.
Proof.
  intros Hne Hok. destruct (stat_incr_keeps key key' Hne s Hok) as [Hok' E].
  split; [exact Hok'|]. unfold advance. lia.
Qed.

Lemma export_conversations_tally cfg env : preserves tally (export_conversations cfg env).
Proof.
  apply export_conversations_outcomes; try typeclasses eauto.
  - intros folder timestamp sender attachments acc a s Hok.
    destruct (process_attachment_advances cfg env folder timestamp sender attachments acc a s Hok)
      as (Hok' & Hf & Hc & Hs & Hx & Hcx & Hsx & _).
    split; [exact Hok'|]. lia.
  - intros key Hin s Hok.
    assert (Hne : forall k, In k ["attachments_copied"; "attachments_skipped";
                                  "attachments_failed"; "attachments_found"] -> key <> k).
    { intros k Hk ->. simpl in Hin, Hk.
      repeat (destruct Hin as [Hin|Hin]; [subst k; repeat (destruct Hk as [Hk|Hk]; [discriminate Hk|]); exact Hk|]).
      exact Hin. }
    destruct (advance_incr_other "attachments_copied" key s) as [Hok' Hc];
      [apply Hne; simpl; tauto | exact Hok |].
    destruct (advance_incr_other "attachments_skipped" key s) as [_ Hs];
      [apply Hne; simpl; tauto | exact Hok |].
    destruct (advance_incr_other "attachments_failed" key s) as [_ Hx];
      [apply Hne; simpl; tauto | exact Hok |].
    destruct (advance_incr_other "attachments_found" key s) as [_ Hf];
      [apply Hne; simpl; tauto | exact Hok |].
    split; [exact Hok'|]. lia.
  - intros s s' Hsame Hok. split; [eapply stats_ok_same; eassumption|].
    rewrite !(advance_same _ s s' Hsame). lia.
Qed.

Lemma export_conversations_tally_exact cfg env :
  RESUME_MODE cfg = false -> preserves tally_exact (export_conversations cfg env).
Proof.
  intros Hoff.
  apply export_conversations_outcomes; try typeclasses eauto.
  - intros folder timestamp sender attachments acc a s Hok Hzero.
    destruct (process_attachment_advances cfg env folder timestamp sender attachments acc a s Hok)
      as (Hok' & Hf & _ & _ & _ & _ & _ & Hexact).
    destruct (Hexact Hoff Hzero) as [Hz Hsum].
    split; [exact Hok'|]. split; [exact Hz | lia].
  - intros key Hin s Hok Hzero.
    assert (Hne : forall k, In k ["attachments_copied"; "attachments_skipped";
                                  "attachments_failed"; "attachments_found"] -> key <> k).
    { intros k Hk ->. simpl in Hin, Hk.
      repeat (destruct Hin as [Hin|Hin]; [subst k; repeat (destruct Hk as [Hk|Hk]; [discriminate Hk|]); exact Hk|]).
      exact Hin. }
    destruct (advance_incr_other "attachments_copied" key s) as [Hok' Hc];
      [apply Hne; simpl; tauto | exact Hok |].
    destruct (advance_incr_other "attachments_skipped" key s) as [_ Hs];
      [apply Hne; simpl; tauto | exact Hok |].
    destruct (advance_incr_other "attachments_failed" key s) as [_ Hx];
      [apply Hne; simpl; tauto | exact Hok |].
    destruct (advance_incr_other "attachments_found" key s) as [_ Hf];
      [apply Hne; simpl; tauto | exact Hok |].
    split; [exact Hok'|]. unfold advance in *. split; lia.
  - intros s s' Hsame Hok Hzero. split; [eapply stats_ok_same; eassumption|].
    pose proof (advance_same "attachments_skipped" s s' Hsame) as Hs.
    rewrite !(advance_same _ s s' Hsame). unfold advance in Hs. split; lia.
Qed.

Lemma open_append_same_stats env p : preserves same_stats (open_append env p).
Proof.
  intros s. unfold open_append.
  destruct (open_error env p); [reflexivity|].
  destruct (fs (log_call _ s) !! p) as [[|c]|]; reflexivity.
Qed.

Lemma setup_logging_same_stats cfg env : preserves same_stats (setup_logging cfg env).
Proof.
  unfold setup_logging.
  repeat first [ frame_step | apply makedirs_same_stats | apply open_append_same_stats ].
Qed.

(** The state in which [main] ends: the one [setup_logging] left when it
    raised, else the one left by the export of a new exporter. *)
Lemma main_final cfg env s0 :
  stats (snd (main cfg env s0)) = stats s0
  \/ exists s1, stats s1 = init_stats
                /\ snd (main cfg env s0) = snd (export_conversations cfg env s1).
Proof.
  unfold main, bind.
  pose proof (setup_logging_same_stats cfg env s0) as Hlog.
  destruct (setup_logging cfg env s0) as [[[]|e] s1]; cbn [snd] in *; [|left; exact Hlog].
  right. exists (set_stats (fun _ => init_stats) s1). split; [reflexivity|].
  unfold new_exporter.
  destruct (export_conversations cfg env _) as [[success|e] s3]; reflexivity.
Qed.

Lemma counter_init key s : stats s = init_stats -> In key counter_keys -> counter key s = 0.
Proof.
  intros E Hin. unfold counter. rewrite E. simpl in Hin.
  repeat (destruct Hin as [<-|Hin]; [reflexivity|]). contradiction.
Qed.

Lemma stats_ok_init s : stats s = init_stats -> stats_ok s.
Proof. destruct s as [st f c]. simpl. intros ->. apply init_stats_ok. Qed.

(** X13.  Whatever the settings, the machine and the archive, the
    counters the script ends with satisfy: copied, skipped and failed
    are not negative, copied plus failed is at most found, and skipped
    plus failed is at most found. *)
Theorem outcome_counters_bounded cfg env files :
  let final := snd (run_script cfg env files) in
  0 <= counter "attachments_copied" final
  /\ 0 <= counter "attachments_skipped" final
  /\ 0 <= counter "attachments_failed" final
  /\ counter "attachments_copied" final + counter "attachments_failed" final
     <= counter "attachments_found" final
  /\ counter "attachments_skipped" final + counter "attachments_failed" final
     <= counter "attachments_found" final.
Proof.
  intros final. subst final. rewrite run_script_state.
  destruct (main_final cfg env {| stats := ∅; fs := files; calls := [] |})
    as [Hnone | (s1 & Hinit & ->)].
  - unfold counter. rewrite Hnone. cbn [stats]. rewrite !lookup_empty. lia.
  - destruct (export_conversations_tally cfg env s1 (stats_ok_init s1 Hinit)) as [_ H].
    unfold advance in H.
    rewrite !(counter_init _ s1 Hinit) in H by (simpl; tauto). lia.
Qed.

(** X14.  Without resume mode no attachment is ever counted as
    skipped, and every attachment found is counted either as copied or
    as failed: the script ends with
    [attachments_copied + attachments_failed = attachments_found]. *)
Theorem resume_off_counts_every_attachment cfg env files :
  RESUME_MODE cfg = false ->
  let final := snd (run_script cfg env files) in
  counter "attachments_skipped" final = 0
  /\ counter "attachments_copied" final + counter "attachments_failed" final
     = counter "attachments_found" final.
Proof.
  intros Hoff final. subst final. rewrite run_script_state.
  destruct (main_final cfg env {| stats := ∅; fs := files; calls := [] |})
    as [Hnone | (s1 & Hinit & ->)].
  - unfold counter. rewrite Hnone. cbn [stats]. rewrite !lookup_empty. lia.
  - destruct (export_conversations_tally_exact cfg env Hoff s1 (stats_ok_init s1 Hinit))
      as (_ & Hzero & H).
    { apply counter_init; [exact Hinit | simpl; tauto]. }
    unfold advance in H.
    rewrite !(counter_init _ s1 Hinit) in H by (simpl; tauto). split; [exact Hzero | lia].
Qed.

Lemma resume_off_counts_every_attachment_witness :
  let final := snd (run_script (Sample.cfg false false)
                      (Sample.env [Sample.photo; Sample.moved]) Sample.disk) in
  counter "attachments_skipped" final = 0
  /\ counter "attachments_copied" final + counter "attachments_failed" final
     = counter "attachments_found" final.
Proof.
  exact (resume_off_counts_every_attachment (Sample.cfg false false)
           (Sample.env [Sample.photo; Sample.moved]) Sample.disk eq_refl).
Defined.

(** ** Paths *)

Lemma chr_eqb_sym a b : PyStr.chr_eqb a b = PyStr.chr_eqb b a.
Proof.
  destruct (PyStr.chr_eqb b a) eqn:E.
  - apply chr_eqb_eq in E. subst. apply chr_eqb_refl.
  - apply chr_eqb_neq. intros ->. rewrite chr_eqb_refl in E. discriminate.
Qed.

Lemma basename_from_plain tail p :
  PyStr.contains "/" p = false -> OsPath.basename_from tail p = tail.
Proof.
  revert tail. induction p as [|c p IH]; intros tail;
    cbn [PyStr.contains OsPath.basename_from]; [reflexivity|].
  intros H. apply orb_false_iff in H as [Hc Hp].
  rewrite chr_eqb_sym, Hc. apply IH. exact Hp.
Qed.

Lemma contains_basename_from tail p :
  PyStr.contains "/" p = true ->
  PyStr.contains "/" (OsPath.basename_from tail p) = false.
Proof.
  revert tail. induction p as [|c p IH]; intros tail;
    cbn [PyStr.contains OsPath.basename_from]; [discriminate|].
  rewrite (chr_eqb_sym "/" c).
  destruct (PyStr.chr_eqb c "/"); cbn [orb].
  - intros _. destruct (PyStr.contains "/" p) eqn:Hp; [apply IH; reflexivity|].
    rewrite basename_from_plain by exact Hp. exact Hp.
  - apply IH.
Qed.

Lemma contains_basename p : PyStr.contains "/" (OsPath.basename p) = false.
Proof.
  unfold OsPath.basename. destruct (PyStr.contains "/" p) eqn:Hp.
  - apply contains_basename_from. exact Hp.
  - rewrite basename_from_plain by exact Hp. exact Hp.
Qed.

Lemma basename_from_app tail p name :
  PyStr.contains "/" name = false ->
  OsPath.basename_from tail (p +:+ String "/" name) = name.
Proof.
  intros Hname. revert tail. induction p as [|c p IH]; intros tail.
  - change (EmptyString +:+ String "/" name) with (String "/" name).
    cbn [OsPath.basename_from]. rewrite chr_eqb_refl. apply basename_from_plain. exact Hname.
  - change (String c p +:+ String "/" name) with (String c (p +:+ String "/" name)).
    cbn [OsPath.basename_from]. destruct (PyStr.chr_eqb c "/"); apply IH.
Qed.

Lemma ends_with_sep_split a :
  OsPath.ends_with_sep a = true -> exists p, a = p +:+ "/".
Proof.
  induction a as [|c a IH]; [discriminate|].
  destruct a as [|d a].
  - cbn [OsPath.ends_with_sep]. intros H. apply chr_eqb_eq in H. subst c.
    exists EmptyString. reflexivity.
  - intros H. change (OsPath.ends_with_sep (String d a) = true) in H.
    destruct (IH H) as [p ->]. exists (String c p). reflexivity.
Qed.

Lemma append_assoc (a b c : string) : (a +:+ b) +:+ c = a +:+ (b +:+ c).
Proof.
  induction a as [|x a IH]; [reflexivity|].
  change (String x ((a +:+ b) +:+ c) = String x (a +:+ (b +:+ c))). rewrite IH. reflexivity.
Qed.

Lemma startswith_sep_plain name :
  PyStr.contains "/" name = false -> PyStr.startswith name "/" = false.
Proof.
  destruct name as [|c name]; [reflexivity|].
  cbn [PyStr.contains PyStr.startswith].
  intros H. apply orb_false_iff in H as [Hc _]. rewrite Hc. reflexivity.
Qed.

(** The last component of [os.path.join(folder, name)] is [name] when
    [name] holds no separator. *)
Lemma basename_join folder name :
  PyStr.contains "/" name = false -> OsPath.basename (OsPath.join folder name) = name.
Proof.
  intros Hname. unfold OsPath.join. rewrite (startswith_sep_plain name Hname).
  unfold OsPath.basename.
  destruct folder as [|c folder]; [apply basename_from_plain; exact Hname|].
  destruct (OsPath.ends_with_sep (String c folder)) eqn:E.
  - destruct (ends_with_sep_split _ E) as [p ->]. rewrite append_assoc.
    apply basename_from_app. exact Hname.
  - apply (basename_from_app _ (String c folder) name Hname).
Qed.

(** X15.  For a recorded path with a non-empty basename, the name of
    the copy is that basename, it holds no separator, and it is the last
    component of the destination path: the copy lands in the folder of
    the conversation.  The only file system calls of [copy_attachment]
    are then the existence checks of that destination and of the source
    and the copy from the source to that destination. *)
Theorem copy_attachment_stays_in_folder cfg env a folder filename s :
  a_filename a = Some filename -> OsPath.basename filename <> EmptyString ->
  let name := OsPath.basename filename in
  let src := expanduser env filename in
  let dst := OsPath.join folder name in
  PyStr.contains "/" name = false
  /\ OsPath.basename dst = name
  /\ calls_only (fun c => c = CallExists dst \/ c = CallExists src \/ c = CallCopy2 src dst)
       s (snd (copy_attachment cfg env a folder s))
  /\ (forall result,
        fst (copy_attachment cfg env a folder s) = Ok (true, result) -> result = name).
Proof.
  intros Hfile Hbase name src dst.
  assert (Hplain : PyStr.contains "/" name = false) by apply contains_basename.
  split; [exact Hplain|]. split; [apply basename_join; exact Hplain|].
  assert (Htruthy : PyStr.truthy (a_filename a) = true).
  { rewrite Hfile. destruct filename; [contradiction Hbase; reflexivity | reflexivity]. }
  assert (Hdest : dest_filename_of a (default EmptyString (a_filename a)) = name).
  { rewrite Hfile. change (default EmptyString (Some filename)) with filename.
    unfold dest_filename_of. fold name.
    assert (Hne : name <> EmptyString) by exact Hbase.
    clearbody name. destruct name; [contradiction | reflexivity]. }
  split.
  - apply (fun H : preserves (calls_only (fun c => c = CallExists dst \/ c = CallExists src
                                                    \/ c = CallCopy2 src dst))
                       (copy_attachment cfg env a folder) => H s).
    unfold copy_attachment. rewrite Htruthy. cbn [negb]. cbv zeta. rewrite Hdest.
    rewrite Hfile. change (default EmptyString (Some filename)) with filename. fold src dst.
    repeat first
      [ frame_step
      | apply stat_incr_calls
      | apply path_exists_calls; tauto
      | apply copy2_calls; tauto ].
  - intros result Hres.
    set (dst' := OsPath.join folder (dest_filename_of a (default EmptyString (a_filename a)))).
    set (src' := expanduser env (default EmptyString (a_filename a))).
    assert (Hcase : (RESUME_MODE cfg = true /\ is_Some (fs s !! dst'))
                    \/ (RESUME_MODE cfg = false \/ fs s !! dst' = None)).
    { destruct (RESUME_MODE cfg); [|right; left; reflexivity].
      destruct (fs s !! dst') as [node|]; [left; split; [reflexivity|eexists; reflexivity]|].
      right. right. reflexivity. }
    destruct Hcase as [[Hr Hd] | Hd].
    + rewrite (copy_attachment_skip cfg env a folder s Htruthy Hr Hd) in Hres.
      destruct (stat_incr "attachments_skipped" _) as [[[]|e] s1]; [|discriminate Hres].
      cbn [fst] in Hres. congruence.
    + destruct (fs s !! src') as [node|] eqn:Hsrc.
      * assert (Hs : is_Some (fs s !! src')) by (rewrite Hsrc; eexists; reflexivity).
        rewrite (copy_attachment_found cfg env a folder s Htruthy Hd Hs) in Hres.
        cbv zeta in Hres. destruct (DRY_RUN cfg); [cbn [fst] in Hres; congruence|].
        match type of Hres with
        | context [copy2 env ?p ?q ?st] => destruct (copy2 env p q st) as [[[]|e] s3]
        end; [cbn [fst] in Hres; congruence|].
        destruct e; discriminate Hres.
      * rewrite (copy_attachment_missing cfg env a folder s Htruthy Hd Hsrc) in Hres.
        discriminate Hres.
Qed.

Lemma copy_attachment_stays_in_folder_witness :
  PyStr.contains "/" "IMG_0001.jpg" = false
  /\ OsPath.basename (OsPath.join Sample.folder "IMG_0001.jpg") = "IMG_0001.jpg".
Proof.
  pose proof (copy_attachment_stays_in_folder (Sample.cfg false true) (Sample.env [Sample.photo])
                Sample.photo Sample.folder
                "~/Library/Messages/Attachments/ab/12/IMG_0001.jpg"
                (Sample.fresh Sample.disk) eq_refl ltac:(discriminate)) as H.
  split; [exact (proj1 H) | exact (proj1 (proj2 H))].
Defined.

(** ** Folders *)

Lemma mkdir_if_absent_keeps q g p node :
  g !! p = Some node -> mkdir_if_absent q g !! p = Some node.
Proof.
  intros H. unfold mkdir_if_absent. destruct (g !! q) eqn:E; [exact H|].
  rewrite lookup_insert_ne; [exact H|]. intros ->. congruence.
Qed.

Lemma mkdir_if_absent_makes q g : is_Some (mkdir_if_absent q g !! q).
Proof.
  unfold mkdir_if_absent. destruct (g !! q) eqn:E.
  - rewrite E. eexists. reflexivity.
  - rewrite lookup_insert_eq. eexists. reflexivity.
Qed.

Lemma mkdir_if_absent_file q g p content :
  mkdir_if_absent q g !! p = Some (File content) -> g !! p = Some (File content).
Proof.
  unfold mkdir_if_absent. destruct (g !! q) eqn:E; [trivial|].
  destruct (decide (q = p)) as [->|Hne].
  - rewrite lookup_insert_eq. discriminate.
  - rewrite lookup_insert_ne by exact Hne. trivial.
Qed.

Lemma mkdir_chain_keeps chain f : nodes_kept f (foldr mkdir_if_absent f chain).
Proof.
  induction chain as [|q chain IH]; intros p node H; [exact H|].
  cbn [foldr]. apply mkdir_if_absent_keeps, IH, H.
Qed.

Lemma mkdir_chain_makes chain f p :
  In p chain -> is_Some (foldr mkdir_if_absent f chain !! p).
Proof.
  induction chain as [|q chain IH]; [contradiction|].
  cbn [foldr In]. intros [-> | Hin]; [apply mkdir_if_absent_makes|].
  destruct (IH Hin) as [node Hnode]. exists node. apply mkdir_if_absent_keeps. exact Hnode.
Qed.

Lemma mkdir_chain_file chain f p content :
  foldr mkdir_if_absent f chain !! p = Some (File content) -> f !! p = Some (File content).
Proof.
  induction chain as [|q chain IH]; [trivial|].
  cbn [foldr]. intros H. apply IH. eapply mkdir_if_absent_file. exact H.
Qed.

(** A call of [os.makedirs] that returns: the folder is a directory,
    what was on the disk is still there, and [stats] is untouched. *)
Lemma makedirs_ok env p s s' :
  makedirs env p s = (Ok tt, s') ->
  fs s' !! p = Some Dir /\ nodes_kept (fs s) (fs s') /\ stats s' = stats s.
Proof.
  unfold makedirs. cbv zeta.
  destruct (makedirs_error env p); [discriminate|].
  destruct (existsb _ _) eqn:Efile; [discriminate|].
  intros H. injection H as <-. cbn [fs stats set_fs log_call].
  split; [|split; [apply mkdir_chain_keeps | reflexivity]].
  destruct (mkdir_chain_makes (ancestors_from "" p ++ [p]) (fs s) p) as [node Hnode].
  { apply in_app_iff. right. left. reflexivity. }
  rewrite Hnode. destruct node as [|content]; [reflexivity|].
  apply mkdir_chain_file in Hnode. exfalso.
  assert (Htrue : existsb (is_file (fs s)) (ancestors_from "" p ++ [p]) = true).
  { apply existsb_exists. exists p. split; [apply in_app_iff; right; left; reflexivity|].
    unfold is_file. rewrite Hnode. reflexivity. }
  cbn [fs log_call] in Efile. congruence.
Qed.

Global Instance nodes_kept_preorder : PreOrder nodes_kept.
Proof. split; [intros f p node H; exact H | intros a b c H1 H2 p node H; apply H2, H1, H]. Qed.

(** X16.  The folder [create_contact_folder] returns is a direct child
    of [OUTPUT_DIR/attachments]: its name holds no separator, has at
    most 100 characters and does not start with a dot or a space.  In a
    dry run the call changes nothing; in a real run that returns, the
    folder is a directory, everything that was on the disk is still
    there, and [stats] is untouched. *)
Theorem contact_folder_is_child cfg env info s folder :
  fst (create_contact_folder cfg env info s) = Ok folder ->
  exists name,
    folder = OsPath.join (OsPath.join (OUTPUT_DIR cfg) "attachments") name
    /\ OsPath.basename folder = name
    /\ PyStr.contains "/" name = false
    /\ kept_at_edge (first_chr name) = true
    /\ (String.length name <= 100)%nat
    /\ (DRY_RUN cfg = true -> snd (create_contact_folder cfg env info s) = s)
    /\ (DRY_RUN cfg = false ->
        fs (snd (create_contact_folder cfg env info s)) !! folder = Some Dir
        /\ nodes_kept (fs s) (fs (snd (create_contact_folder cfg env info s)))
        /\ stats (snd (create_contact_folder cfg env info s)) = stats s).
Proof.
  unfold create_contact_folder. cbv zeta.
  set (label := match PyStr.truthy (display_name info), handle_list info with
                | true, h :: _ => _
                | true, [] => _
                | false, h :: _ => _
                | false, [] => _
                end).
  set (name := sanitize_filename (Some label)).
  set (path := OsPath.join (OsPath.join (OUTPUT_DIR cfg) "attachments") name).
  destruct (sanitize_filename_chars (Some label)) as [Hchars Hlen]. fold name in Hchars, Hlen.
  assert (Hplain : PyStr.contains "/" name = false).
  { rewrite Forall_forall in Hchars. apply Hchars. unfold problematic_chars.
    apply list_elem_of_In. simpl. tauto. }
  intros Hret. exists name.
  assert (Hfolder : folder = path).
  { unfold bind in Hret. destruct (negb (DRY_RUN cfg)).
    - destruct (makedirs env path s) as [[[]|e] s']; [|discriminate Hret].
      cbn [fst ret] in Hret. congruence.
    - cbn [fst ret] in Hret. congruence. }
  subst folder. split; [reflexivity|]. split; [apply basename_join; exact Hplain|].
  split; [exact Hplain|]. split; [apply first_chr_sanitize|]. split; [exact Hlen|].
  split.
  - intros Hdry. rewrite Hdry. reflexivity.
  - intros Hwet. rewrite Hwet in *. cbn [negb] in *. unfold bind in *.
    pose proof (makedirs_ok env path s) as Hmk.
    destruct (makedirs env path s) as [[[]|e] s']; [|discriminate Hret].
    cbn [snd ret]. apply Hmk. reflexivity.
Qed.

Lemma contact_folder_is_child_witness :
  exists name,
    Sample.folder
    = OsPath.join (OsPath.join (OUTPUT_DIR (Sample.cfg false true)) "attachments") name
    /\ OsPath.basename Sample.folder = name
    /\ PyStr.contains "/" name = false.
Proof.
  assert (Hrun : fst (create_contact_folder (Sample.cfg false true) (Sample.env [])
                        {| display_name := Some "Alice"; handles := {[ Sample.alice ]};
                           chat_identifier := Sample.alice |}
                        (Sample.fresh Sample.disk)) = Ok Sample.folder)
    by (vm_compute; reflexivity).
  destruct (contact_folder_is_child _ _ _ _ _ Hrun) as (name & H1 & H2 & H3 & _).
  exists name. auto.
Defined.

(** X17.  For a chat with a non-empty identifier the folder of a
    conversation is named after the label of its header: with [who] the
    text the header shows after [Conversation with], the folder is
    [sanitize_filename who] under [OUTPUT_DIR/attachments]. *)
Theorem contact_folder_named_after_header cfg env info s folder :
  chat_identifier info <> EmptyString ->
  fst (create_contact_folder cfg env info s) = Ok folder ->
  exists who,
    conversation_header info (chat_identifier info)
    = "=== Conversation with " +:+ who +:+ " ==="
    /\ folder = OsPath.join (OsPath.join (OUTPUT_DIR cfg) "attachments")
                  (sanitize_filename (Some who)).
Proof.
  intros Hid. unfold create_contact_folder, conversation_header. cbv zeta.
  assert (Hor : default EmptyString (py_or (Some (chat_identifier info)) (Some "Unknown Contact"))
                = chat_identifier info).
  { unfold py_or. destruct (chat_identifier info); [contradiction | reflexivity]. }
  rewrite Hor.
  set (who := match PyStr.truthy (display_name info), handle_list info with
              | true, h :: _ => _
              | true, [] => _
              | false, h :: _ => _
              | false, [] => _
              end).
  intros Hret. exists who. split; [reflexivity|].
  unfold bind in Hret. destruct (negb (DRY_RUN cfg)).
  - destruct (makedirs env _ s) as [[[]|e] s']; [|discriminate Hret].
    cbn [fst ret] in Hret. congruence.
  - cbn [fst ret] in Hret. congruence.
Qed.

Lemma contact_folder_named_after_header_witness :
  exists who,
    conversation_header
      {| display_name := Some "Alice"; handles := {[ Sample.alice ]};
         chat_identifier := Sample.alice |} Sample.alice
    = "=== Conversation with " +:+ who +:+ " ==="
    /\ Sample.folder
       = OsPath.join (OsPath.join (OUTPUT_DIR (Sample.cfg false true)) "attachments")
           (sanitize_filename (Some who)).
Proof.
  apply (contact_folder_named_after_header (Sample.cfg false true) (Sample.env [])
           {| display_name := Some "Alice"; handles := {[ Sample.alice ]};
              chat_identifier := Sample.alice |}
           (Sample.fresh Sample.disk) Sample.folder).
  - discriminate.
  - vm_compute. reflexivity.
Defined.

(** ** The debug log *)

Lemma length_append (a b : string) :
  String.length (a +:+ b) = (String.length a + String.length b)%nat.
Proof.
  induction a as [|c a IH]; [reflexivity|].
  change (S (String.length (a +:+ b)) = S (String.length a + String.length b)).
  rewrite IH. reflexivity.
Qed.

Lemma join_longer a b :
  PyStr.startswith b "/" = false -> b <> EmptyString -> OsPath.join a b <> a.
Proof.
  intros Hrel Hb E. apply (f_equal String.length) in E. unfold OsPath.join in E.
  rewrite Hrel in E. destruct b as [|c b]; [contradiction|].
  destruct a as [|d a]; [discriminate E|].
  destruct (OsPath.ends_with_sep (String d a)); rewrite !length_append in E;
    cbn [String.length] in E; lia.
Qed.

(** X18.  When [setup_logging] returns, the output root is a directory
    and the debug log is a file; every file and folder that existed is
    unchanged, so the log of an earlier run keeps its content (the file
    is opened for appending), and [stats] is untouched. *)
Theorem setup_logging_keeps_the_log cfg env s :
  fst (setup_logging cfg env s) = Ok tt ->
  let log_file := OsPath.join (OUTPUT_DIR cfg) "export_debug.log" in
  let s' := snd (setup_logging cfg env s) in
  fs s' !! OUTPUT_DIR cfg = Some Dir
  /\ (exists content, fs s' !! log_file = Some (File content))
  /\ nodes_kept (fs s) (fs s')
  /\ stats s' = stats s.
Proof.
  unfold setup_logging, bind.
  pose proof (makedirs_ok env (OUTPUT_DIR cfg) s) as Hmk.
  destruct (makedirs env (OUTPUT_DIR cfg) s) as [[[]|e] s1]; [|discriminate].
  destruct (Hmk s1 eq_refl) as (Hdir & Hkept & Hstats). clear Hmk.
  set (log_file := OsPath.join (OUTPUT_DIR cfg) "export_debug.log").
  assert (Hne : log_file <> OUTPUT_DIR cfg).
  { apply join_longer; [reflexivity | discriminate]. }
  unfold open_append.
  destruct (open_error env log_file); [discriminate|].
  cbn [fs log_call].
  destruct (fs s1 !! log_file) as [[|content]|] eqn:Hlog; [discriminate| |];
    intros _; cbn [snd fs stats set_fs log_call].
  - split; [exact Hdir|]. split; [exists content; exact Hlog|]. split; assumption.
  - split; [rewrite lookup_insert_ne by exact Hne; exact Hdir|].
    split; [exists EmptyString; apply lookup_insert_eq|]. split; [|exact Hstats].
    intros p node Hp. specialize (Hkept p node Hp).
    rewrite lookup_insert_ne; [exact Hkept|]. intros <-. congruence.
Qed.

Lemma setup_logging_keeps_the_log_witness :
  let cfg := Sample.cfg true true in
  let s := {| stats := ∅;
              fs := {[ OsPath.join (OUTPUT_DIR cfg) "export_debug.log" := File "earlier run" ]};
              calls := [] |} in
  fs (snd (setup_logging cfg (Sample.env []) s)) !! OUTPUT_DIR cfg = Some Dir
  /\ (exists content,
        fs (snd (setup_logging cfg (Sample.env []) s))
          !! OsPath.join (OUTPUT_DIR cfg) "export_debug.log" = Some (File content))
  /\ nodes_kept (fs s) (fs (snd (setup_logging cfg (Sample.env []) s)))
  /\ stats (snd (setup_logging cfg (Sample.env []) s)) = stats s.
Proof.
  intros cfg s.
  apply (setup_logging_keeps_the_log cfg (Sample.env []) s). vm_compute. reflexivity.
Defined.

(** ** The transcript as a whole *)

Lemma bind_returns {A B} (m : M A) (k : A -> M B) s b :
  fst (bind m k s) = Ok b ->
  exists a, fst (m s) = Ok a /\ fst (k a (snd (m s))) = Ok b
            /\ snd (bind m k s) = snd (k a (snd (m s))).
Proof.
  unfold bind. destruct (m s) as [[a|e] s1]; [|discriminate].
  intros H. exists a. auto.
Qed.

Lemma process_chat_block cfg env conn acc entry s block :
  stats_ok s -> has_messages conn entry = true ->
  fst (process_chat cfg env conn acc entry s) = Ok block ->
  exists lines, block = acc ++ lines /\ conversation_block conn entry lines.
Proof.
  intros Hok Hhas. destruct entry as [chat_id info]. unfold has_messages in Hhas.
  cbn [fst] in Hhas. unfold process_chat, conversation_block. cbn [fst snd].
  destruct (get_messages_for_chat conn chat_id) as [|msg rest] eqn:Hmsgs; [discriminate|].
  unfold bind at 1. rewrite (stat_incr_ok "conversations" s Hok) by (simpl; tauto).
  cbn beta iota.
  set (s1 := set_stats _ s).
  assert (Hok1 : stats_ok s1) by (apply stats_ok_insert; exact Hok).
  unfold bind at 1. rewrite (stat_incr_ok "contacts_processed" s1 Hok1) by (simpl; tauto).
  cbn beta iota.
  set (s2 := set_stats _ s1).
  assert (Hok2 : stats_ok s2) by (apply stats_ok_insert; exact Hok1).
  unfold bind at 1.
  assert (Hkeep : preserves (keeps "messages") (create_contact_folder cfg env info)).
  { unfold create_contact_folder. keeps_tac. }
  specialize (Hkeep s2 Hok2) as [Hok3 _].
  destruct (create_contact_folder cfg env info s2) as [[contact_folder|e] s3];
    cbn beta iota delta [fst snd] in *; [|discriminate].
  unfold bind.
  destruct (returns_for_each _ _ (msg :: rest)
              (fun acc0 m => process_message_returns cfg env conn info contact_folder acc0 m)
              (acc ++ [conversation_header info chat_id]) s3 Hok3)
    as (acc' & E & Hchain & _).
  apply chain_message_chunks in Hchain as (chunks & -> & Hall).
  destruct (for_each _ (msg :: rest) _ s3) as [r s4]. cbn [fst] in E. subst r.
  cbn [fst ret]. intros H. injection H as <-.
  exists (conversation_header info chat_id :: concat chunks ++ [EmptyString]).
  split; [rewrite <- !app_assoc; reflexivity|].
  exists chunks. split; [reflexivity | exact Hall].
Qed.

Lemma process_chats_blocks cfg env conn chats :
  forall acc s lines,
    stats_ok s ->
    fst (for_each (process_chat cfg env conn) chats acc s) = Ok lines ->
    exists blocks,
      lines = acc ++ concat blocks
      /\ Forall2 (conversation_block conn) (List.filter (has_messages conn) chats) blocks.
Proof.
  induction chats as [|entry chats IH]; intros acc s lines Hok Hret.
  - cbn in Hret. injection Hret as <-. exists []. split; [symmetry; apply app_nil_r | constructor].
  - cbn [for_each] in Hret. apply bind_returns in Hret as (acc1 & Hstep & Hrest & _).
    assert (Hok1 : stats_ok (snd (process_chat cfg env conn acc entry s))).
    { apply (process_chat_counts cfg env conn "messages" acc entry); [simpl; tauto | exact Hok]. }
    destruct (IH _ _ _ Hok1 Hrest) as (blocks & -> & Hall).
    cbn [List.filter]. destruct (has_messages conn entry) eqn:Hhas.
    + destruct (process_chat_block cfg env conn acc entry s acc1 Hok Hhas Hstep)
        as (block & -> & Hblock).
      exists (block :: blocks). split; [cbn [concat]; rewrite <- app_assoc; reflexivity|].
      constructor; assumption.
    + exists blocks. split; [|exact Hall].
      destruct entry as [chat_id info]. unfold has_messages in Hhas. cbn [fst] in Hhas.
      unfold process_chat in Hstep.
      destruct (get_messages_for_chat conn chat_id); [|discriminate Hhas].
      cbn in Hstep. injection Hstep as <-. reflexivity.
Qed.

(** The loop over the chats inside an export that returned its lines. *)
Lemma export_chats_loop cfg env conn s lines :
  stats_ok s ->
  fst (export_chats cfg env conn s) = Ok (Some lines) ->
  exists s1,
    stats_ok s1
    /\ fst (for_each (process_chat cfg env conn) (chats_of conn) [] s1) = Ok lines.
Proof.
  intros Hok Hret. unfold export_chats in Hret.
  apply bind_returns in Hret as (chats & Hchats & Hret & _).
  destruct (get_contacts_and_chats_pure conn s) as [Hpure | [e Hpure]];
    rewrite Hpure in Hchats, Hret; [|discriminate Hchats].
  cbn [fst snd] in Hchats, Hret. injection Hchats as <-.
  destruct (chats_of conn) as [|chat chats] eqn:Echats; [discriminate Hret|].
  apply bind_returns in Hret as ([] & _ & Hret & _).
  set (s1 := snd ((if negb (DRY_RUN cfg) then _ else ret tt) s)) in Hret.
  assert (Hok1 : stats_ok s1).
  { subst s1. eapply stats_ok_same; [|exact Hok].
    destruct (negb (DRY_RUN cfg)); [|reflexivity].
    apply (preserves_bind same_stats); [apply makedirs_same_stats|].
    intros _. apply makedirs_same_stats. }
  apply bind_returns in Hret as (content & Hloop & Hret & _).
  apply bind_returns in Hret as ([] & _ & Hret & _).
  cbn in Hret. injection Hret as <-.
  exists s1. split; [exact Hok1 | exact Hloop].
Qed.

(** X19.  The transcript of an export that reached its end is the
    concatenation, in the order of [chats.items()], of one block per
    chat that has messages: the header, the chunks of the messages in
    the reader's order, and an empty line. *)
Theorem transcript_is_blocks cfg env conn s lines :
  stats_ok s ->
  fst (export_chats cfg env conn s) = Ok (Some lines) ->
  exists blocks,
    lines = concat blocks
    /\ Forall2 (conversation_block conn)
         (List.filter (has_messages conn) (chats_of conn)) blocks.
Proof.
  intros Hok Hret.
  destruct (export_chats_loop cfg env conn s lines Hok Hret) as (s1 & Hok1 & Hloop).
  destruct (process_chats_blocks cfg env conn (chats_of conn) [] s1 lines Hok1 Hloop)
    as (blocks & E & Hall).
  exists blocks. split; [exact E | exact Hall].
Qed.

Lemma transcript_is_blocks_witness :
  exists blocks,
    Sample.transcript = concat blocks
    /\ Forall2 (conversation_block (Sample.conn [Sample.photo]))
         (List.filter (has_messages (Sample.conn [Sample.photo]))
            (chats_of (Sample.conn [Sample.photo]))) blocks.
Proof.
  assert (H : fst (export_chats (Sample.cfg false true) (Sample.env [Sample.photo])
                     (Sample.conn [Sample.photo]) (Sample.fresh Sample.disk))
              = Ok (Some Sample.transcript)) by (vm_compute; reflexivity).
  exact (transcript_is_blocks (Sample.cfg false true) (Sample.env [Sample.photo])
           (Sample.conn [Sample.photo]) (Sample.fresh Sample.disk) Sample.transcript
           (init_stats_ok Sample.disk []) H).
Defined.

(** ** The order of the writes *)

Lemma write_file_logs env p content s :
  calls (snd (write_file env p content s)) = calls s ++ [CallOpenWrite p].
Proof.
  unfold write_file.
  destruct (open_error env p); [reflexivity|].
  destruct (fs (log_call _ s) !! p) as [[|c]|]; reflexivity.
Qed.

Lemma process_chats_no_write cfg env conn chats acc :
  preserves (calls_only not_open_write) (for_each (process_chat cfg env conn) chats acc).
Proof.
  apply (preserves_for_each (calls_only not_open_write)). intros acc' entry.
  apply process_chat_preserves; try typeclasses eauto.
  - apply stat_incr_calls.
  - intros p. apply path_exists_calls. exact I.
  - intros _ p. apply makedirs_calls. exact I.
  - intros _ src dst. apply copy2_calls. exact I.
Qed.

(** X20.  Up to the summary, the only file [export_conversations]
    opens for writing is [messages.txt], at most once, and it does so
    after every folder creation, existence check and copy: an export
    that an error stops inside the loops leaves no partial transcript.
    A real run that returns the lines has made that call. *)
Theorem transcript_written_last cfg env conn s :
  exists made tail,
    calls (snd (export_chats cfg env conn s)) = calls s ++ made ++ tail
    /\ Forall not_open_write made
    /\ (tail = []
        \/ (DRY_RUN cfg = false /\ tail = [CallOpenWrite (messages_file cfg)]))
    /\ (forall lines,
          DRY_RUN cfg = false ->
          fst (export_chats cfg env conn s) = Ok (Some lines) ->
          tail = [CallOpenWrite (messages_file cfg)]).
Proof.
  remember (export_chats cfg env conn s) as run eqn:Erun.
  assert (Hnone : forall (r : result (option (list string))),
            run = (r, s) -> (forall lines, r <> Ok (Some lines)) ->
            exists made tail,
              calls (snd run) = calls s ++ made ++ tail
              /\ Forall not_open_write made
              /\ (tail = []
                  \/ (DRY_RUN cfg = false /\ tail = [CallOpenWrite (messages_file cfg)]))
              /\ (forall lines, DRY_RUN cfg = false -> fst run = Ok (Some lines) ->
                                tail = [CallOpenWrite (messages_file cfg)])).
  { intros r -> Hr. exists [], []. split; [symmetry; apply app_nil_r|].
    split; [constructor|]. split; [left; reflexivity|].
    intros lines _ E. exfalso. exact (Hr lines E). }
  assert (Hearly : forall made e s',
            calls s' = calls s ++ made -> Forall not_open_write made ->
            run = (Raise e, s') ->
            exists made tail,
              calls (snd run) = calls s ++ made ++ tail
              /\ Forall not_open_write made
              /\ (tail = []
                  \/ (DRY_RUN cfg = false /\ tail = [CallOpenWrite (messages_file cfg)]))
              /\ (forall lines, DRY_RUN cfg = false -> fst run = Ok (Some lines) ->
                                tail = [CallOpenWrite (messages_file cfg)])).
  { intros made e s' E Hmade ->. exists made, []. rewrite app_nil_r.
    split; [exact E|]. split; [exact Hmade|]. split; [left; reflexivity|].
    intros lines _ H. discriminate H. }
  unfold export_chats, bind at 1 in Erun.
  destruct (get_contacts_and_chats_pure conn s) as [Hp | [e Hp]]; rewrite Hp in Erun;
    [|apply (Hnone _ Erun); discriminate].
  cbn beta iota in Erun.
  destruct (chats_of conn) as [|chat chats]; [apply (Hnone _ Erun); discriminate|].
  clear Hnone.
  assert (Hmk : preserves (calls_only not_open_write)
                  (if negb (DRY_RUN cfg)
                   then makedirs env (OUTPUT_DIR cfg) ;;;
                        makedirs env (OsPath.join (OUTPUT_DIR cfg) "attachments")
                   else ret tt)).
  { repeat first [ frame_step | apply makedirs_calls; exact I ]. }
  unfold bind at 1 in Erun. specialize (Hmk s).
  destruct ((if negb (DRY_RUN cfg) then _ else ret tt) s) as [[[]|e] s1]; cbn [snd] in Hmk.
  2:{ destruct Hmk as (made & E & Hmade). exact (Hearly made e s1 E Hmade Erun). }
  unfold bind at 1 in Erun.
  pose proof (process_chats_no_write cfg env conn (chat :: chats) [] s1) as Hloop.
  destruct (for_each (process_chat cfg env conn) (chat :: chats) [] s1) as [[content|e] s2];
    cbn [snd] in Hloop.
  2:{ destruct (transitivity Hmk Hloop) as (made & E & Hmade).
      exact (Hearly made e s2 E Hmade Erun). }
  clear Hearly.
  destruct (transitivity Hmk Hloop) as (made & E & Hmade).
  unfold bind in Erun. fold (messages_file cfg) in Erun.
  destruct (DRY_RUN cfg) eqn:Hdry; cbn [negb] in Erun.
  - subst run. exists made, []. cbn [ret snd]. rewrite app_nil_r.
    split; [exact E|]. split; [exact Hmade|]. split; [left; reflexivity|].
    intros lines H. discriminate H.
  - pose proof (write_file_logs env (messages_file cfg) (PyStr.join_lines content) s2) as Hw.
    exists made, [CallOpenWrite (messages_file cfg)].
    destruct (write_file env (messages_file cfg) (PyStr.join_lines content) s2) as [[[]|e] s3];
      subst run; cbn [snd ret] in *; rewrite Hw, E, <- app_assoc;
      (split; [reflexivity|]); (split; [exact Hmade|]);
      (split; [right; split; reflexivity|]); intros; reflexivity.
Qed.

(** ** The size of the transcript *)

Lemma message_chunk_length conn info msg chunk :
  message_chunk conn info msg chunk ->
  length chunk
  = ((if has_text msg then 1 else 0)
     + length (get_attachments_for_message conn (m_message_id msg)))%nat.
Proof.
  intros (bodies & -> & Hlen). rewrite length_app, length_map, Hlen.
  unfold text_lines. destruct (has_text msg); reflexivity.
Qed.

Lemma chunks_length conn info messages chunks :
  Forall2 (message_chunk conn info) messages chunks ->
  length (concat chunks)
  = (length (List.filter has_text messages)
     + length (flat_map (fun msg => get_attachments_for_message conn (m_message_id msg))
                 messages))%nat.
Proof.
  induction 1 as [|msg chunk messages chunks Hchunk _ IH]; [reflexivity|].
  cbn [concat List.filter flat_map]. rewrite !length_app, IH.
  rewrite (message_chunk_length conn info msg chunk Hchunk).
  destruct (has_text msg); cbn [length]; lia.
Qed.

Lemma blocks_length conn chats blocks :
  Forall2 (conversation_block conn) chats blocks ->
  length (concat blocks)
  = (2 * length chats
     + length (List.filter has_text
                 (flat_map (fun entry => get_messages_for_chat conn (fst entry)) chats))
     + length (flat_map (fun msg => get_attachments_for_message conn (m_message_id msg))
                 (flat_map (fun entry => get_messages_for_chat conn (fst entry)) chats)))%nat.
Proof.
  induction 1 as [|entry block chats blocks (chunks & -> & Hchunks) _ IH]; [reflexivity|].
  cbn [concat flat_map]. rewrite List.filter_app, flat_map_app, !length_app, IH.
  cbn [length]. rewrite length_app, (chunks_length _ _ _ _ Hchunks). cbn [length]. lia.
Qed.

Lemma flat_map_has_messages conn chats :
  flat_map (fun entry => get_messages_for_chat conn (fst entry))
    (List.filter (has_messages conn) chats)
  = flat_map (fun entry => get_messages_for_chat conn (fst entry)) chats.
Proof.
  induction chats as [|entry chats IH]; [reflexivity|].
  cbn [List.filter flat_map]. unfold has_messages at 1.
  destruct (get_messages_for_chat conn (fst entry)) as [|msg rest] eqn:E.
  - exact IH.
  - cbn [flat_map]. rewrite E, IH. reflexivity.
Qed.

(** X21.  The number of lines of the transcript depends on the archive
    alone: two per exported conversation (the header and the empty
    line), one per message with a non-blank body, and one per
    attachment, be it copied, skipped or missing. *)
Theorem transcript_line_count cfg env conn s lines :
  stats_ok s ->
  fst (export_chats cfg env conn s) = Ok (Some lines) ->
  length lines
  = (2 * length (List.filter (has_messages conn) (chats_of conn))
     + length (List.filter has_text (all_messages conn))
     + length (all_attachments conn))%nat.
Proof.
  intros Hok Hret.
  destruct (export_chats_loop cfg env conn s lines Hok Hret) as (s1 & Hok1 & Hloop).
  destruct (process_chats_blocks cfg env conn (chats_of conn) [] s1 lines Hok1 Hloop)
    as (blocks & -> & Hall).
  cbn [app]. rewrite (blocks_length conn _ blocks Hall), flat_map_has_messages. reflexivity.
Qed.

Lemma transcript_line_count_witness :
  length Sample.transcript
  = (2 * length (List.filter (has_messages (Sample.conn [Sample.photo]))
                   (chats_of (Sample.conn [Sample.photo])))
     + length (List.filter has_text (all_messages (Sample.conn [Sample.photo])))
     + length (all_attachments (Sample.conn [Sample.photo])))%nat.
Proof.
  assert (H : fst (export_chats (Sample.cfg false true) (Sample.env [Sample.photo])
                     (Sample.conn [Sample.photo]) (Sample.fresh Sample.disk))
              = Ok (Some Sample.transcript)) by (vm_compute; reflexivity).
  exact (transcript_line_count (Sample.cfg false true) (Sample.env [Sample.photo])
           (Sample.conn [Sample.photo]) (Sample.fresh Sample.disk) Sample.transcript
           (init_stats_ok Sample.disk []) H).
Defined.

(** ** The summary and the failure report *)

Lemma write_file_elsewhere env p content s q :
  q <> p -> fs (snd (write_file env p content s)) !! q = fs s !! q.
Proof.
  intros Hne. unfold write_file.
  destruct (open_error env p); [reflexivity|].
  destruct (fs (log_call _ s) !! p) as [[|c]|]; cbn [snd fs set_fs log_call];
    try reflexivity; apply lookup_insert_ne; congruence.
Qed.

Global Instance unchanged_preorder : PreOrder unchanged.
Proof. split; [intros s; reflexivity | intros a b c H1 H2; unfold unchanged in *; congruence]. Qed.

Lemma report_only_refl cfg s : report_only cfg s s.
Proof. split; [reflexivity|]. split; [left; reflexivity | reflexivity]. Qed.

(** A computation that leaves the state alone may come before, or
    after, one that changes it. *)
Lemma preserves_after {A B} (R : state -> state -> Prop) (m : M A) (k : A -> M B) :
  (forall s, R s s) -> preserves unchanged m -> (forall a, preserves R (k a)) ->
  preserves R (bind m k).
Proof.
  intros Hrefl Hm Hk s. unfold bind. specialize (Hm s). unfold unchanged in Hm.
  destruct (m s) as [[a|e] s1]; cbn [snd] in *; subst s1; [apply Hk | apply Hrefl].
Qed.

Lemma preserves_before {A B} (R : state -> state -> Prop) (m : M A) (k : A -> M B) :
  preserves R m -> (forall a, preserves unchanged (k a)) -> preserves R (bind m k).
Proof.
  intros Hm Hk s. unfold bind. specialize (Hm s).
  destruct (m s) as [[a|e] s1]; cbn [snd] in *; [|exact Hm].
  rewrite (Hk a s1). exact Hm.
Qed.

Lemma write_report_only cfg env content :
  preserves (report_only cfg) (write_file env (report_file cfg) content).
Proof.
  intros s. split; [apply write_file_same_stats|].
  split; [right; apply write_file_logs|].
  intros p Hp. apply write_file_elsewhere. exact Hp.
Qed.

Lemma print_summary_report_only cfg env :
  preserves (report_only cfg) (print_summary cfg env).
Proof.
  unfold print_summary, print_if_positive, format_stat.
  fold (report_file cfg).
  repeat (apply (preserves_after (report_only cfg));
          [apply report_only_refl | solve [repeat frame_step] | intros]).
  apply (preserves_before (report_only cfg)); [|intros; apply (preserves_ret unchanged)].
  destruct (value_truthy _ && negb (DRY_RUN cfg)); [|intros s; apply report_only_refl].
  match goal with
  | |- preserves _ (match ?v with _ => _ end) => destruct v
  end;
    try apply write_report_only;
    (apply (preserves_before (report_only cfg));
     [apply write_report_only | intros; apply (preserves_raise unchanged)]).
Qed.

(** X22.  [print_summary] never changes [stats]; the only file system
    call it can make is to open [failed_attachments.txt] for writing, at
    most once; every path other than that report and the debug log, to
    which the closing record of the logger goes, keeps its node; in a dry
    run no call is made and the report keeps its node too. *)
Theorem print_summary_touches_report_only cfg env s :
  let s' := snd (print_summary cfg env s) in
  stats s' = stats s
  /\ (calls s' = calls s \/ calls s' = calls s ++ [CallOpenWrite (report_file cfg)])
  /\ (forall p, p <> report_file cfg -> p <> debug_log cfg -> fs s' !! p = fs s !! p)
  /\ (DRY_RUN cfg = true ->
      stats s' = stats s /\ calls s' = calls s /\ same_files_but_log cfg s s').
Proof.
  intros s'. destruct (print_summary_report_only cfg env s) as (H1 & H2 & H3).
  split; [exact H1|]. split; [exact H2|]. split; [intros p Hp _; apply H3; exact Hp|].
  intros Hdry. subst s'. rewrite (print_summary_dry unchanged cfg env Hdry s).
  split; [reflexivity|]. split; [reflexivity|]. intros p _. reflexivity.
Qed.

(** ** Copies without resume mode *)

(** X23.  Without resume mode, in a real run, the destination is not
    looked at: an attachment whose source is a file is copied over
    whatever file is at the destination, after the existence check of
    the source alone, and no counter moves. *)
Theorem copy_without_resume_overwrites cfg env a folder s content :
  let name := dest_filename_of a (default EmptyString (a_filename a)) in
  let src := expanduser env (default EmptyString (a_filename a)) in
  let dst := OsPath.join folder name in
  PyStr.truthy (a_filename a) = true ->
  RESUME_MODE cfg = false -> DRY_RUN cfg = false ->
  fs s !! src = Some (File content) -> fs s !! dst <> Some Dir ->
  copy_error env src dst = None ->
  copy_attachment cfg env a folder s
  = (Ok (true, name),
     set_fs (insert dst (File content))
       (log_call (CallCopy2 src dst) (log_call (CallExists src) s))).
Proof.
  intros name src dst Hname Hoff Hwet Hsrc Hdst Herr.
  rewrite (copy_attachment_found cfg env a folder s Hname (or_introl Hoff))
    by (fold src; rewrite Hsrc; eexists; reflexivity).
  rewrite Hoff, Hwet. cbv zeta. fold name src dst.
  rewrite (copy2_writes env src dst (log_call (CallExists src) s) content Herr Hsrc Hdst).
  reflexivity.
Qed.

Lemma copy_without_resume_overwrites_witness :
  let s := Sample.fresh (<[OsPath.join Sample.folder "IMG_0001.jpg" := File "old"]> Sample.disk) in
  fs (snd (copy_attachment (Sample.cfg false false) (Sample.env [Sample.photo]) Sample.photo
             Sample.folder s)) !! OsPath.join Sample.folder "IMG_0001.jpg"
  = Some (File "JFIF").
Proof.
  intros s.
  rewrite (copy_without_resume_overwrites (Sample.cfg false false) (Sample.env [Sample.photo])
             Sample.photo Sample.folder s "JFIF");
    [ apply lookup_insert_eq | reflexivity | reflexivity | reflexivity
    | vm_compute; reflexivity | vm_compute; discriminate | reflexivity ].
Defined.

(** ** Time stamps of whole seconds *)

Lemma round_half_even_exact q d : 0 < d -> PyFloat.round_half_even (q * d) d = q.
Proof.
  intros Hd. unfold PyFloat.round_half_even.
  rewrite Z.div_mul, Z.mod_mul by lia.
  destruct (2 * 0 <? d) eqn:E; [reflexivity|]. apply Z.ltb_ge in E. lia.
Qed.

Lemma ilog2_ratio_le n d : PyFloat.ilog2_ratio n d <= Z.log2 n - Z.log2 d.
Proof. unfold PyFloat.ilog2_ratio. destruct (_ <? _); lia. Qed.

Lemma sgn_abs_id k : Z.sgn k * Z.abs k = k.
Proof. destruct k; reflexivity. Qed.

(** The quotient of [k * 10^9] by [10^9] is the float [k], exactly. *)
Lemma round_binary64_seconds k :
  k <> 0 -> Z.abs k < 2 ^ 52 ->
  exists e, e <= 0
            /\ PyFloat.round_binary64 (k * 1000000000) 1000000000 = Some (k * 2 ^ (- e), e).
Proof.
  intros Hk Hsmall. unfold PyFloat.round_binary64.
  assert (Hn : k * 1000000000 <> 0) by lia.
  apply Z.eqb_neq in Hn. rewrite Hn.
  assert (Habs : Z.abs (k * 1000000000) = Z.abs k * 1000000000).
  { rewrite Z.abs_mul. reflexivity. }
  rewrite Habs.
  set (L := PyFloat.ilog2_ratio (Z.abs k * 1000000000) 1000000000).
  assert (HL : L <= 52).
  { pose proof (ilog2_ratio_le (Z.abs k * 1000000000) 1000000000) as H. fold L in H.
    change (Z.log2 1000000000) with 29 in H.
    assert (Z.log2 (Z.abs k * 1000000000) < 82); [|lia].
    apply Z.log2_lt_pow2; [lia|].
    change (2 ^ 82) with (2 ^ 52 * 1073741824). nia. }
  set (e := Z.max (L - 52) (-1074)).
  assert (He : -1074 <= e <= 0) by (subst e; lia).
  exists e. split; [lia|].
  rewrite (Z.max_r 0 (- e)) by lia. rewrite (Z.max_l 0 e) by lia.
  change (2 ^ 0) with 1. rewrite Z.mul_1_r.
  replace (Z.abs k * 1000000000 * 2 ^ (- e)) with (Z.abs k * 2 ^ (- e) * 1000000000) by ring.
  rewrite round_half_even_exact by lia.
  assert (Hlog : Z.log2 (Z.abs k * 2 ^ (- e)) + e = Z.log2 (Z.abs k)).
  { rewrite Z.log2_mul_pow2 by lia. lia. }
  rewrite Hlog.
  assert (Hfit : Z.log2 (Z.abs k) < 52) by (apply Z.log2_lt_pow2; lia).
  destruct (1024 <=? Z.log2 (Z.abs k)) eqn:E; [apply Z.leb_le in E; lia|].
  f_equal. f_equal.
  rewrite Z.sgn_mul. change (Z.sgn 1000000000) with 1. rewrite Z.mul_1_r.
  rewrite Z.mul_assoc, sgn_abs_id. reflexivity.
Qed.

(** [timedelta(seconds=k)] for the float [k = m * 2^e]: [k * 10^6]
    microseconds. *)
Lemma timedelta_whole_seconds k e :
  e <= 0 ->
  -999999999 <= k * DateTime.us_per_second / DateTime.us_per_day <= 999999999 ->
  DateTime.timedelta_seconds (k * 2 ^ (- e), e) = Ok (k * DateTime.us_per_second).
Proof.
  intros He Hdays. unfold DateTime.timedelta_seconds, PyFloat.modf.
  assert (Hpow : 0 < 2 ^ (- e)) by (apply Z.pow_pos_nonneg; lia).
  destruct (0 <=? e) eqn:E.
  - apply Z.leb_le in E. assert (e = 0) by lia. subst e.
    change (2 ^ (- 0)) with 1. change (2 ^ 0) with 1. rewrite !Z.mul_1_r.
    change (PyFloat.round (PyFloat.mul_int (0, 0) DateTime.us_per_second)) with 0.
    rewrite Z.add_0_r.
    destruct ((_ <? -999999999) || (999999999 <? _)) eqn:Eb; [|reflexivity].
    apply orb_true_iff in Eb as [Eb|Eb]; [apply Z.ltb_lt in Eb | apply Z.ltb_lt in Eb]; lia.
  - rewrite Z.quot_mul, Z.rem_mul by lia.
    assert (Hfrac : PyFloat.round (PyFloat.mul_int (0, e) DateTime.us_per_second) = 0).
    { unfold PyFloat.mul_int. rewrite E. reflexivity. }
    rewrite Hfrac, Z.add_0_r.
    destruct ((_ <? -999999999) || (999999999 <? _)) eqn:Eb; [|reflexivity].
    apply orb_true_iff in Eb as [Eb|Eb]; [apply Z.ltb_lt in Eb | apply Z.ltb_lt in Eb]; lia.
Qed.

(** X24.  A raw value that is a whole number of seconds, [k * 10^9]
    nanoseconds with [k] not zero, is decoded without any rounding
    error: as long as the date stays within the years 1 to 9999,
    [format_timestamp] returns the calendar second that lies [k] seconds
    after the first of January 2001. *)
Theorem format_timestamp_whole_seconds (k : Z) :
  k <> 0 ->
  let t := DateTime.mac_epoch + k * DateTime.us_per_second in
  1 <= t / DateTime.us_per_day + 1 <= DateTime.max_ordinal ->
  format_timestamp (Some (k * 1000000000)) = Ok (DateTime.strftime t).
Proof.
  intros Hk t Hrange.
  assert (Hn : k * 1000000000 <> 0) by lia.
  rewrite (format_timestamp_nonzero _ Hn).
  pose proof (Z.mul_div_le t DateTime.us_per_day ltac:(reflexivity)) as Hlo.
  pose proof (Z.mul_succ_div_gt t DateTime.us_per_day ltac:(reflexivity)) as Hhi.
  unfold DateTime.max_ordinal in Hrange.
  assert (Hk' : -63113904000 <= k <= 252455529600).
  { subst t. unfold DateTime.mac_epoch, DateTime.us_per_day, DateTime.us_per_second in *. lia. }
  destruct (round_binary64_seconds k Hk) as (e & He & Hdiv); [lia|].
  unfold mac_datetime, PyFloat.true_divide. rewrite Hdiv. cbn [result_bind].
  rewrite (timedelta_whole_seconds k e He).
  2:{ unfold DateTime.us_per_day, DateTime.us_per_second.
      pose proof (Z.mul_div_le (k * 1000000) (86400 * 1000000) ltac:(reflexivity)).
      pose proof (Z.mul_succ_div_gt (k * 1000000) (86400 * 1000000) ltac:(reflexivity)).
      lia. }
  cbn [result_bind]. unfold DateTime.add. fold t.
  destruct ((_ <? 1) || (DateTime.max_ordinal <? _)) eqn:Eb; [|reflexivity].
  unfold DateTime.max_ordinal in Eb.
  apply orb_true_iff in Eb as [Eb|Eb]; [apply Z.ltb_lt in Eb | apply Z.ltb_lt in Eb]; lia.
Qed.

Lemma format_timestamp_whole_seconds_witness :
  format_timestamp (Some (700000000 * 1000000000)) = Ok "2023-03-08 20:26:40".
Proof.
  rewrite (format_timestamp_whole_seconds 700000000);
    [vm_compute; reflexivity | discriminate | vm_compute; split; discriminate].
Defined.
